(** * Voice assistant plugin (main.ts): session engine and voice-activity
      classifier, embedded in Rocq.

    The development follows [VoiceAssistantPlugin] of [src/main.ts].  Pure
    helpers are Rocq functions.  The plugin object is a record of the fields
    the methods read and write; a method is a function on that record.  An
    [async] method is cut at each [await]: the value the awaited promise
    settles with is an argument ([outcome]), so every external collaborator
    (speech recognition, language model, synthesis, microphone, vault) is an
    input of the model and never a stub.  JavaScript runs each callback to
    completion, so one synchronous stretch of code is one atomic step.

    Numbers: the classifier computes on IEEE doubles, the primitive
    [float]; the settings and the readings that are only compared or scaled
    are exact rationals ([Q]).  Strings are byte strings (UTF-8 literals as in
    the source file); [Js.toLowerCase] folds the ASCII letters only, and
    where the folding of other letters matters the host's [toLowerCase] is
    a parameter. *)

From Stdlib Require Import ZArith QArith Qround Qabs Qminmax Lqa Lia.
From Stdlib Require Import List String Ascii Bool DecimalString DecimalNat.
From Stdlib Require Floats.
Import ListNotations.

Set Implicit Arguments.

(* ================================================================== *)
(** * JavaScript values used by the source *)
(* ================================================================== *)

Module Js.

(** How an awaited promise settles: with a value, or with an error. *)
Inductive outcome (A : Type) : Type :=
| Resolved (a : A)
| Rejected (error : string).
Arguments Resolved {A} a.
Arguments Rejected {A} error.

Local Open Scope string_scope.

Definition nl : string := String "010"%char EmptyString.

(** Truthiness of a string: [!text] holds exactly for the empty string. *)
Definition truthy (s : string) : bool :=
  match s with
  | EmptyString => false
  | String _ _ => true
  end.

Definition lowerChar (c : ascii) : ascii :=
  let n := nat_of_ascii c in
  if ((65 <=? n) && (n <=? 90))%nat then ascii_of_nat (n + 32) else c.

Fixpoint toLowerCase (s : string) : string :=
  match s with
  | EmptyString => EmptyString
  | String c r => String (lowerChar c) (toLowerCase r)
  end.

(** [s.includes(sub)]: [sub] occurs in [s] at some offset. *)
Fixpoint includes (s sub : string) : bool :=
  if prefix sub s then true
  else match s with
       | EmptyString => false
       | String _ r => includes r sub
       end.

Definition isSpace (c : ascii) : bool :=
  let n := nat_of_ascii c in
  ((n =? 32) || ((9 <=? n) && (n <=? 13)))%nat.

Fixpoint trimStart (s : string) : string :=
  match s with
  | EmptyString => EmptyString
  | String c r => if isSpace c then trimStart r else s
  end.

(** Drops trailing white space: a character is kept when something
    non-blank follows it or when it is non-blank itself. *)
Fixpoint trimEnd (s : string) : string :=
  match s with
  | EmptyString => EmptyString
  | String c r =>
      match trimEnd r with
      | EmptyString => if isSpace c then EmptyString else String c EmptyString
      | r' => String c r'
      end
  end.

Definition trim (s : string) : string := trimEnd (trimStart s).

(** [s.length]: UTF-16 code units of a UTF-8 byte string. *)
Definition codeUnits (c : ascii) : nat :=
  let n := nat_of_ascii c in
  if (n <? 128)%nat then 1%nat
  else if (n <? 192)%nat then 0%nat
  else if (n <? 240)%nat then 1%nat
  else 2%nat.

Fixpoint length16 (s : string) : nat :=
  match s with
  | EmptyString => 0%nat
  | String c r => (codeUnits c + length16 r)%nat
  end.

(** A [Blob] is its bytes; [new Blob(parts)] concatenates the parts. *)
Definition Blob : Type := list Byte.byte.

Definition newBlob (parts : list Blob) : Blob := List.concat parts.

Definition size (b : Blob) : nat := List.length b.

(** [x < y] on numbers that are read exactly. *)
Definition Qltb (x y : Q) : bool := if Qlt_le_dec x y then true else false.

End Js.

Import Js.

(* ================================================================== *)
(** * Settings ([VoiceAssistantSettings], [DEFAULT_SETTINGS]) *)
(* ================================================================== *)

Inductive LlmProvider := google | openrouter | xunfei | custom.
Inductive WakeMode := wake_online | wake_disabled.
Inductive TtsMode := tts_disabled | tts_online.
Inductive AudioFormat := pcm | wav.

Record CustomModel := {
  cm_name : string;
  cm_provider : string;
  cm_modelId : string
}.

Record CustomPrompt := {
  name : string;
  trigger : string;
  prompt : string;
  enabled : bool
}.

Record VoiceAssistantSettings := {
  llmProvider : LlmProvider;
  googleApiKey : string;
  googleModel : string;
  openrouterApiKey : string;
  openrouterModel : string;
  xunfeiAppId : string;
  xunfeiApiKey : string;
  xunfeiApiSecret : string;
  xunfeiModel : string;
  customModels : list CustomModel;
  selectedCustomModel : string;
  wakeMode : WakeMode;
  wakeWords : list string;
  autoEnterDialogAfterWake : bool;
  wakeDetectionInterval : Q;
  continuousDialogDuration : Q;
  showDialogControls : bool;
  conversationSaveFolder : string;
  dictationSilenceTimeout : Q;
  dictationSilenceInterval : Q;
  voiceDetectionThreshold : Q;
  voiceDetectionSensitivity : Q;
  enableVoiceInterruption : bool;
  customPrompts : list CustomPrompt;
  ttsMode : TtsMode;
  ttsVoice : string;
  ttsSpeed : Q;
  ttsVolume : Q;
  ttsPitch : Q;
  saveAudioToVault : bool;
  audioSavePath : string;
  sampleRate : Q;
  channels : Q;
  audioFormat : AudioFormat;
  enableDebugLog : bool
}.

Local Open Scope string_scope.

Definition DEFAULT_SETTINGS : VoiceAssistantSettings := {|
  llmProvider := google;
  googleApiKey := "";
  googleModel := "gemini-pro";
  openrouterApiKey := "";
  openrouterModel := "openai/gpt-3.5-turbo";
  xunfeiAppId := "";
  xunfeiApiKey := "";
  xunfeiApiSecret := "";
  xunfeiModel := "generalv3.5";
  customModels := [];
  selectedCustomModel := "";
  wakeMode := wake_disabled;
  wakeWords := ["你好，小三"; "小三同学"; "小三小三"];
  autoEnterDialogAfterWake := true;
  wakeDetectionInterval := 1000;
  continuousDialogDuration := 60;
  showDialogControls := true;
  conversationSaveFolder := "voice-assistant/conversations";
  dictationSilenceTimeout := 10;
  dictationSilenceInterval := 2;
  voiceDetectionThreshold := 30;
  voiceDetectionSensitivity := 100;
  enableVoiceInterruption := true;
  customPrompts :=
    [ {| name := "任务提醒";
         trigger := "提醒我";
         prompt := "请根据用户的描述，生成一个符合Markdown格式的任务提醒。格式要求："
                   ++ nl ++ "- [ ] 任务内容" ++ nl ++ "- 时间：具体时间" ++ nl
                   ++ "- 备注：相关说明" ++ nl ++ nl
                   ++ "请确保生成的内容可以直接插入到Obsidian笔记中。";
         enabled := true |} ];
  ttsMode := tts_disabled;
  ttsVoice := "xiaoyan";
  ttsSpeed := 50;
  ttsVolume := 50;
  ttsPitch := 50;
  saveAudioToVault := false;
  audioSavePath := "voice-assistant/audio";
  sampleRate := 16000;
  channels := 1;
  audioFormat := pcm;
  enableDebugLog := false
|}.

(** Field updates ([this.settings.f = v]). *)
Definition set_saveAudioToVault (v : bool) (s : VoiceAssistantSettings)
  : VoiceAssistantSettings :=
  {| llmProvider := llmProvider s; googleApiKey := googleApiKey s;
     googleModel := googleModel s; openrouterApiKey := openrouterApiKey s;
     openrouterModel := openrouterModel s; xunfeiAppId := xunfeiAppId s;
     xunfeiApiKey := xunfeiApiKey s; xunfeiApiSecret := xunfeiApiSecret s;
     xunfeiModel := xunfeiModel s; customModels := customModels s;
     selectedCustomModel := selectedCustomModel s; wakeMode := wakeMode s;
     wakeWords := wakeWords s;
     autoEnterDialogAfterWake := autoEnterDialogAfterWake s;
     wakeDetectionInterval := wakeDetectionInterval s;
     continuousDialogDuration := continuousDialogDuration s;
     showDialogControls := showDialogControls s;
     conversationSaveFolder := conversationSaveFolder s;
     dictationSilenceTimeout := dictationSilenceTimeout s;
     dictationSilenceInterval := dictationSilenceInterval s;
     voiceDetectionThreshold := voiceDetectionThreshold s;
     voiceDetectionSensitivity := voiceDetectionSensitivity s;
     enableVoiceInterruption := enableVoiceInterruption s;
     customPrompts := customPrompts s; ttsMode := ttsMode s;
     ttsVoice := ttsVoice s; ttsSpeed := ttsSpeed s; ttsVolume := ttsVolume s;
     ttsPitch := ttsPitch s; saveAudioToVault := v;
     audioSavePath := audioSavePath s; sampleRate := sampleRate s;
     channels := channels s; audioFormat := audioFormat s;
     enableDebugLog := enableDebugLog s |}.

Definition set_ttsMode (v : TtsMode) (s : VoiceAssistantSettings)
  : VoiceAssistantSettings :=
  {| llmProvider := llmProvider s; googleApiKey := googleApiKey s;
     googleModel := googleModel s; openrouterApiKey := openrouterApiKey s;
     openrouterModel := openrouterModel s; xunfeiAppId := xunfeiAppId s;
     xunfeiApiKey := xunfeiApiKey s; xunfeiApiSecret := xunfeiApiSecret s;
     xunfeiModel := xunfeiModel s; customModels := customModels s;
     selectedCustomModel := selectedCustomModel s; wakeMode := wakeMode s;
     wakeWords := wakeWords s;
     autoEnterDialogAfterWake := autoEnterDialogAfterWake s;
     wakeDetectionInterval := wakeDetectionInterval s;
     continuousDialogDuration := continuousDialogDuration s;
     showDialogControls := showDialogControls s;
     conversationSaveFolder := conversationSaveFolder s;
     dictationSilenceTimeout := dictationSilenceTimeout s;
     dictationSilenceInterval := dictationSilenceInterval s;
     voiceDetectionThreshold := voiceDetectionThreshold s;
     voiceDetectionSensitivity := voiceDetectionSensitivity s;
     enableVoiceInterruption := enableVoiceInterruption s;
     customPrompts := customPrompts s; ttsMode := v;
     ttsVoice := ttsVoice s; ttsSpeed := ttsSpeed s; ttsVolume := ttsVolume s;
     ttsPitch := ttsPitch s; saveAudioToVault := saveAudioToVault s;
     audioSavePath := audioSavePath s; sampleRate := sampleRate s;
     channels := channels s; audioFormat := audioFormat s;
     enableDebugLog := enableDebugLog s |}.

(* ================================================================== *)
(** * Custom prompts ([processCustomPrompts]) *)
(* ================================================================== *)

Module Prompts.

(** The template literal [`${prompt.prompt}\n\n用户输入：${text}`]. *)
Definition separator : string := nl ++ nl ++ "用户输入：".

Definition combine (p : CustomPrompt) (text : string) : string :=
  prompt p ++ separator ++ text.

Section WithHost.

(** [String.prototype.toLowerCase] of the host, which folds every cased
    letter of Unicode. *)
Variable toLowerCase : string -> string.

(** [text.toLowerCase().includes(prompt.trigger.toLowerCase())] *)
Definition matches (text : string) (p : CustomPrompt) : bool :=
  includes (toLowerCase text) (toLowerCase (trigger p)).

(** The [for ... of] loop over [this.settings.customPrompts]. *)
Fixpoint scanPrompts (ps : list CustomPrompt) (text : string) : string :=
  match ps with
  | [] => text
  | p :: rest =>
      if negb (enabled p) then scanPrompts rest text
      else if matches text p then combine p text
      else scanPrompts rest text
  end.

Definition processCustomPrompts (settings : VoiceAssistantSettings)
           (text : string) : string :=
  match customPrompts settings with
  | [] => text
  | ps => scanPrompts ps text
  end.

End WithHost.

(** What the claim calls a case-insensitive substring, said without
    [toLowerCase] for the letters of ASCII: two characters are the same
    letter when they are equal or one is the capital of the other; two
    strings are the same up to case when they are so character by
    character; [sub] occurs in [text] up to case when a stretch of [text]
    is the same as [sub] up to case. *)
Definition capitalOf (c d : ascii) : Prop :=
  (65 <= nat_of_ascii c <= 90)%nat
  /\ nat_of_ascii d = (nat_of_ascii c + 32)%nat.

Definition sameLetter (c d : ascii) : Prop :=
  c = d \/ capitalOf c d \/ capitalOf d c.

Inductive sameUpToCase : string -> string -> Prop :=
| same_empty : sameUpToCase "" ""
| same_letter (c d : ascii) (r s : string) :
    sameLetter c d -> sameUpToCase r s ->
    sameUpToCase (String c r) (String d s).

Definition ci_substring (sub text : string) : Prop :=
  exists a mid b, text = a ++ mid ++ b /\ sameUpToCase mid sub.

(** The strings whose characters are all ASCII. *)
Fixpoint isAscii (s : string) : bool :=
  match s with
  | EmptyString => true
  | String c r => (nat_of_ascii c <? 128)%nat && isAscii r
  end.

End Prompts.

(* ================================================================== *)
(** * Pre-recording buffer ([addToPreRecordingBuffer]) *)
(* ================================================================== *)

Module PreRecording.

(** [private preRecordingBufferSize = 10] *)
Definition preRecordingBufferSize : nat := 10.

(** [Array.prototype.shift]: drops the first element. *)
Definition shift (A : Type) (l : list A) : list A := tl l.

(** [push], then [shift] when the length exceeds the limit. *)
Definition addToPreRecordingBuffer (audioBlob : Blob) (buffer : list Blob)
  : list Blob :=
  let pushed := (buffer ++ [audioBlob])%list in
  if (preRecordingBufferSize <? List.length pushed)%nat
  then shift pushed else pushed.

(** The buffer after [startPreRecordingBuffer] reset it and the recorder
    delivered the given segments, oldest first. *)
Definition bufferAfter (segments : list Blob) : list Blob :=
  fold_left (fun buf b => addToPreRecordingBuffer b buf) segments [].

(** [getPreRecordingBufferAudio] *)
Definition getPreRecordingBufferAudio (buffer : list Blob) : option Blob :=
  match buffer with
  | [] => None
  | _ => Some (newBlob buffer)
  end.

End PreRecording.

(* ================================================================== *)
(** * Numbers ([Math]) *)
(* ================================================================== *)

(** A JavaScript number is an IEEE 754 double: the primitive [float],
    whose [+], [-], [*], [/] and [<] are the operations of the host,
    rounded to nearest.  A decimal literal denotes the nearest double, as
    in the source. *)
Set Warnings "-inexact-float".

Module Math.

Import PrimFloat SpecFloat FloatOps.

Local Open Scope float_scope.

(** An integer (a length, a counter, an index) as a number; exact below
    2^53, and the integers of the source are lengths of arrays. *)
Definition ofZ (z : Z) : float :=
  if (z <? 0)%Z then - of_uint63 (Uint63.of_Z (- z))
  else of_uint63 (Uint63.of_Z z).

(** A setting as a number: the nearest double. *)
Definition ofQ (q : Q) : float := ofZ (Qnum q) / ofZ (Z.pos (Qden q)).

(** The integer [Math.floor] gives for a finite number. *)
Definition floorZ (x : float) : option Z :=
  match Prim2SF x with
  | S754_zero _ => Some 0%Z
  | S754_finite s m e =>
      let n := if s then Z.neg m else Z.pos m in
      Some (if (0 <=? e)%Z then (n * 2 ^ e)%Z else (n / 2 ^ (- e))%Z)
  | _ => None
  end.

(** [Math.floor]: a number with no fraction (exponent not negative), a
    zero, an infinity and NaN are returned as they are. *)
Definition floor (x : float) : float :=
  match Prim2SF x with
  | S754_finite s m e =>
      if (0 <=? e)%Z then x
      else ofZ ((if s then Z.neg m else Z.pos m) / 2 ^ (- e))
  | _ => x
  end.

(** [Math.max] and [Math.min]: NaN when an argument is NaN; [-0] is below
    [+0]. *)
Definition max (a b : float) : float :=
  if is_nan a || is_nan b then nan
  else if a <? b then b
  else if b <? a then a
  else if get_sign a then b else a.

Definition min (a b : float) : float :=
  if is_nan a || is_nan b then nan
  else if a <? b then a
  else if b <? a then b
  else if get_sign a then a else b.

End Math.

(* ================================================================== *)
(** * Voice-activity classifier ([detectVoiceInAudio],
      [evaluateVoiceActivity]) *)
(* ================================================================== *)

Module Vad.

Import PrimFloat.

Local Open Scope float_scope.

(** What [decodeAudioData] resolves with: channel 0 and the sample rate. *)
Record AudioBuffer := {
  channelData : list float;
  bufferSampleRate : float
}.

(** [channelData.length] *)
Definition lengthOf (l : list float) : float :=
  Math.ofZ (Z.of_nat (List.length l)).

(** First loop: running [sum] and [maxAmplitude] of [Math.abs]. *)
Definition volumeScan (data : list float) : float * float :=
  fold_left
    (fun acc x =>
       let amplitude := abs x in
       (fst acc + amplitude, Math.max (snd acc) amplitude))
    data (0, 0).

Definition averageVolumeOf (data : list float) : float :=
  fst (volumeScan data) / lengthOf data.

Definition maxAmplitudeOf (data : list float) : float :=
  snd (volumeScan data).

Definition dynamicRangeOf (data : list float) : float :=
  maxAmplitudeOf data / (averageVolumeOf data + 0.001).

(** Second loop: sign changes between neighbours,
    [(channelData[i] >= 0) !== (channelData[i - 1] >= 0)]. *)
Fixpoint countCrossings (previous : float) (rest : list float) : nat :=
  match rest with
  | [] => 0%nat
  | x :: r =>
      ((if Bool.eqb (0 <=? x)%float (0 <=? previous)%float then 0 else 1)
       + countCrossings x r)%nat
  end.

Definition zeroCrossings (data : list float) : nat :=
  match data with
  | [] => 0%nat
  | x :: r => countCrossings x r
  end.

Definition zeroCrossingRateOf (data : list float) : float :=
  Math.ofZ (Z.of_nat (zeroCrossings data)) / lengthOf data.

(** [Math.floor(sampleRate * 0.025)] *)
Definition frameSizeOf (buf : AudioBuffer) : float :=
  Math.floor (bufferSampleRate buf * 0.025).

(** [Math.floor(channelData.length / frameSize)] *)
Definition frameCountOf (data : list float) (frameSize : float) : float :=
  Math.floor (lengthOf data / frameSize).

(** The passes of [for (let frame = 0; frame < frameCount; frame++)]:
    none when [frameCount] is NaN, zero or negative; with [Infinity] the
    loop never ends ([None]). *)
Definition passes (frameCount : float) : option nat :=
  if is_infinity frameCount && negb (get_sign frameCount) then None
  else
    match Math.floorZ frameCount with
    | Some n => Some (Z.to_nat n)
    | None => Some 0%nat
    end.

(** The samples [channelData[i]] for [startIdx <= i < endIdx]; inside the
    frame loop both are whole numbers within the channel. *)
Definition slice (startIdx endIdx : float) (data : list float)
  : list float :=
  match Math.floorZ startIdx, Math.floorZ endIdx with
  | Some s, Some e => firstn (Z.to_nat (e - s)) (skipn (Z.to_nat s) data)
  | _, _ => []
  end.

Definition sumSquares (l : list float) : float :=
  fold_left (fun frameEnergy x => frameEnergy + x * x) l 0.

Section WithHost.

(** [Math.sqrt] and [Math.pow], which the language leaves to the host;
    the results below hold whatever they return. *)
Variable sqrt : float -> float.
Variable pow : float -> float -> float.

Definition frameEnergyAt (data : list float) (frameSize : float)
           (frame : nat) : float :=
  let startIdx := Math.ofZ (Z.of_nat frame) * frameSize in
  let endIdx := Math.min (startIdx + frameSize) (lengthOf data) in
  sqrt (sumSquares (slice startIdx endIdx data) / (endIdx - startIdx)).

(** The frame loop. *)
Definition frameEnergiesOf (data : list float) (frameSize : float)
  : option (list float) :=
  match passes (frameCountOf data frameSize) with
  | None => None
  | Some frameCount =>
      Some (map (frameEnergyAt data frameSize) (seq 0 frameCount))
  end.

Definition energyVarianceOf (frameEnergies : list float) : float :=
  if (1 <? List.length frameEnergies)%nat then
    let meanEnergy :=
      fold_left (fun a b => a + b) frameEnergies 0 / lengthOf frameEnergies in
    fold_left (fun acc energy => acc + pow (energy - meanEnergy) 2)
              frameEnergies 0
    / lengthOf frameEnergies
  else 0.

Definition evaluateVoiceActivity
           (averageVolume volumeThreshold dynamicRange zeroCrossingRate
            energyVariance maxAmplitude : float) : bool :=
  if averageVolume <? volumeThreshold then false
  else if volumeThreshold * 3 <? averageVolume then true
  else
    let voiceScore := 0%nat in
    let voiceScore :=
      if (2 <? dynamicRange) && (dynamicRange <? 20)
      then (voiceScore + 2)%nat
      else if 1.5 <? dynamicRange then (voiceScore + 1)%nat
           else voiceScore in
    let voiceScore :=
      if (0.01 <? zeroCrossingRate) && (zeroCrossingRate <? 0.3)
      then (voiceScore + 2)%nat
      else if (0.005 <? zeroCrossingRate) && (zeroCrossingRate <? 0.5)
           then (voiceScore + 1)%nat
           else voiceScore in
    let voiceScore :=
      if 0.0001 <? energyVariance then (voiceScore + 1)%nat
      else voiceScore in
    let voiceScore :=
      if volumeThreshold * 2 <? maxAmplitude then (voiceScore + 1)%nat
      else voiceScore in
    (3 <=? voiceScore)%nat.

(** [this.settings.voiceDetectionThreshold / 1000] *)
Definition volumeThresholdOf (settings : VoiceAssistantSettings) : float :=
  Math.ofQ (voiceDetectionThreshold settings) / 1000.

(** The [then] branch of [decodeAudioData]. *)
Definition detectDecoded (settings : VoiceAssistantSettings)
           (audioBuffer : AudioBuffer) : option bool :=
  let data := channelData audioBuffer in
  let averageVolume := averageVolumeOf data in
  let volumeThreshold := volumeThresholdOf settings in
  if averageVolume <? volumeThreshold then Some false
  else
    match frameEnergiesOf data (frameSizeOf audioBuffer) with
    | None => None
    | Some frameEnergies =>
        Some (evaluateVoiceActivity
                averageVolume volumeThreshold
                (dynamicRangeOf data) (zeroCrossingRateOf data)
                (energyVarianceOf frameEnergies)
                (maxAmplitudeOf data))
    end.

(** [detectVoiceInAudio]: a failed read or decode resolves [true]. *)
Definition detectVoiceInAudio (settings : VoiceAssistantSettings)
           (decoded : outcome AudioBuffer) : option bool :=
  match decoded with
  | Rejected _ => Some true
  | Resolved audioBuffer => detectDecoded settings audioBuffer
  end.

End WithHost.




End Vad.

(* ================================================================== *)
(** * The plugin object and its host ([VoiceAssistantPlugin]) *)
(* ================================================================== *)

Module Engine.

Local Open Scope string_scope.

Definition TimerId : Type := nat.
Definition AudioId : Type := nat.

(** An entry of [conversationHistory]. *)
Record Turn := {
  user : string;
  assistant : string;
  timestamp : Z
}.

(** What a pending [setTimeout] will run.  [checkVolume] closes over its
    counter [consecutiveDetections]; each poll loop has one pending timer,
    which carries the counter of its loop. *)
Inductive Callback :=
| SilenceExpired
| CheckVolume (consecutiveDetections : nat).

Inductive MicUser := ForRecording | ForMonitor | ForPreRecording.

(** Calls that leave the plugin, in the order they are made. *)
Inductive Effect :=
| Notice (message : string)
| StatusFloat (message : string)
| GetUserMedia (user : MicUser)
| SpeechToText (audio : Blob)
| CallLLM (text : string)
| TextToSpeech (text : string)
| AudioPlay (audio : AudioId)
| AudioPause (audio : AudioId)
| SaveAudioToVault (base64Audio : string)
| SaveConversationToFile (fileName content : string)
| InsertToNote (userText aiResponse : string).

(** The fields of the plugin object that the session engine uses, and the
    host state it acts on: the pending timers of the event loop, the audio
    elements created so far (an element is its position in [audios]; the
    flag is its [paused] attribute) and the log of outgoing calls. *)
Record Plugin := {
  settings : VoiceAssistantSettings;
  currentAudio : option AudioId;
  isPlaying : bool;
  isInContinuousDialog : bool;
  conversationHistory : list Turn;
  silenceTimer : option TimerId;
  backgroundVoiceDetection : bool;
  voiceDetectionTimer : option TimerId;
  preRecordingBuffer : list Blob;
  isPreRecording : bool;
  isWakeConversation : bool;
  wakeSessionId : option string;
  wakeSessionFileName : option string;
  wakeSessionAudioSaved : bool;
  timers : list (TimerId * Callback);
  nextTimer : TimerId;
  audios : list bool;
  effects : list Effect
}.

Definition set_settings (v : VoiceAssistantSettings) (p : Plugin) : Plugin :=
  {| settings := v; currentAudio := currentAudio p;
     isPlaying := isPlaying p;
     isInContinuousDialog := isInContinuousDialog p;
     conversationHistory := conversationHistory p;
     silenceTimer := silenceTimer p;
     backgroundVoiceDetection := backgroundVoiceDetection p;
     voiceDetectionTimer := voiceDetectionTimer p;
     preRecordingBuffer := preRecordingBuffer p;
     isPreRecording := isPreRecording p;
     isWakeConversation := isWakeConversation p;
     wakeSessionId := wakeSessionId p;
     wakeSessionFileName := wakeSessionFileName p;
     wakeSessionAudioSaved := wakeSessionAudioSaved p; timers := timers p;
     nextTimer := nextTimer p; audios := audios p; effects := effects p |}.

Definition set_currentAudio (v : option AudioId) (p : Plugin) : Plugin :=
  {| settings := settings p; currentAudio := v; isPlaying := isPlaying p;
     isInContinuousDialog := isInContinuousDialog p;
     conversationHistory := conversationHistory p;
     silenceTimer := silenceTimer p;
     backgroundVoiceDetection := backgroundVoiceDetection p;
     voiceDetectionTimer := voiceDetectionTimer p;
     preRecordingBuffer := preRecordingBuffer p;
     isPreRecording := isPreRecording p;
     isWakeConversation := isWakeConversation p;
     wakeSessionId := wakeSessionId p;
     wakeSessionFileName := wakeSessionFileName p;
     wakeSessionAudioSaved := wakeSessionAudioSaved p; timers := timers p;
     nextTimer := nextTimer p; audios := audios p; effects := effects p |}.

Definition set_isPlaying (v : bool) (p : Plugin) : Plugin :=
  {| settings := settings p; currentAudio := currentAudio p;
     isPlaying := v; isInContinuousDialog := isInContinuousDialog p;
     conversationHistory := conversationHistory p;
     silenceTimer := silenceTimer p;
     backgroundVoiceDetection := backgroundVoiceDetection p;
     voiceDetectionTimer := voiceDetectionTimer p;
     preRecordingBuffer := preRecordingBuffer p;
     isPreRecording := isPreRecording p;
     isWakeConversation := isWakeConversation p;
     wakeSessionId := wakeSessionId p;
     wakeSessionFileName := wakeSessionFileName p;
     wakeSessionAudioSaved := wakeSessionAudioSaved p; timers := timers p;
     nextTimer := nextTimer p; audios := audios p; effects := effects p |}.

Definition set_isInContinuousDialog (v : bool) (p : Plugin) : Plugin :=
  {| settings := settings p; currentAudio := currentAudio p;
     isPlaying := isPlaying p; isInContinuousDialog := v;
     conversationHistory := conversationHistory p;
     silenceTimer := silenceTimer p;
     backgroundVoiceDetection := backgroundVoiceDetection p;
     voiceDetectionTimer := voiceDetectionTimer p;
     preRecordingBuffer := preRecordingBuffer p;
     isPreRecording := isPreRecording p;
     isWakeConversation := isWakeConversation p;
     wakeSessionId := wakeSessionId p;
     wakeSessionFileName := wakeSessionFileName p;
     wakeSessionAudioSaved := wakeSessionAudioSaved p; timers := timers p;
     nextTimer := nextTimer p; audios := audios p; effects := effects p |}.

Definition set_conversationHistory (v : list Turn) (p : Plugin) : Plugin :=
  {| settings := settings p; currentAudio := currentAudio p;
     isPlaying := isPlaying p;
     isInContinuousDialog := isInContinuousDialog p;
     conversationHistory := v; silenceTimer := silenceTimer p;
     backgroundVoiceDetection := backgroundVoiceDetection p;
     voiceDetectionTimer := voiceDetectionTimer p;
     preRecordingBuffer := preRecordingBuffer p;
     isPreRecording := isPreRecording p;
     isWakeConversation := isWakeConversation p;
     wakeSessionId := wakeSessionId p;
     wakeSessionFileName := wakeSessionFileName p;
     wakeSessionAudioSaved := wakeSessionAudioSaved p; timers := timers p;
     nextTimer := nextTimer p; audios := audios p; effects := effects p |}.

Definition set_silenceTimer (v : option TimerId) (p : Plugin) : Plugin :=
  {| settings := settings p; currentAudio := currentAudio p;
     isPlaying := isPlaying p;
     isInContinuousDialog := isInContinuousDialog p;
     conversationHistory := conversationHistory p; silenceTimer := v;
     backgroundVoiceDetection := backgroundVoiceDetection p;
     voiceDetectionTimer := voiceDetectionTimer p;
     preRecordingBuffer := preRecordingBuffer p;
     isPreRecording := isPreRecording p;
     isWakeConversation := isWakeConversation p;
     wakeSessionId := wakeSessionId p;
     wakeSessionFileName := wakeSessionFileName p;
     wakeSessionAudioSaved := wakeSessionAudioSaved p; timers := timers p;
     nextTimer := nextTimer p; audios := audios p; effects := effects p |}.

Definition set_backgroundVoiceDetection (v : bool) (p : Plugin) : Plugin :=
  {| settings := settings p; currentAudio := currentAudio p;
     isPlaying := isPlaying p;
     isInContinuousDialog := isInContinuousDialog p;
     conversationHistory := conversationHistory p;
     silenceTimer := silenceTimer p; backgroundVoiceDetection := v;
     voiceDetectionTimer := voiceDetectionTimer p;
     preRecordingBuffer := preRecordingBuffer p;
     isPreRecording := isPreRecording p;
     isWakeConversation := isWakeConversation p;
     wakeSessionId := wakeSessionId p;
     wakeSessionFileName := wakeSessionFileName p;
     wakeSessionAudioSaved := wakeSessionAudioSaved p; timers := timers p;
     nextTimer := nextTimer p; audios := audios p; effects := effects p |}.

Definition set_voiceDetectionTimer (v : option TimerId) (p : Plugin) : Plugin :=
  {| settings := settings p; currentAudio := currentAudio p;
     isPlaying := isPlaying p;
     isInContinuousDialog := isInContinuousDialog p;
     conversationHistory := conversationHistory p;
     silenceTimer := silenceTimer p;
     backgroundVoiceDetection := backgroundVoiceDetection p;
     voiceDetectionTimer := v; preRecordingBuffer := preRecordingBuffer p;
     isPreRecording := isPreRecording p;
     isWakeConversation := isWakeConversation p;
     wakeSessionId := wakeSessionId p;
     wakeSessionFileName := wakeSessionFileName p;
     wakeSessionAudioSaved := wakeSessionAudioSaved p; timers := timers p;
     nextTimer := nextTimer p; audios := audios p; effects := effects p |}.

Definition set_preRecordingBuffer (v : list Blob) (p : Plugin) : Plugin :=
  {| settings := settings p; currentAudio := currentAudio p;
     isPlaying := isPlaying p;
     isInContinuousDialog := isInContinuousDialog p;
     conversationHistory := conversationHistory p;
     silenceTimer := silenceTimer p;
     backgroundVoiceDetection := backgroundVoiceDetection p;
     voiceDetectionTimer := voiceDetectionTimer p; preRecordingBuffer := v;
     isPreRecording := isPreRecording p;
     isWakeConversation := isWakeConversation p;
     wakeSessionId := wakeSessionId p;
     wakeSessionFileName := wakeSessionFileName p;
     wakeSessionAudioSaved := wakeSessionAudioSaved p; timers := timers p;
     nextTimer := nextTimer p; audios := audios p; effects := effects p |}.

Definition set_isPreRecording (v : bool) (p : Plugin) : Plugin :=
  {| settings := settings p; currentAudio := currentAudio p;
     isPlaying := isPlaying p;
     isInContinuousDialog := isInContinuousDialog p;
     conversationHistory := conversationHistory p;
     silenceTimer := silenceTimer p;
     backgroundVoiceDetection := backgroundVoiceDetection p;
     voiceDetectionTimer := voiceDetectionTimer p;
     preRecordingBuffer := preRecordingBuffer p; isPreRecording := v;
     isWakeConversation := isWakeConversation p;
     wakeSessionId := wakeSessionId p;
     wakeSessionFileName := wakeSessionFileName p;
     wakeSessionAudioSaved := wakeSessionAudioSaved p; timers := timers p;
     nextTimer := nextTimer p; audios := audios p; effects := effects p |}.

Definition set_isWakeConversation (v : bool) (p : Plugin) : Plugin :=
  {| settings := settings p; currentAudio := currentAudio p;
     isPlaying := isPlaying p;
     isInContinuousDialog := isInContinuousDialog p;
     conversationHistory := conversationHistory p;
     silenceTimer := silenceTimer p;
     backgroundVoiceDetection := backgroundVoiceDetection p;
     voiceDetectionTimer := voiceDetectionTimer p;
     preRecordingBuffer := preRecordingBuffer p;
     isPreRecording := isPreRecording p; isWakeConversation := v;
     wakeSessionId := wakeSessionId p;
     wakeSessionFileName := wakeSessionFileName p;
     wakeSessionAudioSaved := wakeSessionAudioSaved p; timers := timers p;
     nextTimer := nextTimer p; audios := audios p; effects := effects p |}.

Definition set_wakeSessionId (v : option string) (p : Plugin) : Plugin :=
  {| settings := settings p; currentAudio := currentAudio p;
     isPlaying := isPlaying p;
     isInContinuousDialog := isInContinuousDialog p;
     conversationHistory := conversationHistory p;
     silenceTimer := silenceTimer p;
     backgroundVoiceDetection := backgroundVoiceDetection p;
     voiceDetectionTimer := voiceDetectionTimer p;
     preRecordingBuffer := preRecordingBuffer p;
     isPreRecording := isPreRecording p;
     isWakeConversation := isWakeConversation p; wakeSessionId := v;
     wakeSessionFileName := wakeSessionFileName p;
     wakeSessionAudioSaved := wakeSessionAudioSaved p; timers := timers p;
     nextTimer := nextTimer p; audios := audios p; effects := effects p |}.

Definition set_wakeSessionFileName (v : option string) (p : Plugin) : Plugin :=
  {| settings := settings p; currentAudio := currentAudio p;
     isPlaying := isPlaying p;
     isInContinuousDialog := isInContinuousDialog p;
     conversationHistory := conversationHistory p;
     silenceTimer := silenceTimer p;
     backgroundVoiceDetection := backgroundVoiceDetection p;
     voiceDetectionTimer := voiceDetectionTimer p;
     preRecordingBuffer := preRecordingBuffer p;
     isPreRecording := isPreRecording p;
     isWakeConversation := isWakeConversation p;
     wakeSessionId := wakeSessionId p; wakeSessionFileName := v;
     wakeSessionAudioSaved := wakeSessionAudioSaved p; timers := timers p;
     nextTimer := nextTimer p; audios := audios p; effects := effects p |}.

Definition set_wakeSessionAudioSaved (v : bool) (p : Plugin) : Plugin :=
  {| settings := settings p; currentAudio := currentAudio p;
     isPlaying := isPlaying p;
     isInContinuousDialog := isInContinuousDialog p;
     conversationHistory := conversationHistory p;
     silenceTimer := silenceTimer p;
     backgroundVoiceDetection := backgroundVoiceDetection p;
     voiceDetectionTimer := voiceDetectionTimer p;
     preRecordingBuffer := preRecordingBuffer p;
     isPreRecording := isPreRecording p;
     isWakeConversation := isWakeConversation p;
     wakeSessionId := wakeSessionId p;
     wakeSessionFileName := wakeSessionFileName p;
     wakeSessionAudioSaved := v; timers := timers p;
     nextTimer := nextTimer p; audios := audios p; effects := effects p |}.

Definition set_timers (v : list (TimerId * Callback)) (p : Plugin) : Plugin :=
  {| settings := settings p; currentAudio := currentAudio p;
     isPlaying := isPlaying p;
     isInContinuousDialog := isInContinuousDialog p;
     conversationHistory := conversationHistory p;
     silenceTimer := silenceTimer p;
     backgroundVoiceDetection := backgroundVoiceDetection p;
     voiceDetectionTimer := voiceDetectionTimer p;
     preRecordingBuffer := preRecordingBuffer p;
     isPreRecording := isPreRecording p;
     isWakeConversation := isWakeConversation p;
     wakeSessionId := wakeSessionId p;
     wakeSessionFileName := wakeSessionFileName p;
     wakeSessionAudioSaved := wakeSessionAudioSaved p; timers := v;
     nextTimer := nextTimer p; audios := audios p; effects := effects p |}.

Definition set_nextTimer (v : TimerId) (p : Plugin) : Plugin :=
  {| settings := settings p; currentAudio := currentAudio p;
     isPlaying := isPlaying p;
     isInContinuousDialog := isInContinuousDialog p;
     conversationHistory := conversationHistory p;
     silenceTimer := silenceTimer p;
     backgroundVoiceDetection := backgroundVoiceDetection p;
     voiceDetectionTimer := voiceDetectionTimer p;
     preRecordingBuffer := preRecordingBuffer p;
     isPreRecording := isPreRecording p;
     isWakeConversation := isWakeConversation p;
     wakeSessionId := wakeSessionId p;
     wakeSessionFileName := wakeSessionFileName p;
     wakeSessionAudioSaved := wakeSessionAudioSaved p; timers := timers p;
     nextTimer := v; audios := audios p; effects := effects p |}.

Definition set_audios (v : list bool) (p : Plugin) : Plugin :=
  {| settings := settings p; currentAudio := currentAudio p;
     isPlaying := isPlaying p;
     isInContinuousDialog := isInContinuousDialog p;
     conversationHistory := conversationHistory p;
     silenceTimer := silenceTimer p;
     backgroundVoiceDetection := backgroundVoiceDetection p;
     voiceDetectionTimer := voiceDetectionTimer p;
     preRecordingBuffer := preRecordingBuffer p;
     isPreRecording := isPreRecording p;
     isWakeConversation := isWakeConversation p;
     wakeSessionId := wakeSessionId p;
     wakeSessionFileName := wakeSessionFileName p;
     wakeSessionAudioSaved := wakeSessionAudioSaved p; timers := timers p;
     nextTimer := nextTimer p; audios := v; effects := effects p |}.

Definition set_effects (v : list Effect) (p : Plugin) : Plugin :=
  {| settings := settings p; currentAudio := currentAudio p;
     isPlaying := isPlaying p;
     isInContinuousDialog := isInContinuousDialog p;
     conversationHistory := conversationHistory p;
     silenceTimer := silenceTimer p;
     backgroundVoiceDetection := backgroundVoiceDetection p;
     voiceDetectionTimer := voiceDetectionTimer p;
     preRecordingBuffer := preRecordingBuffer p;
     isPreRecording := isPreRecording p;
     isWakeConversation := isWakeConversation p;
     wakeSessionId := wakeSessionId p;
     wakeSessionFileName := wakeSessionFileName p;
     wakeSessionAudioSaved := wakeSessionAudioSaved p; timers := timers p;
     nextTimer := nextTimer p; audios := audios p; effects := v |}.

(** The plugin right after [onload] with the given settings. *)
Definition initial (loaded : VoiceAssistantSettings) : Plugin :=
  {| settings := loaded; currentAudio := None; isPlaying := false;
     isInContinuousDialog := false; conversationHistory := [];
     silenceTimer := None; backgroundVoiceDetection := false;
     voiceDetectionTimer := None; preRecordingBuffer := [];
     isPreRecording := false; isWakeConversation := false;
     wakeSessionId := None; wakeSessionFileName := None;
     wakeSessionAudioSaved := false; timers := []; nextTimer := 1%nat;
     audios := []; effects := [] |}.

(** How a stretch of an [async] method ends: at an [await], by returning,
    or by throwing. *)
Inductive Next :=
| Awaiting
| Returned
| Thrown (error : string).

(** ** Host operations *)

Definition emit (e : Effect) (p : Plugin) : Plugin :=
  set_effects (effects p ++ [e])%list p.

Definition setTimeout (cb : Callback) (p : Plugin) : TimerId * Plugin :=
  let id := nextTimer p in
  (id, set_nextTimer (S id) (set_timers (timers p ++ [(id, cb)])%list p)).

Definition clearTimeout (id : TimerId) (p : Plugin) : Plugin :=
  set_timers (filter (fun t => negb (fst t =? id)%nat) (timers p)) p.

Definition pendingCallback (id : TimerId) (p : Plugin) : option Callback :=
  option_map snd (find (fun t => (fst t =? id)%nat) (timers p)).

Fixpoint replaceNth (A : Type) (n : nat) (v : A) (l : list A) : list A :=
  match l, n with
  | [], _ => []
  | _ :: r, O => v :: r
  | x :: r, S m => x :: replaceNth m v r
  end.

(** [new Audio(url)]: a fresh element, paused. *)
Definition newAudio (p : Plugin) : AudioId * Plugin :=
  (List.length (audios p), set_audios (audios p ++ [true])%list p).

Definition paused (a : AudioId) (p : Plugin) : bool := nth a (audios p) true.

Definition audioPlay (a : AudioId) (p : Plugin) : Plugin :=
  emit (AudioPlay a) (set_audios (replaceNth a false (audios p)) p).

Definition audioPause (a : AudioId) (p : Plugin) : Plugin :=
  emit (AudioPause a) (set_audios (replaceNth a true (audios p)) p).

(** The playback streams that are active: elements not paused. *)
Definition activeStreams (p : Plugin) : nat :=
  List.length (filter negb (audios p)).

(** ** Silence timer *)

Definition clearSilenceTimer (p : Plugin) : Plugin :=
  match silenceTimer p with
  | Some t => set_silenceTimer None (clearTimeout t p)
  | None => p
  end.

Definition startSilenceDetection (p : Plugin) : Plugin :=
  let p := clearSilenceTimer p in
  let (t, p) := setTimeout SilenceExpired p in
  set_silenceTimer (Some t) p.

(** ** Background voice detection (the interruption monitor) *)

Definition stopBackgroundVoiceDetection (p : Plugin) : Plugin :=
  if negb (backgroundVoiceDetection p) then p
  else
    let p := set_backgroundVoiceDetection false p in
    match voiceDetectionTimer p with
    | Some t => set_voiceDetectionTimer None (clearTimeout t p)
    | None => p
    end.

(** [startBackgroundVoiceDetection] up to [await getUserMedia]. *)
Definition startBackgroundVoiceDetection (p : Plugin) : Plugin * Next :=
  if backgroundVoiceDetection p
     || negb (enableVoiceInterruption (settings p))
  then (p, Returned)
  else (emit (GetUserMedia ForMonitor) (set_backgroundVoiceDetection true p),
        Awaiting).

(** ** Pre-recording buffer *)

(** [startPreRecordingBuffer] up to [await getUserMedia]. *)
Definition startPreRecordingBuffer (p : Plugin) : Plugin * Next :=
  if isPreRecording p then (p, Returned)
  else (emit (GetUserMedia ForPreRecording)
             (set_preRecordingBuffer [] (set_isPreRecording true p)),
        Awaiting).

(** Its [catch] branch, when the microphone is refused. *)
Definition startPreRecordingBuffer_denied (p : Plugin) : Plugin :=
  set_isPreRecording false p.

(** [preRecordingRecorder.onstop] with a non-empty chunk. *)
Definition addToPreRecordingBuffer (audioBlob : Blob) (p : Plugin)
  : Plugin :=
  set_preRecordingBuffer
    (PreRecording.addToPreRecordingBuffer audioBlob (preRecordingBuffer p))
    p.

Definition stopPreRecordingBuffer (p : Plugin) : Plugin :=
  if negb (isPreRecording p) then p else set_isPreRecording false p.

Definition getPreRecordingBufferAudio (p : Plugin) : option Blob :=
  PreRecording.getPreRecordingBufferAudio (preRecordingBuffer p).

(** ** Recording *)

(** [startRecording] up to its promise: playback is paused when a
    continuous dialog is on, then the microphone is requested. *)
Definition startRecording (p : Plugin) : Plugin :=
  let p :=
    match currentAudio p with
    | Some a =>
        if isInContinuousDialog p && negb (paused a p)
        then set_isPlaying false (audioPause a p)
        else p
    | None => p
    end in
  emit (GetUserMedia ForRecording) p.

(** ** Interruption *)

(** [processSingleConversationWithBuffer] up to [await startRecording()];
    the snapshot [bufferedAudio] stays in the closure. *)
Definition processSingleConversationWithBuffer_begin (p : Plugin)
  : option Blob * Plugin :=
  let bufferedAudio := getPreRecordingBufferAudio p in
  (bufferedAudio, startRecording p).

(** The first statement of [handleVoiceInterruption]: stop the stream
    held in [currentAudio]. *)
Definition stopCurrentPlayback (p : Plugin) : Plugin :=
  match currentAudio p with
  | Some a =>
      if negb (paused a p)
      then set_isPlaying false (set_currentAudio None (audioPause a p))
      else p
  | None => p
  end.

Definition handleVoiceInterruption (p : Plugin) : Plugin :=
  let p := stopCurrentPlayback p in
  let p := stopBackgroundVoiceDetection p in
  let p := clearSilenceTimer p in
  let p := emit (StatusFloat "检测到语音输入，正在处理...") p in
  if isInContinuousDialog p
  then snd (processSingleConversationWithBuffer_begin p)
  else p.

(** [const requiredDetections = 3] *)
Definition requiredDetections : nat := 3.

(** One run of [checkVolume]; [average] is the analyser reading. *)
Definition checkVolume (consecutiveDetections : nat) (average : Q)
           (p : Plugin) : Plugin :=
  if negb (backgroundVoiceDetection p) then p
  else
    let again (count : nat) (p : Plugin) :=
      let (t, p) := setTimeout (CheckVolume count) p in
      set_voiceDetectionTimer (Some t) p in
    if Qltb (voiceDetectionThreshold (settings p)) average then
      let consecutiveDetections := S consecutiveDetections in
      if (requiredDetections <=? consecutiveDetections)%nat
      then handleVoiceInterruption p
      else again consecutiveDetections p
    else again 0%nat p.

(** [startBackgroundVoiceDetection] after [getUserMedia]: the first
    [checkVolume()], or the [catch] branch. *)
Definition startBackgroundVoiceDetection_granted (average : Q) (p : Plugin)
  : Plugin :=
  checkVolume 0 average p.

Definition startBackgroundVoiceDetection_denied (p : Plugin) : Plugin :=
  set_backgroundVoiceDetection false p.

(** ** Playback *)

(** [playAudioFromBase64] up to its promise.  [decoded] is what cleaning
    and [atob] give for [base64Audio]. *)
Definition playAudioFromBase64 (base64Audio : string)
           (decoded : outcome Blob) (p : Plugin) : Plugin * Next :=
  match decoded with
  | Rejected error => (p, Thrown error)
  | Resolved _ =>
      let (audio, p) := newAudio p in
      let p := set_currentAudio (Some audio) p in
      let p := set_isPlaying true p in
      let p := audioPlay audio p in
      let p :=
        if saveAudioToVault (settings p) then
          if isWakeConversation p && wakeSessionAudioSaved p then p
          else
            let p := emit (SaveAudioToVault base64Audio) p in
            if isWakeConversation p
            then set_wakeSessionAudioSaved true p
            else p
        else p in
      (p, Awaiting)
  end.

(** [audio.onended] and [audio.onerror]; the element stops playing. *)
Definition onended (audio : AudioId) (p : Plugin) : Plugin :=
  let p := set_audios (replaceNth audio true (audios p)) p in
  set_isPlaying false (set_currentAudio None p).

Definition onerror (audio : AudioId) (p : Plugin) : Plugin :=
  let p := set_audios (replaceNth audio true (audios p)) p in
  set_isPlaying false (set_currentAudio None p).

Definition toggleTTSPlayback (p : Plugin) : Plugin :=
  match currentAudio p with
  | None => emit (StatusFloat "没有正在播放的音频") p
  | Some a =>
      if isPlaying p
      then emit (StatusFloat "音频已暂停")
                (set_isPlaying false (audioPause a p))
      else emit (StatusFloat "音频继续播放")
                (set_isPlaying true (audioPlay a p))
  end.

Definition stopTTS (p : Plugin) : Plugin :=
  let p :=
    match currentAudio p with
    | Some a => set_currentAudio None (audioPause a p)
    | None => p
    end in
  emit (StatusFloat "音频播放已停止") (set_isPlaying false p).

(** What the synthesis service does with a request. *)
Inductive Synthesis :=
| SynthesisFailed (error : string)
| SynthesisWithoutAudio
| SynthesisAudio (base64Audio : string) (decoded : outcome Blob).

(** [textToSpeech] up to the answer of the service. *)
Definition textToSpeech (text : string) (p : Plugin) : Plugin * Next :=
  match ttsMode (settings p) with
  | tts_online => (emit (TextToSpeech text) p, Awaiting)
  | tts_disabled => (p, Returned)
  end.

(** [xunfeiOnlineTTS] when the service has answered. *)
Definition textToSpeech_answered (answer : Synthesis) (p : Plugin)
  : Plugin * Next :=
  match answer with
  | SynthesisFailed error => (p, Thrown error)
  | SynthesisWithoutAudio => (p, Returned)
  | SynthesisAudio base64Audio decoded =>
      playAudioFromBase64 base64Audio decoded p
  end.

(** [textToSpeech] from the answer of the service until its promise
    settles.  Playback ends, fails, or is cut short (paused and dropped:
    neither [onended] nor [onerror] comes and the promise stays pending,
    [None]). *)
Inductive PlaybackEnd := PlayedToEnd | PlaybackFailed | PlaybackCut.

Definition speak (answer : Synthesis) (ending : PlaybackEnd) (p : Plugin)
  : Plugin * option (outcome unit) :=
  match textToSpeech_answered answer p with
  | (p, Thrown error) => (p, Some (Rejected error))
  | (p, Returned) => (p, Some (Resolved tt))
  | (p, Awaiting) =>
      match currentAudio p, ending with
      | Some audio, PlayedToEnd => (onended audio p, Some (Resolved tt))
      | Some audio, PlaybackFailed =>
          (onerror audio p, Some (Rejected "音频播放失败"))
      | _, _ => (p, None)
      end
  end.

(** ** A dialog turn ([startVoiceConversation],
       [processSingleConversation]) *)

(** What [xunfeiOnlineASR] resolves with when nothing was recognised. *)
Definition notRecognized : string := "未识别到语音内容".

Definition insertToNote (userText aiResponse : string) (p : Plugin)
  : Plugin :=
  if isWakeConversation p then p
  else emit (InsertToNote userText aiResponse) p.

Definition recordTurn (userText aiResponse : string) (now : Z)
           (p : Plugin) : Plugin :=
  set_conversationHistory
    (conversationHistory p
     ++ [ {| user := userText; assistant := aiResponse;
             timestamp := now |} ])%list
    p.

Definition startContinuousDialog (p : Plugin) : Plugin :=
  let p := set_isInContinuousDialog true p in
  let p := set_conversationHistory [] p in
  let p := fst (startPreRecordingBuffer p) in
  emit (Notice "持续对话模式已启动，开始说话或20秒无语音将自动结束") p.

(** Up to [await this.startRecording()]. *)
Definition processSingleConversation_begin (p : Plugin) : Plugin :=
  let p := clearSilenceTimer p in
  let p := emit (Notice "开始录音，请说话...") p in
  startRecording p.

(** Up to [await this.speechToText(audioBlob)]. *)
Definition processSingleConversation_recorded (audioBlob : outcome Blob)
           (p : Plugin) : Plugin * Next :=
  match audioBlob with
  | Rejected error => (p, Thrown error)
  | Resolved audioBlob => (emit (SpeechToText audioBlob) p, Awaiting)
  end.

(** Up to [await this.callLLM(enhancedText)]. *)
Definition processSingleConversation_recognized (text : outcome string)
           (p : Plugin) : Plugin * Next :=
  match text with
  | Rejected error => (p, Thrown error)
  | Resolved text =>
      if negb (truthy text) || (text =? notRecognized) then
        let p := emit (Notice "语音识别失败，请重试") p in
        let p :=
          if isInContinuousDialog p then startSilenceDetection p else p in
        (p, Returned)
      else
        let p := emit (Notice ("识别到：" ++ text)) p in
        let enhancedText :=
          Prompts.processCustomPrompts toLowerCase (settings p) text in
        (emit (CallLLM enhancedText) p, Awaiting)
  end.

(** The last statement of [processSingleConversation]. *)
Definition waitForNextTurn (p : Plugin) : Plugin :=
  if isInContinuousDialog p
  then emit (Notice "继续说话或等待20秒自动结束对话...")
            (startSilenceDetection p)
  else p.

(** Up to [await this.textToSpeech(response)], or to the end when
    synthesis is disabled. *)
Definition processSingleConversation_responded (text : string)
           (response : outcome string) (now : Z) (p : Plugin)
  : Plugin * Next :=
  match response with
  | Rejected error => (p, Thrown error)
  | Resolved response =>
      if negb (truthy response) then
        let p := emit (Notice "AI 回复失败，请检查配置") p in
        let p :=
          if isInContinuousDialog p then startSilenceDetection p else p in
        (p, Returned)
      else
        let p :=
          if isInContinuousDialog p then recordTurn text response now p
          else insertToNote text response p in
        match ttsMode (settings p) with
        | tts_disabled => (waitForNextTurn p, Returned)
        | tts_online =>
            let p :=
              if isInContinuousDialog p then
                let p := fst (startBackgroundVoiceDetection p) in
                fst (startPreRecordingBuffer p)
              else p in
            textToSpeech response p
        end
  end.

(** After [await this.textToSpeech(response)]. *)
Definition processSingleConversation_spoken (speech : outcome unit)
           (p : Plugin) : Plugin * Next :=
  match speech with
  | Rejected error => (p, Thrown error)
  | Resolved _ =>
      let p :=
        if isInContinuousDialog p then stopBackgroundVoiceDetection p
        else p in
      (waitForNextTurn p, Returned)
  end.

(** [startVoiceConversation] up to the first [await], and its [catch]. *)
Definition startVoiceConversation_begin (p : Plugin) : Plugin :=
  let p :=
    if negb (isInContinuousDialog p) then startContinuousDialog p else p in
  processSingleConversation_begin p.

Definition startVoiceConversation_catch (error : string) (p : Plugin)
  : Plugin :=
  emit (Notice ("语音对话出错: " ++ error)) p.

Definition settle (r : Plugin * Next) : Plugin :=
  match r with
  | (p, Thrown error) => startVoiceConversation_catch error p
  | (p, _) => p
  end.

(** The answers a turn gets from its collaborators. *)
Record TurnAnswers := {
  recording : outcome Blob;
  recognition : outcome string;
  reply : outcome string;
  synthesis : Synthesis;
  ending : PlaybackEnd;
  now : Z
}.

(** [processSingleConversation] from the end of the recording on, run
    without another callback in between. *)
Definition processSingleConversation_rest (a : TurnAnswers) (p : Plugin)
  : Plugin * Next :=
  match processSingleConversation_recorded (recording a) p with
  | (p, Awaiting) =>
      match recognition a with
      | Rejected error => (p, Thrown error)
      | Resolved text =>
          match processSingleConversation_recognized (Resolved text) p with
          | (p, Awaiting) =>
              match processSingleConversation_responded
                      text (reply a) (now a) p with
              | (p, Awaiting) =>
                  match speak (synthesis a) (ending a) p with
                  | (p, Some speech) =>
                      processSingleConversation_spoken speech p
                  | (p, None) => (p, Awaiting)
                  end
              | done => done
              end
          | done => done
          end
      end
  | done => done
  end.

(** A whole turn started by the command. *)
Definition startVoiceConversation (a : TurnAnswers) (p : Plugin) : Plugin :=
  settle (processSingleConversation_rest a (startVoiceConversation_begin p)).

(** ** An interruption-triggered turn
       ([processSingleConversationWithBuffer]) *)

(** The [catch] block. *)
Definition processSingleConversationWithBuffer_catch (p : Plugin)
  : Plugin :=
  let p := emit (StatusFloat "处理对话时出错，请重试") p in
  if isInContinuousDialog p then startSilenceDetection p else p.

(** Up to [await this.speechToText(finalAudioBlob)]. *)
Definition processSingleConversationWithBuffer_recorded
           (bufferedAudio : option Blob) (newAudioBlob : outcome Blob)
           (p : Plugin) : Plugin * Next :=
  match newAudioBlob with
  | Rejected _ => (processSingleConversationWithBuffer_catch p, Returned)
  | Resolved newAudioBlob =>
      let finalAudioBlob :=
        match bufferedAudio with
        | Some buffered =>
            if (0 <? size buffered)%nat
            then newBlob [buffered; newAudioBlob]
            else newAudioBlob
        | None => newAudioBlob
        end in
      let p := emit (StatusFloat "正在识别语音...") p in
      (emit (SpeechToText finalAudioBlob) p, Awaiting)
  end.

(** Up to [await this.callLLM(processedText)]. *)
Definition processSingleConversationWithBuffer_recognized
           (userText : outcome string) (p : Plugin) : Plugin * Next :=
  match userText with
  | Rejected _ => (processSingleConversationWithBuffer_catch p, Returned)
  | Resolved userText =>
      if negb (truthy userText) || (trim userText =? "")
         || (userText =? notRecognized)
      then
        let p := emit (StatusFloat "未识别到有效语音，请重试") p in
        (startSilenceDetection p, Returned)
      else
        let processedText :=
          Prompts.processCustomPrompts toLowerCase (settings p) userText in
        let p := emit (StatusFloat "正在思考回复...") p in
        (emit (CallLLM processedText) p, Awaiting)
  end.

(** Up to [await this.textToSpeech(aiResponse)], or to the end when
    synthesis is disabled. *)
Definition processSingleConversationWithBuffer_responded
           (userText : string) (aiResponse : outcome string) (now : Z)
           (p : Plugin) : Plugin * Next :=
  match aiResponse with
  | Rejected _ => (processSingleConversationWithBuffer_catch p, Returned)
  | Resolved aiResponse =>
      let p := recordTurn userText aiResponse now p in
      let p := insertToNote userText aiResponse p in
      match ttsMode (settings p) with
      | tts_online =>
          let p := emit (StatusFloat "正在播放回复...") p in
          textToSpeech aiResponse p
      | tts_disabled =>
          let p := emit (StatusFloat "回复已生成") p in
          let p :=
            if isInContinuousDialog p then startSilenceDetection p else p in
          (p, Returned)
      end
  end.

(** After [await this.textToSpeech(aiResponse)]. *)
Definition processSingleConversationWithBuffer_spoken
           (speech : outcome unit) (p : Plugin) : Plugin * Next :=
  match speech with
  | Rejected _ => (processSingleConversationWithBuffer_catch p, Returned)
  | Resolved _ =>
      let p :=
        if isInContinuousDialog p then
          let p := fst (startPreRecordingBuffer p) in
          fst (startBackgroundVoiceDetection p)
        else p in
      (p, Returned)
  end.

(** [processSingleConversationWithBuffer] from the end of the recording
    on, run without another callback in between. *)
Definition processSingleConversationWithBuffer_rest
           (bufferedAudio : option Blob) (a : TurnAnswers) (p : Plugin)
  : Plugin :=
  match processSingleConversationWithBuffer_recorded
          bufferedAudio (recording a) p with
  | (p, Awaiting) =>
      match recognition a with
      | Rejected error =>
          fst (processSingleConversationWithBuffer_recognized
                 (Rejected error) p)
      | Resolved userText =>
          match processSingleConversationWithBuffer_recognized
                  (Resolved userText) p with
          | (p, Awaiting) =>
              match processSingleConversationWithBuffer_responded
                      userText (reply a) (now a) p with
              | (p, Awaiting) =>
                  match speak (synthesis a) (ending a) p with
                  | (p, Some speech) =>
                      fst (processSingleConversationWithBuffer_spoken
                             speech p)
                  | (p, None) => p
                  end
              | (p, _) => p
              end
          | (p, _) => p
          end
      end
  | (p, _) => p
  end.

(** A whole interruption-triggered turn. *)
Definition processSingleConversationWithBuffer (a : TurnAnswers)
           (p : Plugin) : Plugin :=
  let (bufferedAudio, p) := processSingleConversationWithBuffer_begin p in
  processSingleConversationWithBuffer_rest bufferedAudio a p.

(** ** Wake word ([onWakeWordDetected]) *)

(** The host's [Date]: a time value is [Z] (milliseconds); its local
    rendering belongs to the host. *)
Record Clock := {
  toLocaleTimeString : Z -> string;
  toLocaleString : Z -> string;
  getFullYear : Z -> nat;
  getMonth : Z -> nat;
  getDate : Z -> nat;
  getHours : Z -> nat;
  getMinutes : Z -> nat;
  getSeconds : Z -> nat
}.

(** [String(n)] and [String(n).padStart(2, '0')]. *)
Definition decimal (n : nat) : string :=
  NilZero.string_of_uint (Nat.to_uint n).

Definition pad2 (n : nat) : string :=
  let digits := decimal n in
  if (String.length digits <? 2)%nat then "0" ++ digits else digits.

(** The file name [YYYY-MM-DD HH-mm-ss.md]. *)
Definition sessionFileName (clock : Clock) (now : Z) : string :=
  decimal (getFullYear clock now) ++ "-" ++ pad2 (getMonth clock now + 1)
  ++ "-" ++ pad2 (getDate clock now) ++ " " ++ pad2 (getHours clock now)
  ++ "-" ++ pad2 (getMinutes clock now) ++ "-"
  ++ pad2 (getSeconds clock now) ++ ".md".

Definition startNewWakeSession (clock : Clock) (now : Z) (p : Plugin)
  : Plugin :=
  let p :=
    set_wakeSessionId (Some (NilZero.string_of_int (Z.to_int now))) p in
  let p := set_wakeSessionFileName (Some (sessionFileName clock now)) p in
  let p := set_isWakeConversation true p in
  let p := set_wakeSessionAudioSaved false p in
  set_conversationHistory [] p.

Definition endWakeSession (p : Plugin) : Plugin :=
  let p := set_isWakeConversation false p in
  let p := set_wakeSessionId None p in
  let p := set_wakeSessionFileName None p in
  set_conversationHistory [] p.

(** The last block of [onWakeWordDetected]. *)
Definition enterDialogAfterWake (clock : Clock) (now : Z) (p : Plugin)
  : Plugin :=
  if autoEnterDialogAfterWake (settings p) then
    let p := startNewWakeSession clock now p in
    startVoiceConversation_begin p
  else p.

(** [onWakeWordDetected] up to [await this.textToSpeech('hi，你好')].
    The second component is the local [originalSaveAudio]; it exists only
    when the acknowledgement is spoken. *)
Definition onWakeWordDetected_begin (p : Plugin) : Plugin * option bool :=
  let p := emit (Notice "语音助手已唤醒") p in
  match ttsMode (settings p) with
  | tts_disabled => (p, None)
  | tts_online =>
      let originalSaveAudio := saveAudioToVault (settings p) in
      let p := set_settings (set_saveAudioToVault false (settings p)) p in
      (fst (textToSpeech "hi，你好" p), Some originalSaveAudio)
  end.

(** After the [await]: the statement that follows it in the [try] block,
    or the [catch] block, whose assignment is
    [this.settings.saveAudioToVault = this.settings.saveAudioToVault]. *)
Definition onWakeWordDetected_acknowledged (originalSaveAudio : bool)
           (speech : outcome unit) (p : Plugin) : Plugin :=
  match speech with
  | Resolved _ =>
      set_settings (set_saveAudioToVault originalSaveAudio (settings p)) p
  | Rejected _ =>
      set_settings
        (set_saveAudioToVault (saveAudioToVault (settings p)) (settings p))
        p
  end.

(** The acknowledgement from the detection to the end of the [try] /
    [catch] statement; [None] when the playback promise never settles. *)
Definition acknowledgeWake (answer : Synthesis) (ending : PlaybackEnd)
           (p : Plugin) : option Plugin :=
  match onWakeWordDetected_begin p with
  | (p, None) => Some p
  | (p, Some originalSaveAudio) =>
      match speak answer ending p with
      | (p, Some speech) =>
          Some (onWakeWordDetected_acknowledged originalSaveAudio speech p)
      | (_, None) => None
      end
  end.

(** ** Summary and end of a session *)

Definition summaryRequest (clock : Clock) (history : list Turn) : string :=
  fold_left
    (fun conversationText item =>
       let timeStr := toLocaleTimeString clock (timestamp item) in
       conversationText
       ++ "[" ++ timeStr ++ "] 用户：" ++ user item ++ nl
       ++ "[" ++ timeStr ++ "] 助手：" ++ assistant item ++ nl ++ nl)
    history
    ("请对以下对话进行总结，提取关键信息和要点：" ++ nl ++ nl)
  ++ nl ++ "请生成一个简洁的总结，包括：" ++ nl ++ "1. 主要讨论的话题" ++ nl
  ++ "2. 关键信息和要点" ++ nl ++ "3. 如果有任务或行动项，请列出".

(** The transcript block that both the summary note and the fallback
    note end with. *)
Definition transcript (clock : Clock) (history : list Turn) (start : string)
  : string :=
  fold_left
    (fun content item =>
       let timeStr := toLocaleTimeString clock (timestamp item) in
       content ++ "**[" ++ timeStr ++ "] 用户：** " ++ user item ++ nl ++ nl
       ++ "**[" ++ timeStr ++ "] 助手：** " ++ assistant item ++ nl ++ nl
       ++ "---" ++ nl ++ nl)
    history start.

Definition summaryNote (clock : Clock) (now : Z) (history : list Turn)
           (summary : string) : string :=
  let noteContent :=
    "## 语音对话总结" ++ nl ++ nl ++ "**时间：** " ++ toLocaleString clock now
    ++ nl ++ "**对话轮数：** " ++ decimal (List.length history) ++ nl ++ nl
    ++ "### 总结" ++ nl ++ summary ++ nl ++ nl ++ "### 详细对话记录" ++ nl
    ++ nl in
  noteContent ++ transcript clock history "".

Definition fallbackNote (clock : Clock) (now : Z) (history : list Turn)
  : string :=
  transcript clock history
    ("## 语音对话记录" ++ nl ++ nl ++ "**时间：** " ++ toLocaleString clock now
     ++ nl ++ "**对话轮数：** " ++ decimal (List.length history) ++ nl
     ++ nl).

(** [null] and strings inside a template literal. *)
Definition orNull (s : option string) : string :=
  match s with
  | Some s => s
  | None => "null"
  end.

Definition wakeSummaryNote (clock : Clock) (now : Z) (p : Plugin)
           (summary : string) : string :=
  let noteContent :=
    "## 语音对话总结（唤醒会话）" ++ nl ++ nl ++ "**时间：** "
    ++ toLocaleString clock now ++ nl ++ "**会话ID：** "
    ++ orNull (wakeSessionId p) ++ nl ++ "**对话轮数：** "
    ++ decimal (List.length (conversationHistory p)) ++ nl ++ nl
    ++ "### 总结" ++ nl ++ summary ++ nl ++ nl ++ "### 详细对话记录" ++ nl
    ++ nl in
  noteContent ++ transcript clock (conversationHistory p) "".

Definition wakeFallbackNote (clock : Clock) (now : Z) (p : Plugin)
  : string :=
  transcript clock (conversationHistory p)
    ("## 语音对话记录（唤醒会话）" ++ nl ++ nl ++ "**时间：** "
     ++ toLocaleString clock now ++ nl ++ "**会话ID：** "
     ++ orNull (wakeSessionId p) ++ nl ++ "**对话轮数：** "
     ++ decimal (List.length (conversationHistory p)) ++ nl ++ nl).

(** Which of the two summary methods is running. *)
Inductive SummaryKind := PlainSummary | WakeSummary.

(** [generateConversationSummary] / [generateWakeConversationSummary] up
    to [await this.callLLM(conversationText)]. *)
Definition generateSummary_begin (kind : SummaryKind) (clock : Clock)
           (p : Plugin) : Plugin * Next :=
  match conversationHistory p with
  | [] => (p, Returned)
  | history =>
      match kind, wakeSessionFileName p with
      | WakeSummary, None => (p, Returned)
      | _, _ => (emit (CallLLM (summaryRequest clock history)) p, Awaiting)
      end
  end.

(** The file a summary method writes to; the wake method reads
    [this.wakeSessionFileName] after the [await] ([null] prints as
    ["null"]). *)
Definition summaryFileName (kind : SummaryKind) (clock : Clock) (now : Z)
           (p : Plugin) : string :=
  match kind with
  | PlainSummary => sessionFileName clock now
  | WakeSummary => orNull (wakeSessionFileName p)
  end.

Definition summaryContent (kind : SummaryKind) (clock : Clock) (now : Z)
           (summary : string) (p : Plugin) : string :=
  match kind, truthy summary with
  | PlainSummary, true =>
      summaryNote clock now (conversationHistory p) summary
  | PlainSummary, false => fallbackNote clock now (conversationHistory p)
  | WakeSummary, true => wakeSummaryNote clock now p summary
  | WakeSummary, false => wakeFallbackNote clock now p
  end.

(** Up to [await this.saveConversationToFile(...)], or through the
    [catch] block when the call of the model threw. *)
Definition generateSummary_answered (kind : SummaryKind) (clock : Clock)
           (summary : outcome string) (now : Z) (p : Plugin)
  : Plugin * Next :=
  match summary with
  | Rejected _ =>
      (emit (Notice "生成对话总结失败，请检查网络连接") p, Returned)
  | Resolved summary =>
      (emit (SaveConversationToFile
               (summaryFileName kind clock now p)
               (summaryContent kind clock now summary p)) p,
       Awaiting)
  end.

Definition savedNotice (kind : SummaryKind) (fileName : string)
           (summarised : bool) (p : Plugin) : string :=
  (match kind with PlainSummary => "" | WakeSummary => "唤醒" end)
  ++ (if summarised
      then "对话总结已保存到文件：" ++ fileName ++ "（共"
           ++ decimal (List.length (conversationHistory p)) ++ "轮对话）"
      else "对话记录已保存到文件：" ++ fileName
           ++ "（总结生成失败，保存原始记录）").

(** After the file was written, or through the [catch] block when
    [saveConversationToFile] threw. *)
Definition generateSummary_saved (kind : SummaryKind) (fileName : string)
           (summarised : bool) (saved : outcome unit) (p : Plugin)
  : Plugin :=
  match saved with
  | Rejected _ => emit (Notice "生成对话总结失败，请检查网络连接") p
  | Resolved _ => emit (Notice (savedNotice kind fileName summarised p)) p
  end.

(** A summary method run without another callback in between. *)
Definition generateSummary (kind : SummaryKind) (clock : Clock)
           (summary : outcome string) (saved : outcome unit) (now : Z)
           (p : Plugin) : Plugin :=
  match generateSummary_begin kind clock p with
  | (p, Awaiting) =>
      match summary with
      | Rejected error =>
          fst (generateSummary_answered kind clock (Rejected error) now p)
      | Resolved text =>
          let fileName := summaryFileName kind clock now p in
          generateSummary_saved kind fileName (truthy text) saved
            (fst (generateSummary_answered
                    kind clock (Resolved text) now p))
      end
  | (p, _) => p
  end.

(** The last five statements of [endContinuousDialogWithSummary]. *)
Definition leaveDialog (p : Plugin) : Plugin :=
  let p := set_isInContinuousDialog false p in
  let p := clearSilenceTimer p in
  let p := stopBackgroundVoiceDetection p in
  stopPreRecordingBuffer p.

(** [endContinuousDialogWithSummary] up to the [await] of a summary
    method; the Boolean tells whether the wake branch was taken. *)
Definition endContinuousDialogWithSummary_begin (clock : Clock)
           (p : Plugin) : Plugin * option SummaryKind :=
  if negb (isInContinuousDialog p) then (p, None)
  else
    match conversationHistory p with
    | [] => (leaveDialog (emit (Notice "没有对话内容需要总结") p), None)
    | _ =>
        let p := emit (Notice "正在生成对话总结...") p in
        let kind :=
          match isWakeConversation p, wakeSessionFileName p with
          | true, Some _ => WakeSummary
          | _, _ => PlainSummary
          end in
        (p, Some kind)
    end.

(** After the [await] of the summary method. *)
Definition endContinuousDialogWithSummary_finish (kind : SummaryKind)
           (p : Plugin) : Plugin :=
  let p :=
    match kind with
    | WakeSummary => endWakeSession p
    | PlainSummary => set_conversationHistory [] p
    end in
  leaveDialog p.

(** The whole method (end button, or the silence timer). *)
Definition endContinuousDialogWithSummary (clock : Clock)
           (summary : outcome string) (saved : outcome unit) (now : Z)
           (p : Plugin) : Plugin :=
  match endContinuousDialogWithSummary_begin clock p with
  | (p, None) => p
  | (p, Some kind) =>
      endContinuousDialogWithSummary_finish kind
        (generateSummary kind clock summary saved now p)
  end.

(** [endContinuousDialog] (the end-dialog command).  The wake summary is
    started and not awaited: only its first stretch runs here. *)
Definition endContinuousDialog (clock : Clock) (p : Plugin) : Plugin :=
  if negb (isInContinuousDialog p) then p
  else
    let p := set_isInContinuousDialog false p in
    let p := clearSilenceTimer p in
    let p := stopBackgroundVoiceDetection p in
    let p := stopPreRecordingBuffer p in
    let p :=
      match isWakeConversation p, wakeSessionFileName p with
      | true, Some _ =>
          endWakeSession (fst (generateSummary_begin WakeSummary clock p))
      | _, _ => p
      end in
    emit (Notice "持续对话模式已结束") p.

(** ** The event loop

    One event is one callback that the host runs to completion: a command
    or a button, the settling of an awaited promise (which resumes the
    method that awaits it, with the values its closure holds), a media
    event, a timer.  The host may run them in any order. *)

Inductive Event :=
| StartConversationCommand
| EndDialogCommand
| EndDialogButton
| TogglePlaybackButton
| StopPlaybackButton
| SettingsEdited (edited : VoiceAssistantSettings)
| TurnRecorded (audioBlob : outcome Blob)
| TurnRecognized (text : outcome string)
| TurnResponded (text : string) (response : outcome string) (now : Z)
| TurnSpoken (speech : outcome unit)
| BufferedTurnRecorded (bufferedAudio : option Blob)
                       (newAudioBlob : outcome Blob)
| BufferedTurnRecognized (userText : outcome string)
| BufferedTurnResponded (userText : string) (aiResponse : outcome string)
                        (now : Z)
| BufferedTurnSpoken (speech : outcome unit)
| SynthesisAnswered (answer : Synthesis)
| AudioEnded (audio : AudioId)
| AudioFailed (audio : AudioId)
| MonitorGranted (average : Q)
| MonitorDenied
| PreRecordingDenied
| PreRecordingSegment (audioBlob : Blob)
| TimerFired (id : TimerId) (average : Q)
| SummaryAnswered (kind : SummaryKind) (summary : outcome string) (now : Z)
| SummarySaved (kind : SummaryKind) (fileName : string) (summarised : bool)
               (saved : outcome unit)
| DialogSummaryDone (kind : SummaryKind)
| WakeWordDetected (now : Z)
| WakeAcknowledged (originalSaveAudio : bool) (speech : outcome unit)
                   (now : Z).

Section Loop.

Variable clock : Clock.

(** A call of [endContinuousDialogWithSummary], up to its first [await]
    (which is the first [await] of the summary method). *)
Definition endDialogWithSummary_call (p : Plugin) : Plugin :=
  match endContinuousDialogWithSummary_begin clock p with
  | (p, None) => p
  | (p, Some kind) =>
      match generateSummary_begin kind clock p with
      | (p, Awaiting) => p
      | (p, _) => endContinuousDialogWithSummary_finish kind p
      end
  end.

Definition runCallback (cb : Callback) (average : Q) (p : Plugin)
  : Plugin :=
  match cb with
  | SilenceExpired => endDialogWithSummary_call p
  | CheckVolume consecutiveDetections =>
      checkVolume consecutiveDetections average p
  end.

Definition step (e : Event) (p : Plugin) : Plugin :=
  match e with
  | StartConversationCommand => startVoiceConversation_begin p
  | EndDialogCommand => endContinuousDialog clock p
  | EndDialogButton => endDialogWithSummary_call p
  | TogglePlaybackButton => toggleTTSPlayback p
  | StopPlaybackButton => stopTTS p
  | SettingsEdited edited => set_settings edited p
  | TurnRecorded audioBlob =>
      settle (processSingleConversation_recorded audioBlob p)
  | TurnRecognized text =>
      settle (processSingleConversation_recognized text p)
  | TurnResponded text response now =>
      settle (processSingleConversation_responded text response now p)
  | TurnSpoken speech =>
      settle (processSingleConversation_spoken speech p)
  | BufferedTurnRecorded bufferedAudio newAudioBlob =>
      fst (processSingleConversationWithBuffer_recorded
             bufferedAudio newAudioBlob p)
  | BufferedTurnRecognized userText =>
      fst (processSingleConversationWithBuffer_recognized userText p)
  | BufferedTurnResponded userText aiResponse now =>
      fst (processSingleConversationWithBuffer_responded
             userText aiResponse now p)
  | BufferedTurnSpoken speech =>
      fst (processSingleConversationWithBuffer_spoken speech p)
  | SynthesisAnswered answer => fst (textToSpeech_answered answer p)
  | AudioEnded audio => if paused audio p then p else onended audio p
  | AudioFailed audio => if paused audio p then p else onerror audio p
  | MonitorGranted average =>
      startBackgroundVoiceDetection_granted average p
  | MonitorDenied => startBackgroundVoiceDetection_denied p
  | PreRecordingDenied => startPreRecordingBuffer_denied p
  | PreRecordingSegment audioBlob => addToPreRecordingBuffer audioBlob p
  | TimerFired id average =>
      match pendingCallback id p with
      | Some cb => runCallback cb average (clearTimeout id p)
      | None => p
      end
  | SummaryAnswered kind summary now =>
      fst (generateSummary_answered kind clock summary now p)
  | SummarySaved kind fileName summarised saved =>
      generateSummary_saved kind fileName summarised saved p
  | DialogSummaryDone kind => endContinuousDialogWithSummary_finish kind p
  | WakeWordDetected now =>
      match onWakeWordDetected_begin p with
      | (p, None) => enterDialogAfterWake clock now p
      | (p, Some _) => p
      end
  | WakeAcknowledged originalSaveAudio speech now =>
      enterDialogAfterWake clock now
        (onWakeWordDetected_acknowledged originalSaveAudio speech p)
  end.

Definition run (events : list Event) (p : Plugin) : Plugin :=
  fold_left (fun p e => step e p) events p.

(** The states the plugin can be in when the host only runs callbacks
    that [allowed] admits in the state they come in. *)
Inductive reachable (allowed : Plugin -> Event -> Prop)
          (loaded : VoiceAssistantSettings) : Plugin -> Prop :=
| reachable_initial : reachable allowed loaded (initial loaded)
| reachable_step (p : Plugin) (e : Event) :
    reachable allowed loaded p -> allowed p e ->
    reachable allowed loaded (step e p).

End Loop.

Definition anyEvent (p : Plugin) (e : Event) : Prop := True.

Definition pollPending (p : Plugin) : bool :=
  existsb (fun t => match snd t with
                    | CheckVolume _ => true
                    | SilenceExpired => false
                    end) (timers p).

(** Monitor starts do not overlap: the microphone answers a start of the
    monitor while no poll loop is running. *)
Definition monitorStartsApart (p : Plugin) (e : Event) : Prop :=
  match e with
  | MonitorGranted _ | MonitorDenied => pollPending p = false
  | _ => True
  end.

(** Playback does not overlap: a synthesised reply starts playing while
    no other stream is active. *)
Definition playbackApart (p : Plugin) (e : Event) : Prop :=
  match e with
  | SynthesisAnswered (SynthesisAudio _ (Resolved _)) => activeStreams p = 0%nat
  | _ => True
  end.

End Engine.

(* ================================================================== *)
(** * Continuous dictation ([startContinuousDictationLoop],
      [processAccumulatedAudio]) *)
(* ================================================================== *)

Module Dictation.

Local Open Scope string_scope.

(** An editor position. *)
Record Position := {
  line : nat;
  ch : nat
}.

Inductive Effect :=
| StatusFloat (message : string)
| SpeechToText (audio : Blob)
| ReplaceRange (text : string) (position : Position)
| SetCursor (position : Position).

(** The dictation fields of the plugin, the locals of the loop, and the
    log of outgoing calls. *)
Record State := {
  isDictating : bool;
  dictationAudioChunks : list Blob;
  lastVoiceDetectedTime : Z;
  allRecognizedText : string;
  lastVoiceTime : Z;
  insertPosition : Position;
  effects : list Effect
}.

Definition set_isDictating (v : bool) (s : State) : State :=
  {| isDictating := v; dictationAudioChunks := dictationAudioChunks s;
     lastVoiceDetectedTime := lastVoiceDetectedTime s;
     allRecognizedText := allRecognizedText s;
     lastVoiceTime := lastVoiceTime s; insertPosition := insertPosition s;
     effects := effects s |}.

Definition set_dictationAudioChunks (v : list Blob) (s : State) : State :=
  {| isDictating := isDictating s; dictationAudioChunks := v;
     lastVoiceDetectedTime := lastVoiceDetectedTime s;
     allRecognizedText := allRecognizedText s;
     lastVoiceTime := lastVoiceTime s; insertPosition := insertPosition s;
     effects := effects s |}.

Definition set_lastVoiceDetectedTime (v : Z) (s : State) : State :=
  {| isDictating := isDictating s;
     dictationAudioChunks := dictationAudioChunks s;
     lastVoiceDetectedTime := v;
     allRecognizedText := allRecognizedText s;
     lastVoiceTime := lastVoiceTime s; insertPosition := insertPosition s;
     effects := effects s |}.

Definition set_allRecognizedText (v : string) (s : State) : State :=
  {| isDictating := isDictating s;
     dictationAudioChunks := dictationAudioChunks s;
     lastVoiceDetectedTime := lastVoiceDetectedTime s;
     allRecognizedText := v;
     lastVoiceTime := lastVoiceTime s; insertPosition := insertPosition s;
     effects := effects s |}.

Definition set_lastVoiceTime (v : Z) (s : State) : State :=
  {| isDictating := isDictating s;
     dictationAudioChunks := dictationAudioChunks s;
     lastVoiceDetectedTime := lastVoiceDetectedTime s;
     allRecognizedText := allRecognizedText s;
     lastVoiceTime := v; insertPosition := insertPosition s;
     effects := effects s |}.

Definition set_insertPosition (v : Position) (s : State) : State :=
  {| isDictating := isDictating s;
     dictationAudioChunks := dictationAudioChunks s;
     lastVoiceDetectedTime := lastVoiceDetectedTime s;
     allRecognizedText := allRecognizedText s;
     lastVoiceTime := lastVoiceTime s; insertPosition := v;
     effects := effects s |}.

Definition emit (e : Effect) (s : State) : State :=
  {| isDictating := isDictating s;
     dictationAudioChunks := dictationAudioChunks s;
     lastVoiceDetectedTime := lastVoiceDetectedTime s;
     allRecognizedText := allRecognizedText s;
     lastVoiceTime := lastVoiceTime s; insertPosition := insertPosition s;
     effects := (effects s ++ [e])%list |}.

(** [startContinuousDictation] and the initialisation of the loop. *)
Definition start (cursor : Position) (now : Z) : State :=
  {| isDictating := true; dictationAudioChunks := [];
     lastVoiceDetectedTime := now; allRecognizedText := "";
     lastVoiceTime := now; insertPosition := cursor;
     effects := [StatusFloat "听写中"] |}.

(** [stopDictation] *)
Definition stopDictation (s : State) : State :=
  emit (StatusFloat "听写结束") (set_isDictating false s).

(** [processAccumulatedAudio] up to [await this.speechToText(...)];
    [Returned] stands for the early [return ''] . *)
Definition processAccumulatedAudio_begin (s : State)
  : State * Engine.Next :=
  match dictationAudioChunks s with
  | [] => (s, Engine.Returned)
  | chunks =>
      let s := emit (StatusFloat "正在识别语音...") s in
      (emit (SpeechToText (newBlob chunks)) s, Engine.Awaiting)
  end.

(** After the [await]: the text the method returns. *)
Definition processAccumulatedAudio_recognized
           (insertPosition : Position) (recognizedText : outcome string)
           (s : State) : State * string :=
  match recognizedText with
  | Rejected _ => (s, "")
  | Resolved recognizedText =>
      if truthy recognizedText && truthy (trim recognizedText) then
        let textToInsert := recognizedText ++ " " in
        let s := emit (ReplaceRange textToInsert insertPosition) s in
        let s :=
          emit (SetCursor
                  {| line := line insertPosition;
                     ch := ch insertPosition + length16 textToInsert |})
               s in
        (emit (StatusFloat "听写中") s, recognizedText)
      else (s, "")
  end.

Definition processAccumulatedAudio (insertPosition : Position)
           (recognizedText : outcome string) (s : State)
  : State * string :=
  match processAccumulatedAudio_begin s with
  | (s, Engine.Awaiting) =>
      processAccumulatedAudio_recognized insertPosition recognizedText s
  | (s, _) => (s, "")
  end.

(** The audio sent to the recogniser so far, oldest first. *)
Definition recognitionRequests (s : State) : list Blob :=
  flat_map (fun e => match e with
                     | SpeechToText audio => [audio]
                     | _ => []
                     end) (effects s).

(** What one pass of the [while] loop gets from outside. *)
Record Capture := {
  captured : outcome Blob;
  decoded : outcome Vad.AudioBuffer;
  time : Z;
  recognized : outcome string;
  stopped : bool
}.

(** How a pass leaves the loop: it goes on, it is left ([break], or the
    [while] test fails), or it hangs on a detection that never settles. *)
Inductive Loop := GoesOn | Left | Hangs.

Section WithHost.

Variable sqrt : PrimFloat.float -> PrimFloat.float.
Variable pow : PrimFloat.float -> PrimFloat.float -> PrimFloat.float.
Variable settings : VoiceAssistantSettings.

(** [this.settings.dictationSilenceInterval * 1000] *)
Definition silenceIntervalMs : Q :=
  (dictationSilenceInterval settings * 1000)%Q.

(** The test of the inner [if] of the silent branch. *)
Definition flushDue (currentTime : Z) (s : State) : bool :=
  let silenceDuration := (currentTime - lastVoiceDetectedTime s)%Z in
  (0 <? List.length (dictationAudioChunks s))%nat
  && Qle_bool silenceIntervalMs (inject_Z silenceDuration).

(** The silent branch when the test holds. *)
Definition flush (recognized : outcome string) (s : State) : State :=
  let (s, recognizedText) :=
    processAccumulatedAudio (insertPosition s) recognized s in
  let s :=
    if truthy recognizedText && truthy (trim recognizedText) then
      let s :=
        set_allRecognizedText
          (allRecognizedText s ++ recognizedText ++ " ") s in
      let textToInsert := recognizedText ++ " " in
      set_insertPosition
        {| line := line (insertPosition s);
           ch := ch (insertPosition s) + length16 textToInsert |} s
    else s in
  set_dictationAudioChunks [] s.

(** The body of the [while] loop. *)
Definition pass (c : Capture) (s : State) : State * Loop :=
  match captured c with
  | Rejected _ => (s, Left)
  | Resolved audioBlob =>
      match Vad.detectVoiceInAudio sqrt pow settings (decoded c) with
      | None => (s, Hangs)
      | Some true =>
          let s :=
            set_dictationAudioChunks
              (dictationAudioChunks s ++ [audioBlob])%list s in
          let s := set_lastVoiceDetectedTime (time c) s in
          let s := set_lastVoiceTime (time c) s in
          (emit (StatusFloat "正在录音...") s, GoesOn)
      | Some false =>
          if flushDue (time c) s
          then (flush (recognized c) s, GoesOn)
          else (s, GoesOn)
      end
  end.

(** The loop over the captures that arrive; [stopDictation] may run
    while a pass awaits, and the next [while] test then fails. *)
Fixpoint dictationLoop (captures : list Capture) (s : State)
  : State * Loop :=
  match captures with
  | [] => (s, GoesOn)
  | c :: rest =>
      if negb (isDictating s) then (s, Left)
      else
        match pass c s with
        | (s, GoesOn) =>
            dictationLoop rest
              (if stopped c then stopDictation s else s)
        | done => done
        end
  end.

End WithHost.

End Dictation.

(* ================================================================== *)
(** * Audio formats (the sample store of [convertToPCM], [pcmToWav], the
      Base64 checks of [playAudioFromBase64]) *)
(* ================================================================== *)

Module Pcm.

Local Open Scope Q_scope.

(** A store into an [Int16Array]: the fraction is dropped (towards
    zero), the integer wraps into 16 bits. *)
Definition truncate (x : Q) : Z :=
  if Qle_bool 0 x then Qfloor x else Qceiling x.

Definition toInt16 (x : Q) : Z :=
  ((truncate x + 32768) mod 65536 - 32768)%Z.

(** [Math.max(-32768, Math.min(32767, pcmData[i] * 32767))] *)
Definition clamp (sample : Q) : Q :=
  Qmax (-32768) (Qmin 32767 (sample * 32767)).

Definition pcm16Of (sample : Q) : Z := toInt16 (clamp sample).

End Pcm.

Module Wav.

Local Open Scope Z_scope.

(** [new ArrayBuffer(n)]: [n] zero bytes. *)
Definition newArrayBuffer (n : nat) : list Z := repeat 0 n.

(** The low [n] bytes of a number, low byte first. *)
Fixpoint littleEndian (n : nat) (value : Z) : list Z :=
  match n with
  | O => []
  | S n => value mod 256 :: littleEndian n (value / 256)
  end.

(** A write of [bytes] at [offset]; a [DataView] or a typed array throws
    a [RangeError] when the bytes do not fit: [None]. *)
Definition setBytes (offset : nat) (bytes buffer : list Z)
  : option (list Z) :=
  if (offset + List.length bytes <=? List.length buffer)%nat
  then Some (firstn offset buffer ++ bytes
             ++ skipn (offset + List.length bytes) buffer)%list
  else None.

Definition setUint8 (offset : nat) (value : Z) (buffer : list Z) :=
  setBytes offset (littleEndian 1 value) buffer.

(** [view.setUint16(offset, value, true)], [view.setUint32(offset, value,
    true)] *)
Definition setUint16 (offset : nat) (value : Z) (buffer : list Z) :=
  setBytes offset (littleEndian 2 value) buffer.

Definition setUint32 (offset : nat) (value : Z) (buffer : list Z) :=
  setBytes offset (littleEndian 4 value) buffer.

(** [string.charCodeAt(i)] for the ASCII strings of the header. *)
Definition charCodeAt (c : ascii) : Z := Z.of_nat (nat_of_ascii c).

(** The local [writeString]: one [setUint8] for each character. *)
Fixpoint writeString (offset : nat) (s : string) (buffer : list Z)
  : option (list Z) :=
  match s with
  | EmptyString => Some buffer
  | String c rest =>
      match setUint8 offset (charCodeAt c) buffer with
      | Some buffer => writeString (S offset) rest buffer
      | None => None
      end
  end.

Definition andThen (A B : Type) (step : option A) (rest : A -> option B)
  : option B :=
  match step with
  | Some a => rest a
  | None => None
  end.

(** [pcmToWav]; the numbers are integers, and a quotient by 8 that is
    not an integer loses its fraction when it is stored. *)
Definition pcmToWav (pcmData : list Z) (sampleRate channels bitsPerSample : Z)
  : option (list Z) :=
  let dataLength := List.length pcmData in
  let buffer := newArrayBuffer (44 + dataLength) in
  andThen (writeString 0 "RIFF" buffer) (fun buffer =>
  andThen (setUint32 4 (36 + Z.of_nat dataLength) buffer) (fun buffer =>
  andThen (writeString 8 "WAVE" buffer) (fun buffer =>
  andThen (writeString 12 "fmt " buffer) (fun buffer =>
  andThen (setUint32 16 16 buffer) (fun buffer =>
  andThen (setUint16 20 1 buffer) (fun buffer =>
  andThen (setUint16 22 channels buffer) (fun buffer =>
  andThen (setUint32 24 sampleRate buffer) (fun buffer =>
  andThen (setUint32 28
             (Z.quot (sampleRate * channels * bitsPerSample) 8) buffer)
          (fun buffer =>
  andThen (setUint16 32 (Z.quot (channels * bitsPerSample) 8) buffer)
          (fun buffer =>
  andThen (setUint16 34 bitsPerSample buffer) (fun buffer =>
  andThen (writeString 36 "data" buffer) (fun buffer =>
  andThen (setUint32 40 (Z.of_nat dataLength) buffer) (fun buffer =>
  setBytes 44 pcmData buffer))))))))))))).

(** What a reader of the file does: [getUint16] and [getUint32], low
    byte first. *)
Fixpoint fromLittleEndian (bytes : list Z) : Z :=
  match bytes with
  | [] => 0
  | b :: rest => b + 256 * fromLittleEndian rest
  end.

Definition getUint (width offset : nat) (buffer : list Z) : Z :=
  fromLittleEndian (firstn width (skipn offset buffer)).

Definition codes (s : string) : list Z :=
  map charCodeAt (list_ascii_of_string s).

(** The 44 bytes of a canonical WAV header, field by field. *)
Definition headerOf (dataLength sampleRate channels bitsPerSample : Z)
  : list Z :=
  (codes "RIFF" ++ littleEndian 4 (36 + dataLength)
   ++ codes "WAVE" ++ codes "fmt " ++ littleEndian 4 16
   ++ littleEndian 2 1 ++ littleEndian 2 channels
   ++ littleEndian 4 sampleRate
   ++ littleEndian 4 (Z.quot (sampleRate * channels * bitsPerSample) 8)
   ++ littleEndian 2 (Z.quot (channels * bitsPerSample) 8)
   ++ littleEndian 2 bitsPerSample
   ++ codes "data" ++ littleEndian 4 dataLength)%list.

End Wav.

Module Base64.

(** [[A-Za-z0-9+/]] *)
Definition isAlphabet (c : ascii) : bool :=
  let n := nat_of_ascii c in
  ((65 <=? n) && (n <=? 90) || (97 <=? n) && (n <=? 122)
   || (48 <=? n) && (n <=? 57) || (n =? 43) || (n =? 47))%nat.

Definition isPadding (c : ascii) : bool := (nat_of_ascii c =? 61)%nat.

(** [base64Audio.replace(/[^A-Za-z0-9+/=]/g, '')] *)
Fixpoint clean (s : string) : string :=
  match s with
  | EmptyString => EmptyString
  | String c rest =>
      if isAlphabet c || isPadding c then String c (clean rest)
      else clean rest
  end.

(** [while (cleanBase64.length % 4 !== 0) cleanBase64 += '='] *)
Fixpoint padLoop (fuel : nat) (cleanBase64 : string) : option string :=
  if (String.length cleanBase64 mod 4 =? 0)%nat then Some cleanBase64
  else
    match fuel with
    | O => None
    | S fuel => padLoop fuel (cleanBase64 ++ "=")
    end.

(** [/^[A-Za-z0-9+/]*={0,2}$/.test(s)] *)
Fixpoint afterAlphabet (s : string) : string :=
  match s with
  | EmptyString => EmptyString
  | String c rest => if isAlphabet c then afterAlphabet rest else s
  end.

Definition wellFormed (s : string) : bool :=
  match afterAlphabet s with
  | "" | "=" | "==" => true
  | _ => false
  end.

(** The start of [playAudioFromBase64]: the string handed to [atob], or
    the error thrown.  [None]: the padding loop ran out of [fuel]. *)
Definition prepare (fuel : nat) (base64Audio : string)
  : option (outcome string) :=
  match padLoop fuel (clean base64Audio) with
  | None => None
  | Some cleanBase64 =>
      if wellFormed cleanBase64 then Some (Resolved cleanBase64)
      else Some (Rejected "无效的Base64格式")
  end.

(** [n] characters [=]. *)
Fixpoint padding (n : nat) : string :=
  match n with
  | O => ""
  | S n => "=" ++ padding n
  end.

Fixpoint countPadding (s : string) : nat :=
  match s with
  | EmptyString => 0
  | String c rest => (if isPadding c then 1 else 0) + countPadding rest
  end.

End Base64.

(* ================================================================== *)
(** * Saving a conversation ([saveConversationToFile]) *)
(* ================================================================== *)

Module Vault.

Local Open Scope string_scope.

(** The vault as the plugin sees it here: the paths of its files and
    folders.  [getAbstractFileByPath] is not [null] exactly for them. *)
Definition getAbstractFileByPath (path : string) (vault : list string)
  : bool :=
  existsb (String.eqb path) vault.

(** What the method asks of the vault. *)
Inductive Call :=
| CreateFolder (path : string)
| Create (path content : string).

(** [s.replace(pattern, replacement)] with a pattern that is a string:
    the first occurrence only. *)
Fixpoint replaceFirst (pattern replacement s : string) : string :=
  if prefix pattern s then
    replacement
    ++ substring (String.length pattern)
                 (String.length s - String.length pattern) s
  else
    match s with
    | EmptyString => EmptyString
    | String c rest => String c (replaceFirst pattern replacement rest)
    end.

(** The path tried with a given counter. *)
Definition numbered (folderPath fileName : string) (counter : nat)
  : string :=
  let nameWithoutExt := replaceFirst ".md" "" fileName in
  folderPath ++ "/" ++ nameWithoutExt ++ "-" ++ Engine.decimal counter
  ++ ".md".

(** The [while] loop; [fuel] bounds the number of passes. *)
Fixpoint pathLoop (vault : list string) (folderPath fileName : string)
         (fuel counter : nat) (finalPath : string) : option string :=
  if getAbstractFileByPath finalPath vault then
    match fuel with
    | O => None
    | S fuel =>
        pathLoop vault folderPath fileName fuel (S counter)
                 (numbered folderPath fileName counter)
    end
  else Some finalPath.

(** Up to [await this.app.vault.createFolder(folderPath)], when the
    folder is missing. *)
Definition saveConversationToFile_begin (settings : VoiceAssistantSettings)
           (vault : list string) : option Call :=
  let folderPath := conversationSaveFolder settings in
  if getAbstractFileByPath folderPath vault then None
  else Some (CreateFolder folderPath).

(** From there to [await this.app.vault.create(finalPath, content)], with
    the vault as it is then.  [None]: the loop ran out of [fuel]. *)
Definition saveConversationToFile_create
           (settings : VoiceAssistantSettings) (vault : list string)
           (fileName content : string) (fuel : nat) : option Call :=
  let folderPath := conversationSaveFolder settings in
  let filePath := folderPath ++ "/" ++ fileName in
  match pathLoop vault folderPath fileName fuel 1 filePath with
  | Some finalPath => Some (Create finalPath content)
  | None => None
  end.

End Vault.

(* ================================================================== *)
(** * Choosing the language model ([callLLM] and the provider methods up
      to the request they send) *)
(* ================================================================== *)

Module Models.

Local Open Scope string_scope.

(** [a || b] on strings. *)
Definition orElse (a b : string) : string := if truthy a then a else b.

(** The request a provider method sends, by what determines it. *)
Inductive Request :=
| GoogleAI (model key text : string)
| OpenRouter (model key text : string)
| Spark (path domain text : string).

(** A provider method either throws before it sends anything, or sends
    its request. *)
Inductive Attempt :=
| Throws (message : string)
| Sends (request : Request).

(** The [switch (model)] of [callXunfeiSpark]: path and domain. *)
Definition sparkRoute (model : string) : string * string :=
  if model =? "lite" then ("/v1.1/chat", "lite")
  else if model =? "generalv3" then ("/v3.1/chat", "generalv3")
  else if model =? "pro-128k" then ("/chat/pro-128k", "pro-128k")
  else if model =? "generalv3.5" then ("/v3.5/chat", "generalv3.5")
  else if model =? "max-32k" then ("/chat/max-32k", "max-32k")
  else if model =? "4.0Ultra" then ("/v4.0/chat", "4.0Ultra")
  else if model =? "generalv2" then ("/v2.1/chat", "generalv2")
  else if model =? "general" then ("/v1.1/chat", "general")
  else ("/v1.1/chat", "lite").

Definition callGoogleAI (settings : VoiceAssistantSettings) (text : string)
  : Attempt :=
  let model := orElse (googleModel settings) "gemini-2.5-flash" in
  Sends (GoogleAI model (googleApiKey settings) text).

Definition callOpenRouter (settings : VoiceAssistantSettings)
           (text : string) : Attempt :=
  let model := orElse (openrouterModel settings) "openai/gpt-3.5-turbo" in
  Sends (OpenRouter model (openrouterApiKey settings) text).

Definition callXunfeiSpark (settings : VoiceAssistantSettings)
           (text : string) : Attempt :=
  let apiKey := xunfeiApiKey settings in
  let apiSecret := xunfeiApiSecret settings in
  let appId := xunfeiAppId settings in
  if negb (truthy apiKey) || negb (truthy apiSecret) || negb (truthy appId)
  then Throws "讯飞星火配置不完整，请检查 App ID、API Key 和 API Secret"
  else
    let model := orElse (xunfeiModel settings) "lite" in
    let (path, domain) := sparkRoute model in
    Sends (Spark path domain text).

Definition callCustomGoogleAI (settings : VoiceAssistantSettings)
           (text modelId : string) : Attempt :=
  if negb (truthy (googleApiKey settings))
  then Throws "请先配置 Google API Key"
  else Sends (GoogleAI modelId (googleApiKey settings) text).

Definition callCustomOpenRouter (settings : VoiceAssistantSettings)
           (text modelId : string) : Attempt :=
  if negb (truthy (openrouterApiKey settings))
  then Throws "请先配置 OpenRouter API Key"
  else Sends (OpenRouter modelId (openrouterApiKey settings) text).

(** The chain of tests that picks [apiPath] in [callCustomXunfeiSpark]. *)
Definition customSparkPath (modelId : string) : string :=
  if includes modelId "v1.5" || (modelId =? "general") then "/v1.1/chat"
  else if includes modelId "v2" || (modelId =? "generalv2")
  then "/v2.1/chat"
  else if includes modelId "v3" || (modelId =? "generalv3")
  then "/v3.1/chat"
  else if includes modelId "v3.5" || (modelId =? "generalv3.5")
  then "/v3.5/chat"
  else if includes modelId "4.0" || (modelId =? "4.0Ultra")
  then "/v4.0/chat"
  else "/v3.1/chat".

Definition callCustomXunfeiSpark (settings : VoiceAssistantSettings)
           (text modelId : string) : Attempt :=
  if negb (truthy (xunfeiAppId settings))
     || negb (truthy (xunfeiApiKey settings))
     || negb (truthy (xunfeiApiSecret settings))
  then Throws "请先配置讯飞星火 API 信息"
  else
    let domain := modelId in
    Sends (Spark (customSparkPath modelId) domain text).

(** The [switch (selectedModel.provider.toLowerCase())] of
    [callCustomModel]. *)
Definition callSelectedModel (settings : VoiceAssistantSettings)
           (text : string) (selectedModel : CustomModel) : Attempt :=
  let provider := toLowerCase (cm_provider selectedModel) in
  if provider =? "google"
  then callCustomGoogleAI settings text (cm_modelId selectedModel)
  else if provider =? "openrouter"
  then callCustomOpenRouter settings text (cm_modelId selectedModel)
  else if provider =? "xunfei"
  then callCustomXunfeiSpark settings text (cm_modelId selectedModel)
  else Throws ("不支持的自定义模型提供商: " ++ cm_provider selectedModel).

Definition callCustomModel (settings : VoiceAssistantSettings)
           (text : string) : Attempt :=
  if negb (truthy (selectedCustomModel settings))
  then Throws "请先选择一个自定义模型"
  else
    match find (fun model => cm_name model =? selectedCustomModel settings)
               (customModels settings) with
    | None => Throws "选择的自定义模型不存在"
    | Some selectedModel => callSelectedModel settings text selectedModel
    end.

Definition callLLM (settings : VoiceAssistantSettings) (text : string)
  : Attempt :=
  match llmProvider settings with
  | google => callGoogleAI settings text
  | openrouter => callOpenRouter settings text
  | xunfei => callXunfeiSpark settings text
  | custom => callCustomModel settings text
  end.

End Models.

(* ================================================================== *)
(** * The settings tab: custom models and wake words *)
(* ================================================================== *)

Module SettingTab.

Local Open Scope string_scope.

(** The two settings the custom-model controls edit. *)
Record ModelSettings := {
  models : list CustomModel;
  selected : string
}.

(** [splice(index, 1)] *)
Fixpoint splice1 (A : Type) (index : nat) (l : list A) : list A :=
  match l, index with
  | [], _ => []
  | _ :: rest, O => rest
  | x :: rest, S index => x :: splice1 index rest
  end.

(** The click on 添加模型 with the three inputs. *)
Definition addModel (newModelName newModelProvider newModelId : string)
           (s : ModelSettings) : ModelSettings :=
  if negb (truthy newModelName) || negb (truthy newModelId) then s
  else
    match find (fun m => cm_name m =? newModelName) (models s) with
    | Some _ => s
    | None =>
        {| models :=
             (models s
              ++ [ {| cm_name := newModelName;
                      cm_provider := newModelProvider;
                      cm_modelId := newModelId |} ])%list;
           selected := selected s |}
    end.

(** The click on 删除 of the entry rendered at [index] for [model]. *)
Definition deleteModel (index : nat) (model : CustomModel)
           (s : ModelSettings) : ModelSettings :=
  {| models := splice1 index (models s);
     selected :=
       if selected s =? cm_name model then "" else selected s |}.

(** The drop-down offers the empty choice and the names of the models. *)
Definition selectModel (value : string) (s : ModelSettings)
  : ModelSettings :=
  {| models := models s; selected := value |}.

Definition offered (value : string) (s : ModelSettings) : bool :=
  (value =? "") || existsb (fun m => cm_name m =? value) (models s).

(** Whether the click on 添加模型 gets past its two checks, to
    [await this.plugin.saveSettings()]. *)
Definition added (newModelName newModelId : string) (s : ModelSettings)
  : bool :=
  truthy newModelName && truthy newModelId
  && match find (fun m => cm_name m =? newModelName) (models s) with
     | Some _ => false
     | None => true
     end.

(** The controls: the two settings, and what is on screen, which is the
    names the drop-down offers ([updateCustomModelDropdown]) and the
    entries of the list ([updateExistingModelsList]).  The handler of the
    删除 button of entry [index] holds the [model] and the [index] of the
    drawing that created it. *)
Record ModelControls := {
  current : ModelSettings;
  options : list string;
  entries : list CustomModel
}.

Definition set_current (s : ModelSettings) (c : ModelControls)
  : ModelControls :=
  {| current := s; options := options c; entries := entries c |}.

Definition updateCustomModelDropdown (c : ModelControls) : ModelControls :=
  {| current := current c;
     options := map cm_name (models (current c));
     entries := entries c |}.

Definition updateExistingModelsList (c : ModelControls) : ModelControls :=
  {| current := current c; options := options c;
     entries := models (current c) |}.

(** [display]: both are drawn from the settings. *)
Definition display (s : ModelSettings) : ModelControls :=
  updateExistingModelsList
    (updateCustomModelDropdown
       {| current := s; options := []; entries := [] |}).

(** One callback of the controls: a click, a choice in the drop-down, or
    the rest of a click handler once [saveSettings] has resolved (after
    an addition only the drop-down is drawn again; after a deletion the
    drop-down and the list). *)
Inductive ModelEvent :=
| ClickAdd (newModelName newModelProvider newModelId : string)
| AddSaved
| ClickDelete (index : nat)
| DeleteSaved
| ChooseModel (value : string).

Definition modelStep (e : ModelEvent) (c : ModelControls) : ModelControls :=
  match e with
  | ClickAdd newModelName newModelProvider newModelId =>
      set_current
        (addModel newModelName newModelProvider newModelId (current c)) c
  | AddSaved => updateCustomModelDropdown c
  | ClickDelete index =>
      match nth_error (entries c) index with
      | Some model => set_current (deleteModel index model (current c)) c
      | None => c
      end
  | DeleteSaved => updateExistingModelsList (updateCustomModelDropdown c)
  | ChooseModel value =>
      if (value =? "") || existsb (String.eqb value) (options c)
      then set_current (selectModel value (current c)) c
      else c
  end.

(** What the user does; done one at a time, a handler has finished
    before the next click. *)
Inductive ModelAction :=
| AddModel (newModelName newModelProvider newModelId : string)
| DeleteModel (index : nat)
| SelectModel (value : string).

Definition eventsOf (a : ModelAction) (c : ModelControls)
  : list ModelEvent :=
  match a with
  | AddModel newModelName newModelProvider newModelId =>
      ClickAdd newModelName newModelProvider newModelId
      :: (if added newModelName newModelId (current c) then [AddSaved]
          else [])
  | DeleteModel index =>
      match nth_error (entries c) index with
      | Some _ => [ClickDelete index; DeleteSaved]
      | None => []
      end
  | SelectModel value => [ChooseModel value]
  end.

Definition applyModelAction (a : ModelAction) (c : ModelControls)
  : ModelControls :=
  fold_left (fun c e => modelStep e c) (eventsOf a c) c.

(** Wake words: the click on 添加 with the text of the input, and the
    click on 删除 of the word rendered at [index]. *)
Definition addWakeWord (input : string) (wakeWords : list string)
  : list string :=
  let newWord := trim input in
  if truthy newWord && negb (existsb (String.eqb newWord) wakeWords)
  then (wakeWords ++ [newWord])%list
  else wakeWords.

Definition deleteWakeWord (index : nat) (wakeWords : list string)
  : list string :=
  splice1 index wakeWords.

Inductive WakeWordAction :=
| AddWakeWord (input : string)
| DeleteWakeWord (index : nat).

Definition applyWakeWordAction (a : WakeWordAction)
           (wakeWords : list string) : list string :=
  match a with
  | AddWakeWord input => addWakeWord input wakeWords
  | DeleteWakeWord index => deleteWakeWord index wakeWords
  end.

End SettingTab.

Module Wake.

(** The test of the wake loop,
    [wakeWords.some(word => text.toLowerCase().includes(word.toLowerCase()))]. *)
Definition hasWakeWord (wakeWords : list string) (text : string) : bool :=
  existsb (fun word => includes (toLowerCase text) (toLowerCase word))
          wakeWords.

End Wake.

(* ================================================================== *)
(** * The WebSocket handlers of the Xunfei services
      ([xunfeiOnlineASR], [callXunfeiSpark], [callCustomXunfeiSpark],
      [xunfeiOnlineTTS]) *)
(* ================================================================== *)

Module Sockets.

Local Open Scope string_scope.

(** A promise under construction: pending, or settled once and for all;
    [resolve] and [reject] on a settled promise do nothing. *)
Definition Promise (A : Type) : Type := option (outcome A).

Definition resolve (A : Type) (a : A) (promise : Promise A) : Promise A :=
  match promise with
  | None => Some (Resolved a)
  | settled => settled
  end.

Definition reject (A : Type) (error : string) (promise : Promise A)
  : Promise A :=
  match promise with
  | None => Some (Rejected error)
  | settled => settled
  end.

(** [parts.join('')] *)
Definition join (parts : list string) : string :=
  fold_right append "" parts.

(** [`${n}`] for an integer. *)
Definition number (n : Z) : string := NilZero.string_of_int (Z.to_int n).

(** What the socket delivers to a handler. *)
Inductive Event (Frame : Type) :=
| Message (frame : Frame)
| SocketError
| SocketClose (code : Z) (reason : string).
Arguments Message {Frame} frame.
Arguments SocketError {Frame}.
Arguments SocketClose {Frame} code reason.

(** ** Speech recognition *)

(** [data.data.result]: absent, or the words [ws[i].cw[j].w], or a value
    on which the [map] throws. *)
Inductive AsrResult :=
| NoResult
| Words (ws : list (list string))
| BadResult (error : string).

Record AsrData := {
  asr_result : AsrResult;
  asr_status : Z
}.

(** A message of the recogniser: one that [JSON.parse] refuses, or a
    frame with its [code], [message] and [data]. *)
Inductive AsrFrame :=
| AsrInvalid (error : string)
| AsrParsed (code : Z) (message : string) (data : option AsrData).

(** The variables of the promise executor of [xunfeiOnlineASR]. *)
Record Asr := {
  asr_text : string;
  hasReceivedData : bool;
  asr_closed : bool;
  asr_promise : Promise string
}.

Definition asrStart : Asr :=
  {| asr_text := ""; hasReceivedData := false; asr_closed := false;
     asr_promise := None |}.

Definition asrReject (error : string) (s : Asr) : Asr :=
  {| asr_text := asr_text s; hasReceivedData := hasReceivedData s;
     asr_closed := asr_closed s;
     asr_promise := reject error (asr_promise s) |}.

(** [ws.onmessage] *)
Definition asrMessage (frame : AsrFrame) (s : Asr) : Asr :=
  match frame with
  | AsrInvalid error => asrReject error s
  | AsrParsed code message data =>
      if negb (code =? 0)%Z then
        asrReject ("ASR错误: " ++ number code ++ " - " ++ message) s
      else
        match data with
        | None => s
        | Some data =>
            match asr_result data with
            | BadResult error =>
                asrReject error
                  {| asr_text := asr_text s; hasReceivedData := true;
                     asr_closed := asr_closed s;
                     asr_promise := asr_promise s |}
            | found =>
                let s :=
                  match found with
                  | Words ws =>
                      let text := join (map join ws) in
                      {| asr_text := asr_text s ++ text;
                         hasReceivedData := true;
                         asr_closed := asr_closed s;
                         asr_promise := asr_promise s |}
                  | _ => s
                  end in
                if (asr_status data =? 2)%Z then
                  {| asr_text := asr_text s;
                     hasReceivedData := hasReceivedData s;
                     asr_closed := true;
                     asr_promise :=
                       resolve (Models.orElse (asr_text s) Engine.notRecognized)
                               (asr_promise s) |}
                else s
            end
        end
  end.

(** [ws.onerror] and [ws.onclose] *)
Definition asrError (s : Asr) : Asr :=
  asrReject "ASR WebSocket连接错误" s.

Definition asrClose (code : Z) (reason : string) (s : Asr) : Asr :=
  if negb (hasReceivedData s) && negb (truthy (asr_text s)) then
    asrReject ("ASR连接关闭，未获取到结果。关闭代码: " ++ number code
               ++ ", 原因: " ++ reason) s
  else s.

Definition asrStep (e : Event AsrFrame) (s : Asr) : Asr :=
  match e with
  | Message frame => asrMessage frame s
  | SocketError => asrError s
  | SocketClose code reason => asrClose code reason s
  end.

Definition asrRun (events : list (Event AsrFrame)) (s : Asr) : Asr :=
  fold_left (fun s e => asrStep e s) events s.

(** ** The language model Spark *)

(** [data.payload.choices.text[0].content] when every test on the way
    holds, and [data.header]. *)
Record SparkHeader := {
  spark_code : Z;
  spark_message : string;
  spark_status : Z
}.

Inductive SparkFrame :=
| SparkInvalid (error : string)
| SparkParsed (header : option SparkHeader) (content : option string).

Record Spark := {
  spark_text : string;
  spark_closed : bool;
  spark_timeout : bool;
  spark_promise : Promise string
}.

(** The promise executor: the 30 s timer is pending. *)
Definition sparkStart : Spark :=
  {| spark_text := ""; spark_closed := false; spark_timeout := true;
     spark_promise := None |}.

Definition sparkSettle (settle : Promise string -> Promise string)
           (s : Spark) : Spark :=
  {| spark_text := spark_text s; spark_closed := spark_closed s;
     spark_timeout := false; spark_promise := settle (spark_promise s) |}.

Definition sparkAppend (content : option string) (s : Spark) : Spark :=
  match content with
  | Some content =>
      if truthy content then
        {| spark_text := spark_text s ++ content;
           spark_closed := spark_closed s;
           spark_timeout := spark_timeout s;
           spark_promise := spark_promise s |}
      else s
  | None => s
  end.

Definition sparkFinish (text : string) (s : Spark) : Spark :=
  {| spark_text := spark_text s; spark_closed := true;
     spark_timeout := false;
     spark_promise := resolve text (spark_promise s) |}.

(** [ws.onmessage] of [callXunfeiSpark] *)
Definition sparkMessage (frame : SparkFrame) (s : Spark) : Spark :=
  match frame with
  | SparkInvalid error =>
      sparkSettle (reject ("解析讯飞星火响应失败: " ++ error)) s
  | SparkParsed header content =>
      let failed :=
        match header with
        | Some header => negb (spark_code header =? 0)%Z
        | None => false
        end in
      match header, failed with
      | Some header, true =>
          let message := Models.orElse (spark_message header) "未知错误" in
          sparkSettle
            (reject ("讯飞星火API错误: " ++ message ++ " (代码: "
                     ++ number (spark_code header) ++ ")")) s
      | _, _ =>
          let s := sparkAppend content s in
          match header with
          | Some header =>
              if (spark_status header =? 2)%Z then
                sparkFinish
                  (Models.orElse (spark_text s) "讯飞星火返回了空响应") s
              else s
          | None => s
          end
      end
  end.

(** [ws.onmessage] of [callCustomXunfeiSpark]: a frame without a header
    makes [response.header.code] throw. *)
Definition customSparkMessage (frame : SparkFrame) (s : Spark) : Spark :=
  match frame with
  | SparkInvalid _ | SparkParsed None _ =>
      sparkSettle (reject "讯飞星火自定义模型响应解析失败") s
  | SparkParsed (Some header) content =>
      if negb (spark_code header =? 0)%Z then
        sparkSettle
          (reject ("讯飞星火自定义模型错误: " ++ spark_message header)) s
      else
        let s := sparkAppend content s in
        if (spark_status header =? 2)%Z
        then sparkFinish (spark_text s) s
        else s
  end.

(** The other callbacks: [onerror], [onclose], and the timer when it is
    still pending. *)
Inductive SparkKind := BuiltIn | Custom.

Definition sparkError (kind : SparkKind) (s : Spark) : Spark :=
  sparkSettle
    (reject match kind with
            | BuiltIn => "讯飞星火连接失败"
            | Custom => "讯飞星火自定义模型连接失败"
            end) s.

Definition sparkClose (kind : SparkKind) (s : Spark) : Spark :=
  let s := sparkSettle (fun promise => promise) s in
  if negb (truthy (spark_text s)) then
    sparkSettle
      (reject match kind with
              | BuiltIn => "讯飞星火连接意外关闭"
              | Custom => "讯飞星火自定义模型连接意外关闭"
              end) s
  else s.

Definition sparkTimedOut (kind : SparkKind) (s : Spark) : Spark :=
  if spark_timeout s then
    {| spark_text := spark_text s; spark_closed := true;
       spark_timeout := false;
       spark_promise :=
         reject match kind with
                | BuiltIn => "讯飞星火调用超时"
                | Custom => "讯飞星火自定义模型调用超时"
                end (spark_promise s) |}
  else s.

Inductive SparkEvent :=
| SparkSocket (e : Event SparkFrame)
| SparkTimer.

Definition sparkStep (kind : SparkKind) (e : SparkEvent) (s : Spark)
  : Spark :=
  match e with
  | SparkSocket (Message frame) =>
      match kind with
      | BuiltIn => sparkMessage frame s
      | Custom => customSparkMessage frame s
      end
  | SparkSocket SocketError => sparkError kind s
  | SparkSocket (SocketClose _ _) => sparkClose kind s
  | SparkTimer => sparkTimedOut kind s
  end.

Definition sparkRun (kind : SparkKind) (events : list SparkEvent)
           (s : Spark) : Spark :=
  fold_left (fun s e => sparkStep kind e s) events s.

(** ** Speech synthesis *)

Record TtsData := {
  tts_audio : option string;
  tts_status : Z
}.

Inductive TtsFrame :=
| TtsInvalid (error : string)
| TtsParsed (code : Z) (message : string) (data : option TtsData).

(** The executor of [xunfeiOnlineTTS]; [tts_played] lists the audio
    handed to [playAudioFromBase64], whose promise then settles this
    one. *)
Record Tts := {
  audioChunks : list string;
  tts_received : bool;
  tts_closed : bool;
  tts_played : list string;
  tts_promise : Promise unit
}.

Definition ttsStart : Tts :=
  {| audioChunks := []; tts_received := false; tts_closed := false;
     tts_played := []; tts_promise := None |}.

Definition ttsReject (error : string) (s : Tts) : Tts :=
  {| audioChunks := audioChunks s; tts_received := tts_received s;
     tts_closed := tts_closed s; tts_played := tts_played s;
     tts_promise := reject error (tts_promise s) |}.

Definition ttsClosed (s : Tts) : Tts :=
  {| audioChunks := audioChunks s; tts_received := tts_received s;
     tts_closed := true; tts_played := tts_played s;
     tts_promise := tts_promise s |}.

(** [ws.onmessage] *)
Definition ttsMessage (frame : TtsFrame) (s : Tts) : Tts :=
  match frame with
  | TtsInvalid error => ttsReject error s
  | TtsParsed code message data =>
      if negb (code =? 0)%Z then
        ttsReject ("TTS错误: " ++ number code ++ " - " ++ message) s
      else
        match data with
        | None => s
        | Some data =>
            let s :=
              match tts_audio data with
              | Some audio =>
                  if truthy audio then
                    {| audioChunks := (audioChunks s ++ [audio])%list;
                       tts_received := true; tts_closed := tts_closed s;
                       tts_played := tts_played s;
                       tts_promise := tts_promise s |}
                  else s
              | None => s
              end in
            if (tts_status data =? 2)%Z then
              let s := ttsClosed s in
              match audioChunks s with
              | [] =>
                  {| audioChunks := audioChunks s;
                     tts_received := tts_received s;
                     tts_closed := tts_closed s;
                     tts_played := tts_played s;
                     tts_promise := resolve tt (tts_promise s) |}
              | _ =>
                  let combinedAudio := join (audioChunks s) in
                  if negb (truthy combinedAudio)
                  then ttsReject "音频数据为空" s
                  else if negb (Base64.wellFormed combinedAudio)
                  then ttsReject "接收到的音频数据格式无效" s
                  else
                    {| audioChunks := audioChunks s;
                       tts_received := tts_received s;
                       tts_closed := tts_closed s;
                       tts_played := (tts_played s ++ [combinedAudio])%list;
                       tts_promise := tts_promise s |}
              end
            else s
        end
  end.

(** [ws.onerror], [ws.onclose], and the settling of the playback
    promise. *)
Definition ttsError (s : Tts) : Tts := ttsReject "TTS WebSocket连接错误" s.

Definition ttsClose (code : Z) (reason : string) (s : Tts) : Tts :=
  if negb (tts_received s) then
    ttsReject ("TTS连接关闭，未获取到音频数据。关闭代码: " ++ number code
               ++ ", 原因: " ++ reason) s
  else s.

Definition ttsPlayed (playback : outcome unit) (s : Tts) : Tts :=
  {| audioChunks := audioChunks s; tts_received := tts_received s;
     tts_closed := tts_closed s; tts_played := tts_played s;
     tts_promise :=
       match playback with
       | Resolved _ => resolve tt (tts_promise s)
       | Rejected error => reject error (tts_promise s)
       end |}.

Definition ttsStep (e : Event TtsFrame) (s : Tts) : Tts :=
  match e with
  | Message frame => ttsMessage frame s
  | SocketError => ttsError s
  | SocketClose code reason => ttsClose code reason s
  end.

Definition ttsRun (events : list (Event TtsFrame)) (s : Tts) : Tts :=
  fold_left (fun s e => ttsStep e s) events s.

End Sockets.

(* ================================================================== *)
(** * Observations and sample inputs used in the results *)
(* ================================================================== *)

(** The part of the state that tells what a turn recorded. *)
Definition sessionView (p : Engine.Plugin) : bool * list Engine.Turn :=
  (Engine.isInContinuousDialog p, Engine.conversationHistory p).

Definition turnOf (userText aiResponse : string) (now : Z) : Engine.Turn :=
  {| Engine.user := userText; Engine.assistant := aiResponse;
     Engine.timestamp := now |}.


(** A clock: every date prints the same. *)
Definition fixedClock : Engine.Clock :=
  {| Engine.toLocaleTimeString := fun _ => "09:30:00"%string;
     Engine.toLocaleString := fun _ => "2025/9/30 09:30:00"%string;
     Engine.getFullYear := fun _ => 2025%nat;
     Engine.getMonth := fun _ => 8%nat;
     Engine.getDate := fun _ => 30%nat;
     Engine.getHours := fun _ => 9%nat;
     Engine.getMinutes := fun _ => 30%nat;
     Engine.getSeconds := fun _ => 0%nat |}.

(** The default settings with synthesis switched on, and with audio
    saving switched on as well. *)
Definition spokenSettings : VoiceAssistantSettings :=
  set_ttsMode tts_online DEFAULT_SETTINGS.

Definition savingSettings : VoiceAssistantSettings :=
  set_saveAudioToVault true spokenSettings.

(** A one-byte segment, to tell segments apart. *)
Definition segment (n : nat) : Blob := [byte_of_ascii (ascii_of_nat n)].

(** Eleven segments after a session started: the buffer is full. *)
Definition elevenSegments : list Engine.Event :=
  Engine.StartConversationCommand
  :: map (fun n => Engine.PreRecordingSegment (segment n)) (seq 0 11).

(** A 500 ms segment at 16 kHz would be long to write down; the sample
    segments are four samples at 80 Hz, two samples to a 25 ms frame.
    The samples are powers of two, as a [Float32Array] can hold them. *)
Module Segments.

Import PrimFloat.

Local Open Scope float_scope.

Definition quietSegment : Vad.AudioBuffer :=
  {| Vad.channelData := [0.0078125; -0.0078125; 0.015625; -0.015625];
     Vad.bufferSampleRate := 80 |}.

Definition loudSegment : Vad.AudioBuffer :=
  {| Vad.channelData := [0.5; -0.5; 0.25; -0.25];
     Vad.bufferSampleRate := 80 |}.


(** [Math.pow] as the host computes it for the exponent 2. *)
Definition square (x exponent : float) : float := x * x.

End Segments.

Import Segments.

(** A session that has just been started, with synthesis on. *)
Definition runningSession : Engine.Plugin :=
  Engine.startContinuousDialog (Engine.initial spokenSettings).

(** A turn whose text is recognised and whose reply is the empty string. *)
Definition emptyReply : Engine.TurnAnswers :=
  {| Engine.recording := Resolved (segment 1);
     Engine.recognition := Resolved "hello"%string;
     Engine.reply := Resolved ""%string;
     Engine.synthesis := Engine.SynthesisWithoutAudio;
     Engine.ending := Engine.PlayedToEnd;
     Engine.now := 1000 |}.

(** A session with one completed turn (synthesis off), as the events
    leave it: the command, the recording, the recognised text, the reply. *)
Definition oneTurn : list Engine.Event :=
  [ Engine.StartConversationCommand;
    Engine.TurnRecorded (Resolved (segment 1));
    Engine.TurnRecognized (Resolved "你好"%string);
    Engine.TurnResponded "你好" (Resolved "你好！"%string) 1000 ].

Definition oneTurnSession : Engine.Plugin :=
  Engine.run fixedClock oneTurn (Engine.initial DEFAULT_SETTINGS).


(** The model names the provider switch of [callXunfeiSpark] knows. *)
Definition knownSparkModels : list string :=
  [ "lite"; "generalv3"; "pro-128k"; "generalv3.5"; "max-32k"; "4.0Ultra";
    "generalv2"; "general" ]%string.

(** The text a request carries. *)
Definition requestText (request : Models.Request) : string :=
  match request with
  | Models.GoogleAI _ _ text => text
  | Models.OpenRouter _ _ text => text
  | Models.Spark _ _ text => text
  end.

(** The custom models as the settings tab keeps them: the names are
    different and not empty, the model ids are not empty, and the
    selection is empty or names one of the models. *)
Definition modelsKept (s : SettingTab.ModelSettings) : Prop :=
  NoDup (map cm_name (SettingTab.models s))
  /\ (forall m, In m (SettingTab.models s) ->
                truthy (cm_name m) = true /\ truthy (cm_modelId m) = true)
  /\ SettingTab.offered (SettingTab.selected s) s = true.

Definition wakeWordsKept (wakeWords : list string) : Prop :=
  NoDup wakeWords /\ forall word, In word wakeWords -> truthy word = true.

(** The default settings with another choice of language model. *)
Definition withModels (provider : LlmProvider)
           (googleKey openrouterKey appId apiKey apiSecret sparkModel : string)
           (models : list CustomModel) (selected : string)
  : VoiceAssistantSettings :=
  let s := DEFAULT_SETTINGS in
  {| llmProvider := provider; googleApiKey := googleKey;
     googleModel := googleModel s; openrouterApiKey := openrouterKey;
     openrouterModel := openrouterModel s; xunfeiAppId := appId;
     xunfeiApiKey := apiKey; xunfeiApiSecret := apiSecret;
     xunfeiModel := sparkModel; customModels := models;
     selectedCustomModel := selected; wakeMode := wakeMode s;
     wakeWords := wakeWords s;
     autoEnterDialogAfterWake := autoEnterDialogAfterWake s;
     wakeDetectionInterval := wakeDetectionInterval s;
     continuousDialogDuration := continuousDialogDuration s;
     showDialogControls := showDialogControls s;
     conversationSaveFolder := conversationSaveFolder s;
     dictationSilenceTimeout := dictationSilenceTimeout s;
     dictationSilenceInterval := dictationSilenceInterval s;
     voiceDetectionThreshold := voiceDetectionThreshold s;
     voiceDetectionSensitivity := voiceDetectionSensitivity s;
     enableVoiceInterruption := enableVoiceInterruption s;
     customPrompts := customPrompts s; ttsMode := ttsMode s;
     ttsVoice := ttsVoice s; ttsSpeed := ttsSpeed s; ttsVolume := ttsVolume s;
     ttsPitch := ttsPitch s; saveAudioToVault := saveAudioToVault s;
     audioSavePath := audioSavePath s; sampleRate := sampleRate s;
     channels := channels s; audioFormat := audioFormat s;
     enableDebugLog := enableDebugLog s |}.

(** Two custom models with the same name, as a settings file may hold
    them. *)
Definition twoModels : list CustomModel :=
  [ {| cm_name := "mine"; cm_provider := "Google";
       cm_modelId := "gemini-1.5-pro" |};
    {| cm_name := "mine"; cm_provider := "openrouter";
       cm_modelId := "openai/gpt-4" |} ]%string.

(** A run of callbacks of the custom-model controls in any order, a run
    of actions done one at a time, and a run of clicks in the wake-word
    controls. *)
Definition runModelEvents (events : list SettingTab.ModelEvent)
           (c : SettingTab.ModelControls) : SettingTab.ModelControls :=
  fold_left (fun c e => SettingTab.modelStep e c) events c.

Definition runModelActions (actions : list SettingTab.ModelAction)
           (c : SettingTab.ModelControls) : SettingTab.ModelControls :=
  fold_left (fun c a => SettingTab.applyModelAction a c) actions c.

Definition runWakeWordActions (actions : list SettingTab.WakeWordAction)
           (wakeWords : list string) : list string :=
  fold_left (fun ws a => SettingTab.applyWakeWordAction a ws) actions
            wakeWords.

(** The custom-model settings of the plugin. *)
Definition modelSettingsOf (settings : VoiceAssistantSettings)
  : SettingTab.ModelSettings :=
  {| SettingTab.models := customModels settings;
     SettingTab.selected := selectedCustomModel settings |}.

(** The names are different and not empty, and so are the model ids. *)
Definition namesKept (s : SettingTab.ModelSettings) : Prop :=
  NoDup (map cm_name (SettingTab.models s))
  /\ (forall m, In m (SettingTab.models s) ->
                truthy (cm_name m) = true /\ truthy (cm_modelId m) = true).

(** What is on screen is up to date: the drop-down offers the names of
    the models, and the list shows the models but for the ones added
    since it was drawn. *)
Definition controlsKept (c : SettingTab.ModelControls) : Prop :=
  modelsKept (SettingTab.current c)
  /\ SettingTab.options c
     = map cm_name (SettingTab.models (SettingTab.current c))
  /\ exists later,
       SettingTab.models (SettingTab.current c)
       = (SettingTab.entries c ++ later)%list.

(** Two models, the second one selected. *)
Definition modelA : CustomModel :=
  {| cm_name := "A"; cm_provider := "google";
     cm_modelId := "gemini-1.5-pro" |}.

Definition modelB : CustomModel :=
  {| cm_name := "B"; cm_provider := "openrouter";
     cm_modelId := "openai/gpt-4" |}.

Definition secondSelected : SettingTab.ModelSettings :=
  {| SettingTab.models := [modelA; modelB]; SettingTab.selected := "B" |}.

(** The fields of a local date that a file name is made of, and the
    ranges a four-digit calendar date keeps them in. *)
Definition dateFields (clock : Engine.Clock) (t : Z)
  : nat * nat * nat * nat * nat * nat :=
  (Engine.getFullYear clock t, Engine.getMonth clock t,
   Engine.getDate clock t, Engine.getHours clock t,
   Engine.getMinutes clock t, Engine.getSeconds clock t).

Definition calendarDate (clock : Engine.Clock) (t : Z) : Prop :=
  (1000 <= Engine.getFullYear clock t < 10 * 1000)%nat
  /\ (Engine.getMonth clock t < 12)%nat
  /\ (Engine.getDate clock t <= 31)%nat
  /\ (Engine.getHours clock t < 24)%nat
  /\ (Engine.getMinutes clock t < 60)%nat
  /\ (Engine.getSeconds clock t < 60)%nat.

(** The text of one recognition frame, and frames without an error. *)
Definition asrTextOf (data : Sockets.AsrData) : string :=
  match Sockets.asr_result data with
  | Sockets.Words ws => Sockets.join (map Sockets.join ws)
  | _ => ""%string
  end.

Definition asrReadable (data : Sockets.AsrData) : Prop :=
  match Sockets.asr_result data with
  | Sockets.BadResult _ => False
  | _ => True
  end.

Definition asrFrames (datas : list Sockets.AsrData)
  : list (Sockets.Event Sockets.AsrFrame) :=
  map (fun data =>
         Sockets.Message (Sockets.AsrParsed 0 "success" (Some data)))
      datas.

(** Synthesis frames that carry the given pieces of audio, the last one
    with status 2. *)
Fixpoint ttsFrames (chunks : list string)
  : list (Sockets.Event Sockets.TtsFrame) :=
  match chunks with
  | [] => []
  | [audio] =>
      [ Sockets.Message
          (Sockets.TtsParsed 0 "success"
             (Some {| Sockets.tts_audio := Some audio;
                      Sockets.tts_status := 2 |})) ]
  | audio :: rest =>
      Sockets.Message
        (Sockets.TtsParsed 0 "success"
           (Some {| Sockets.tts_audio := Some audio;
                    Sockets.tts_status := 1 |}))
      :: ttsFrames rest
  end.

(** A resolved recognition is not the empty text. *)
Definition asrNotEmpty (s : Sockets.Asr) : Prop :=
  forall text, Sockets.asr_promise s = Some (Resolved text) ->
               truthy text = true.

Definition sparkNotEmpty (s : Sockets.Spark) : Prop :=
  forall text, Sockets.spark_promise s = Some (Resolved text) ->
               truthy text = true.

(** Once the promise of a Spark call is settled its timer is cleared. *)
Definition sparkTimerCleared (s : Sockets.Spark) : Prop :=
  Sockets.spark_promise s <> None -> Sockets.spark_timeout s = false.

(** What one callback does to the playback streams: nothing; it pauses
    the stream held in [currentAudio] and keeps or drops the handle; a
    stream that was playing ends; a new stream starts and takes the
    handle; the stream held in [currentAudio] is resumed. *)
Inductive AudioMove (e : Engine.Event) (p q : Engine.Plugin) : Prop :=
| move_none :
    Engine.audios q = Engine.audios p ->
    Engine.currentAudio q = Engine.currentAudio p ->
    AudioMove e p q
| move_pause (a : Engine.AudioId) (keep : bool) :
    Engine.currentAudio p = Some a ->
    Engine.audios q = Engine.replaceNth a true (Engine.audios p) ->
    Engine.currentAudio q = (if keep then Some a else None) ->
    AudioMove e p q
| move_end (a : Engine.AudioId) :
    Engine.paused a p = false ->
    Engine.audios q = Engine.replaceNth a true (Engine.audios p) ->
    Engine.currentAudio q = None ->
    AudioMove e p q
| move_new (base64Audio : string) (decoded : Blob) :
    e = Engine.SynthesisAnswered
          (Engine.SynthesisAudio base64Audio (Resolved decoded)) ->
    Engine.audios q
    = Engine.replaceNth (List.length (Engine.audios p)) false
        (Engine.audios p ++ [true])%list ->
    Engine.currentAudio q = Some (List.length (Engine.audios p)) ->
    AudioMove e p q
| move_resume (a : Engine.AudioId) :
    Engine.currentAudio p = Some a ->
    Engine.audios q = Engine.replaceNth a false (Engine.audios p) ->
    Engine.currentAudio q = Some a ->
    AudioMove e p q.

(** Every stream that plays is the one held in [currentAudio]. *)
Definition playingIsCurrent (p : Engine.Plugin) : Prop :=
  forall a, Engine.paused a p = false -> Engine.currentAudio p = Some a.

(** The callbacks of a run are admitted one after the other. *)
Fixpoint allowedAlong (clock : Engine.Clock)
         (allowed : Engine.Plugin -> Engine.Event -> Prop)
         (events : list Engine.Event) (p : Engine.Plugin) : Prop :=
  match events with
  | [] => True
  | e :: rest =>
      allowed p e /\ allowedAlong clock allowed rest (Engine.step clock e p)
  end.

(** What the synthesis service answers for a reply. *)
Definition replyAudio : Engine.Synthesis :=
  Engine.SynthesisAudio "UklGRg==" (Resolved (segment 2)).

(** A turn with synthesis on, up to the reply being played. *)
Definition replyPlaying : list Engine.Event :=
  [ Engine.StartConversationCommand;
    Engine.TurnRecorded (Resolved (segment 1));
    Engine.TurnRecognized (Resolved "你好"%string);
    Engine.TurnResponded "你好" (Resolved "你好！"%string) 1000%Z;
    Engine.SynthesisAnswered replyAudio ].

(** The monitor gets the microphone and hears the user twice (reading 50
    over the threshold 30): the poll timer 2 is pending with a count
    of 2. *)
Definition heardTwice : list Engine.Event :=
  (replyPlaying
   ++ [ Engine.MonitorGranted 50%Q; Engine.TimerFired 1%nat 50%Q ])%list.

(** The ids of the pending silence timers. *)
Fixpoint silenceIdsOf (timers : list (Engine.TimerId * Engine.Callback))
  : list Engine.TimerId :=
  match timers with
  | [] => []
  | (id, Engine.SilenceExpired) :: rest => id :: silenceIdsOf rest
  | _ :: rest => silenceIdsOf rest
  end.

(** Every pending silence timer is the one held in [silenceTimer]. *)
Definition silenceKept (p : Engine.Plugin) : Prop :=
  forall id, In id (silenceIdsOf (Engine.timers p)) ->
             Engine.silenceTimer p = Some id.

(** Dictation starting at the top of a note, at time 0. *)
Definition dictationStart : Dictation.State :=
  Dictation.start {| Dictation.line := 0; Dictation.ch := 0 |} 0.

(** A capture in which the user speaks, and one in which nothing is
    heard, [now] milliseconds after the start; the recogniser answers
    [answer] if it is asked. *)
Definition voicedCapture (now : Z) : Dictation.Capture :=
  {| Dictation.captured := Resolved (segment 1);
     Dictation.decoded := Resolved loudSegment;
     Dictation.time := now;
     Dictation.recognized := Resolved ""%string;
     Dictation.stopped := false |}.

Definition silentCapture (now : Z) (answer : outcome string)
  : Dictation.Capture :=
  {| Dictation.captured := Resolved (segment 0);
     Dictation.decoded := Resolved quietSegment;
     Dictation.time := now;
     Dictation.recognized := answer;
     Dictation.stopped := false |}.

(** Dictation after one voiced capture at 500 ms. *)
Definition oneChunk : Dictation.State :=
  fst (Dictation.pass PrimFloat.sqrt square DEFAULT_SETTINGS (voicedCapture 500)
         dictationStart).

(** A turn whose recording fails. *)
Definition failedRecording : Engine.TurnAnswers :=
  {| Engine.recording := Rejected "NotAllowedError"%string;
     Engine.recognition := Resolved "hello"%string;
     Engine.reply := Resolved "hi"%string;
     Engine.synthesis := Engine.SynthesisWithoutAudio;
     Engine.ending := Engine.PlayedToEnd;
     Engine.now := 1000%Z |}.

(** A session opened by the wake word (synthesis off), with one completed
    turn. *)
Definition wakeTurn : list Engine.Event :=
  [ Engine.WakeWordDetected 500%Z;
    Engine.TurnRecorded (Resolved (segment 1));
    Engine.TurnRecognized (Resolved "你好"%string);
    Engine.TurnResponded "你好" (Resolved "你好！"%string) 1000%Z ].

Definition wakeTurnSession : Engine.Plugin :=
  Engine.run fixedClock wakeTurn (Engine.initial DEFAULT_SETTINGS).

(** The state in which the wake word is acknowledged aloud: synthesis and
    audio saving are on. *)
Definition acknowledged (p : Engine.Plugin) : Engine.Plugin :=
  Engine.onWakeWordDetected_acknowledged true (Resolved tt)
    (fst (Engine.speak replyAudio Engine.PlayedToEnd
            (fst (Engine.onWakeWordDetected_begin p)))).

(** The default settings with other custom prompts. *)
Definition withPrompts (prompts : list CustomPrompt)
  : VoiceAssistantSettings :=
  let s := DEFAULT_SETTINGS in
  {| llmProvider := llmProvider s; googleApiKey := googleApiKey s;
     googleModel := googleModel s; openrouterApiKey := openrouterApiKey s;
     openrouterModel := openrouterModel s; xunfeiAppId := xunfeiAppId s;
     xunfeiApiKey := xunfeiApiKey s; xunfeiApiSecret := xunfeiApiSecret s;
     xunfeiModel := xunfeiModel s; customModels := customModels s;
     selectedCustomModel := selectedCustomModel s; wakeMode := wakeMode s;
     wakeWords := wakeWords s;
     autoEnterDialogAfterWake := autoEnterDialogAfterWake s;
     wakeDetectionInterval := wakeDetectionInterval s;
     continuousDialogDuration := continuousDialogDuration s;
     showDialogControls := showDialogControls s;
     conversationSaveFolder := conversationSaveFolder s;
     dictationSilenceTimeout := dictationSilenceTimeout s;
     dictationSilenceInterval := dictationSilenceInterval s;
     voiceDetectionThreshold := voiceDetectionThreshold s;
     voiceDetectionSensitivity := voiceDetectionSensitivity s;
     enableVoiceInterruption := enableVoiceInterruption s;
     customPrompts := prompts; ttsMode := ttsMode s;
     ttsVoice := ttsVoice s; ttsSpeed := ttsSpeed s; ttsVolume := ttsVolume s;
     ttsPitch := ttsPitch s; saveAudioToVault := saveAudioToVault s;
     audioSavePath := audioSavePath s; sampleRate := sampleRate s;
     channels := channels s; audioFormat := audioFormat s;
     enableDebugLog := enableDebugLog s |}.

(** Three prompts: the first is switched off, the other two have triggers
    written with capitals. *)
Definition offPrompt : CustomPrompt :=
  {| name := "off"; trigger := "remind"; prompt := "Ignore this.";
     enabled := false |}.

Definition taskPrompt : CustomPrompt :=
  {| name := "task"; trigger := "Remind Me"; prompt := "Write a task.";
     enabled := true |}.

Definition noonPrompt : CustomPrompt :=
  {| name := "noon"; trigger := "NOON"; prompt := "Write a time.";
     enabled := true |}.

Definition threePrompts : list CustomPrompt :=
  [offPrompt; taskPrompt; noonPrompt].

(* ================================================================== *)
(** * Results *)
(* ================================================================== *)

Unset Implicit Arguments.

(** ** Strings *)

Lemma prefix_app (a b : string) : prefix a (a ++ b) = true.
Proof.
  induction a as [|c a IH]; simpl.
  - now destruct b.
  - destruct (ascii_dec c c) as [_|n]; [exact IH | now elim n].
Qed.

Lemma prefix_split (a s : string) :
  prefix a s = true -> exists b, s = (a ++ b)%string.
Proof.
  revert s; induction a as [|c a IH]; intros s H.
  - now exists s.
  - destruct s as [|d s]; simpl in H; [discriminate|].
    destruct (ascii_dec c d) as [->|_]; [|discriminate].
    destruct (IH _ H) as [b ->]. now exists b.
Qed.

(** [includes] finds exactly the substrings. *)
Lemma includes_spec (s sub : string) :
  includes s sub = true <-> exists a b, s = (a ++ sub ++ b)%string.
Proof.
  split.
  - induction s as [|c s IH]; cbn [includes].
    + destruct (prefix sub "") eqn:E; [|easy].
      intros _. destruct (prefix_split _ _ E) as [b Hb].
      now exists ""%string, b.
    + destruct (prefix sub (String c s)) eqn:E.
      * intros _. destruct (prefix_split _ _ E) as [b Hb].
        now exists ""%string, b.
      * intros H. destruct (IH H) as (a & b & ->).
        now exists (String c a), b.
  - intros (a & b & ->). induction a as [|c a IH].
    + assert (H : prefix sub (sub ++ b) = true) by apply prefix_app.
      cbn [append]. destruct (sub ++ b)%string; cbn [includes]; now rewrite H.
    + cbn [append includes].
      destruct (prefix sub (String c (a ++ sub ++ b))); [reflexivity|exact IH].
Qed.

(** ** Custom prompts *)

Section CustomPrompts.

Variable toLowerCase : string -> string.

(** The trigger of [p], lower-cased, occurs in the lower-cased text. *)
Local Abbreviation hit text p :=
  (exists a b,
      toLowerCase text = (a ++ toLowerCase (trigger p) ++ b)%string).

Lemma matches_spec (text : string) (p : CustomPrompt) :
  Prompts.matches toLowerCase text p = true <-> hit text p.
Proof. unfold Prompts.matches. apply includes_spec. Qed.

Lemma scanPrompts_none (ps : list CustomPrompt) (text : string) :
  (forall p, In p ps -> enabled p = true -> ~ hit text p) ->
  Prompts.scanPrompts toLowerCase ps text = text.
Proof.
  induction ps as [|p ps IH]; intros H; cbn [Prompts.scanPrompts].
  - reflexivity.
  - destruct (enabled p) eqn:En; cbn [negb].
    + destruct (Prompts.matches toLowerCase text p) eqn:M.
      * exfalso. apply (H p); [now left | exact En | now apply matches_spec].
      * apply IH. intros q Hq. apply H. now right.
    + apply IH. intros q Hq. apply H. now right.
Qed.

Lemma scanPrompts_first (before after : list CustomPrompt)
      (p : CustomPrompt) (text : string) :
  enabled p = true -> hit text p ->
  (forall q, In q before -> enabled q = true -> ~ hit text q) ->
  Prompts.scanPrompts toLowerCase (before ++ p :: after) text
  = Prompts.combine p text.
Proof.
  intros En M. induction before as [|q before IH]; intros H;
    cbn [app Prompts.scanPrompts].
  - rewrite En. cbn [negb]. apply matches_spec in M. now rewrite M.
  - destruct (enabled q) eqn:Eq; cbn [negb].
    + destruct (Prompts.matches toLowerCase text q) eqn:Mq.
      * exfalso. apply (H q); [now left | exact Eq | now apply matches_spec].
      * apply IH. intros r Hr. apply H. now right.
    + apply IH. intros r Hr. apply H. now right.
Qed.

Lemma scanPrompts_enabled_only (ps : list CustomPrompt) (text : string) :
  Prompts.scanPrompts toLowerCase (filter enabled ps) text
  = Prompts.scanPrompts toLowerCase ps text.
Proof.
  induction ps as [|p ps IH]; cbn [filter Prompts.scanPrompts];
    [reflexivity|].
  destruct (enabled p) eqn:En; cbn [negb Prompts.scanPrompts].
  - rewrite En. cbn [negb]. now rewrite IH.
  - exact IH.
Qed.

Lemma processCustomPrompts_scan (settings : VoiceAssistantSettings)
      (text : string) :
  Prompts.processCustomPrompts toLowerCase settings text
  = Prompts.scanPrompts toLowerCase (customPrompts settings) text.
Proof.
  unfold Prompts.processCustomPrompts. now destruct (customPrompts settings).
Qed.

End CustomPrompts.

(** The folding of ASCII letters, character by character. *)
Lemma capital_spec (n : nat) :
  reflect (65 <= n <= 90)%nat ((65 <=? n) && (n <=? 90))%nat.
Proof.
  destruct (Nat.leb_spec0 65 n), (Nat.leb_spec0 n 90); cbn; constructor;
    lia.
Qed.

Lemma lowerChar_sameLetter (c d : ascii) :
  lowerChar c = lowerChar d <-> Prompts.sameLetter c d.
Proof.
  unfold lowerChar, Prompts.sameLetter, Prompts.capitalOf. cbv zeta.
  pose proof (nat_ascii_bounded c) as Bc.
  pose proof (nat_ascii_bounded d) as Bd.
  destruct (capital_spec (nat_of_ascii c)) as [Uc|Uc],
    (capital_spec (nat_of_ascii d)) as [Ud|Ud].
  - split.
    + intros E. left. apply (f_equal nat_of_ascii) in E.
      rewrite !nat_ascii_embedding in E by lia.
      rewrite <- (ascii_nat_embedding c), <- (ascii_nat_embedding d).
      f_equal. lia.
    + intros [->|[[_ E]|[_ E]]]; [reflexivity | lia | lia].
  - split.
    + intros E. right. left. split; [lia|].
      rewrite <- E. rewrite nat_ascii_embedding by lia. reflexivity.
    + intros [->|[[_ E]|[U E]]]; [lia | | lia].
      rewrite <- E. apply ascii_nat_embedding.
  - split.
    + intros E. right. right. split; [lia|].
      rewrite E. rewrite nat_ascii_embedding by lia. reflexivity.
    + intros [->|[[U E]|[_ E]]]; [lia | lia |].
      rewrite <- E. symmetry. apply ascii_nat_embedding.
  - split.
    + intros E. now left.
    + intros [->|[[U E]|[U E]]]; [reflexivity | lia | lia].
Qed.

Lemma toLowerCase_sameUpToCase (s t : string) :
  toLowerCase s = toLowerCase t <-> Prompts.sameUpToCase s t.
Proof.
  split.
  - revert t. induction s as [|c s IH]; intros [|d t] E; cbn in E;
      try discriminate E.
    + constructor.
    + injection E as Ec Es. constructor; [now apply lowerChar_sameLetter|].
      now apply IH.
  - intros H. induction H as [|c d r s L _ IH]; cbn; [reflexivity|].
    apply lowerChar_sameLetter in L. now rewrite L, IH.
Qed.

Lemma toLowerCase_app (a b : string) :
  toLowerCase (a ++ b) = (toLowerCase a ++ toLowerCase b)%string.
Proof. induction a as [|c a IH]; cbn; [reflexivity | now rewrite IH]. Qed.

Lemma toLowerCase_split (s x y : string) :
  toLowerCase s = (x ++ y)%string ->
  exists s1 s2,
    s = (s1 ++ s2)%string /\ toLowerCase s1 = x /\ toLowerCase s2 = y.
Proof.
  revert s. induction x as [|c x IH]; intros s E.
  - exists ""%string, s. now repeat split.
  - destruct s as [|d s]; cbn in E; [discriminate E|].
    injection E as Ec Es. destruct (IH s Es) as (s1 & s2 & -> & E1 & E2).
    exists (String d s1), s2. cbn. now rewrite Ec, E1.
Qed.

(** For the letters of ASCII, the test of the code is the occurrence up to
    case. *)
Lemma includes_ci_substring (text sub : string) :
  (exists a b, toLowerCase text = (a ++ toLowerCase sub ++ b)%string)
  <-> Prompts.ci_substring sub text.
Proof.
  unfold Prompts.ci_substring. split.
  - intros (a & b & E).
    destruct (toLowerCase_split _ _ _ E) as (s1 & rest & -> & E1 & E2).
    destruct (toLowerCase_split _ _ _ E2) as (mid & s3 & -> & Em & E3).
    exists s1, mid, s3. split; [reflexivity|].
    now apply toLowerCase_sameUpToCase.
  - intros (a & mid & b & -> & S). apply toLowerCase_sameUpToCase in S.
    exists (toLowerCase a), (toLowerCase b).
    now rewrite !toLowerCase_app, S.
Qed.

(** C10.  [processCustomPrompts] returns the recognised text unchanged when
    no enabled prompt has a trigger that is a case-insensitive substring of
    it; otherwise the first enabled matching prompt, in configuration order,
    is the one applied, and the result is its instruction text, the fixed
    separator and the original text; removing the disabled prompts from the
    configuration never changes the result.  A trigger is a
    case-insensitive substring when, both lower-cased by the host's
    [toLowerCase], it occurs in the text; for a text and a trigger of ASCII
    characters, on which [toLowerCase] folds the letters A to Z, that is:
    a stretch of the text is the trigger letter by letter, capitals and
    small letters taken for the same. *)
Theorem processCustomPrompts_applies_first_enabled_match
        (toLowerCase : string -> string)
        (settings : VoiceAssistantSettings) (text : string) :
  (forall s, Prompts.isAscii s = true -> toLowerCase s = Js.toLowerCase s) ->
  let hit p :=
    exists a b,
      toLowerCase text = (a ++ toLowerCase (trigger p) ++ b)%string in
  ((forall p, In p (customPrompts settings) -> enabled p = true -> ~ hit p) ->
   Prompts.processCustomPrompts toLowerCase settings text = text)
  /\ (forall before p after,
         customPrompts settings = (before ++ p :: after)%list ->
         enabled p = true -> hit p ->
         (forall q, In q before -> enabled q = true -> ~ hit q) ->
         Prompts.processCustomPrompts toLowerCase settings text
         = (prompt p ++ Prompts.separator ++ text)%string)
  /\ Prompts.scanPrompts toLowerCase (filter enabled (customPrompts settings))
                         text
     = Prompts.processCustomPrompts toLowerCase settings text
  /\ (Prompts.isAscii text = true ->
      forall p, Prompts.isAscii (trigger p) = true ->
                (hit p <-> Prompts.ci_substring (trigger p) text)).
Proof.
  intros A hit. rewrite processCustomPrompts_scan. repeat split.
  - apply scanPrompts_none.
  - intros before p after -> En M H. now apply scanPrompts_first.
  - apply scanPrompts_enabled_only.
  - subst hit. cbv beta. rewrite (A _ H), (A _ H0).
    apply includes_ci_substring.
  - subst hit. cbv beta. rewrite (A _ H), (A _ H0).
    apply includes_ci_substring.
Qed.

Lemma processCustomPrompts_applies_first_enabled_match_witness :
  Prompts.processCustomPrompts Js.toLowerCase (withPrompts threePrompts)
    "please REMIND me at noon"
  = ("Write a task." ++ Prompts.separator
     ++ "please REMIND me at noon")%string
  /\ Prompts.ci_substring "Remind Me" "please REMIND me at noon".
Proof.
  destruct (processCustomPrompts_applies_first_enabled_match
              Js.toLowerCase (withPrompts threePrompts)
              "please REMIND me at noon" (fun s _ => eq_refl))
    as (_ & F & _ & C).
  assert (H : exists a b,
             Js.toLowerCase "please REMIND me at noon"
             = (a ++ Js.toLowerCase "Remind Me" ++ b)%string)
    by (exists "please "%string, " at noon"%string; reflexivity).
  split.
  - apply (F [offPrompt] taskPrompt [noonPrompt]).
    + reflexivity.
    + reflexivity.
    + exact H.
    + intros q [<-|[]] En. discriminate En.
  - apply (C eq_refl taskPrompt eq_refl). exact H.
Defined.

(** ** Pre-recording buffer *)

Lemma addToPreRecordingBuffer_bounded (audioBlob : Blob) (buffer : list Blob) :
  (List.length buffer <= PreRecording.preRecordingBufferSize)%nat ->
  (List.length (PreRecording.addToPreRecordingBuffer audioBlob buffer)
   <= PreRecording.preRecordingBufferSize)%nat.
Proof.
  unfold PreRecording.addToPreRecordingBuffer, PreRecording.shift.
  intros H. destruct (Nat.ltb_spec PreRecording.preRecordingBufferSize
                                   (List.length (buffer ++ [audioBlob]))) as [L|L];
    [|exact L].
  rewrite length_app in L. cbn [List.length] in L.
  destruct buffer as [|b buffer]; cbn [app tl List.length] in *.
  - unfold PreRecording.preRecordingBufferSize. lia.
  - rewrite length_app. cbn [List.length]. lia.
Qed.

Lemma addToPreRecordingBuffer_full (audioBlob : Blob) (buffer : list Blob) :
  List.length buffer = PreRecording.preRecordingBufferSize ->
  PreRecording.addToPreRecordingBuffer audioBlob buffer
  = (tl buffer ++ [audioBlob])%list.
Proof.
  unfold PreRecording.addToPreRecordingBuffer, PreRecording.shift.
  intros H. rewrite length_app, H. cbn [List.length].
  destruct buffer as [|b buffer]; [discriminate H|reflexivity].
Qed.

Lemma addToPreRecordingBuffer_room (audioBlob : Blob) (buffer : list Blob) :
  (List.length buffer < PreRecording.preRecordingBufferSize)%nat ->
  PreRecording.addToPreRecordingBuffer audioBlob buffer
  = (buffer ++ [audioBlob])%list.
Proof.
  unfold PreRecording.addToPreRecordingBuffer. intros H.
  destruct (Nat.ltb_spec PreRecording.preRecordingBufferSize
                         (List.length (buffer ++ [audioBlob]))) as [L|L];
    [|reflexivity].
  rewrite length_app in L. cbn [List.length] in L. lia.
Qed.

(** ** The event loop: unfolding a callback down to the record *)

Create HintDb engine discriminated.

#[local] Hint Unfold
  Engine.step Engine.runCallback Engine.endDialogWithSummary_call
  Engine.startVoiceConversation_begin Engine.endContinuousDialog
  Engine.toggleTTSPlayback Engine.stopTTS Engine.settle
  Engine.processSingleConversation_recorded
  Engine.processSingleConversation_recognized
  Engine.processSingleConversation_responded
  Engine.processSingleConversation_spoken
  Engine.processSingleConversationWithBuffer_recorded
  Engine.processSingleConversationWithBuffer_recognized
  Engine.processSingleConversationWithBuffer_responded
  Engine.processSingleConversationWithBuffer_spoken
  Engine.processSingleConversationWithBuffer_catch
  Engine.processSingleConversationWithBuffer_begin
  Engine.textToSpeech_answered Engine.textToSpeech
  Engine.playAudioFromBase64 Engine.onended Engine.onerror
  Engine.startBackgroundVoiceDetection_granted
  Engine.startBackgroundVoiceDetection_denied
  Engine.startPreRecordingBuffer_denied Engine.addToPreRecordingBuffer
  Engine.generateSummary_answered Engine.generateSummary_saved
  Engine.generateSummary_begin
  Engine.endContinuousDialogWithSummary_finish
  Engine.endContinuousDialogWithSummary_begin Engine.leaveDialog
  Engine.onWakeWordDetected_begin Engine.onWakeWordDetected_acknowledged
  Engine.enterDialogAfterWake Engine.startNewWakeSession
  Engine.endWakeSession Engine.startContinuousDialog
  Engine.processSingleConversation_begin Engine.startRecording
  Engine.waitForNextTurn Engine.recordTurn Engine.insertToNote
  Engine.startVoiceConversation_catch Engine.checkVolume
  Engine.handleVoiceInterruption Engine.stopCurrentPlayback
  Engine.startSilenceDetection Engine.clearSilenceTimer
  Engine.stopBackgroundVoiceDetection Engine.startBackgroundVoiceDetection
  Engine.startPreRecordingBuffer Engine.stopPreRecordingBuffer
  Engine.getPreRecordingBufferAudio Engine.emit Engine.setTimeout
  Engine.clearTimeout Engine.newAudio Engine.audioPlay Engine.audioPause
  : engine.

(** Splits on the innermost test of a conditional or a [match]. *)
Ltac split_cases :=
  repeat (cbn; unfold negb, andb, orb;
          match goal with
          | |- context [match ?x with _ => _ end] =>
              lazymatch x with
              | context [match _ with _ => _ end] => fail
              | _ => destruct x eqn:?
              end
          end);
  cbn.

(** Reads a field through the setters and [emit]. *)
Ltac fields :=
  cbn [fst snd negb andb orb
       Engine.settings Engine.currentAudio Engine.isPlaying
       Engine.isInContinuousDialog Engine.conversationHistory
       Engine.silenceTimer Engine.backgroundVoiceDetection
       Engine.voiceDetectionTimer Engine.preRecordingBuffer
       Engine.isPreRecording Engine.isWakeConversation Engine.wakeSessionId
       Engine.wakeSessionFileName Engine.wakeSessionAudioSaved Engine.timers
       Engine.nextTimer Engine.audios Engine.effects
       Engine.set_settings Engine.set_currentAudio Engine.set_isPlaying
       Engine.set_isInContinuousDialog Engine.set_conversationHistory
       Engine.set_silenceTimer Engine.set_backgroundVoiceDetection
       Engine.set_voiceDetectionTimer Engine.set_preRecordingBuffer
       Engine.set_isPreRecording Engine.set_isWakeConversation
       Engine.set_wakeSessionId Engine.set_wakeSessionFileName
       Engine.set_wakeSessionAudioSaved Engine.set_timers Engine.set_nextTimer
       Engine.set_audios Engine.set_effects Engine.emit].

Lemma reachable_run (clock : Engine.Clock)
      (loaded : VoiceAssistantSettings) (events : list Engine.Event)
      (p : Engine.Plugin) :
  Engine.reachable clock Engine.anyEvent loaded p ->
  Engine.reachable clock Engine.anyEvent loaded (Engine.run clock events p).
Proof.
  revert p. induction events as [|e events IH]; intros p H; cbn.
  - exact H.
  - apply IH. now apply Engine.reachable_step.
Qed.

Lemma step_keeps_buffer_bounded (clock : Engine.Clock) (e : Engine.Event)
      (p : Engine.Plugin) :
  (List.length (Engine.preRecordingBuffer p)
   <= PreRecording.preRecordingBufferSize)%nat ->
  (List.length (Engine.preRecordingBuffer (Engine.step clock e p))
   <= PreRecording.preRecordingBufferSize)%nat.
Proof.
  intros H. destruct e; autounfold with engine.
  all: split_cases;
    first [ exact H
          | apply Nat.le_0_l
          | now apply addToPreRecordingBuffer_bounded ].
Qed.

(** C7.  In every state the plugin can reach, whatever the order of the
    callbacks, the pre-recording buffer holds at most
    [preRecordingBufferSize] = 10 segments; pushing a segment into a full
    buffer drops exactly the oldest one and keeps the others in order,
    followed by the new one; pushing into a buffer with room only appends. *)
Theorem preRecordingBuffer_bounded_and_fifo
        (clock : Engine.Clock) (loaded : VoiceAssistantSettings)
        (p : Engine.Plugin) :
  Engine.reachable clock Engine.anyEvent loaded p ->
  PreRecording.preRecordingBufferSize = 10%nat
  /\ (List.length (Engine.preRecordingBuffer p) <= 10)%nat
  /\ (forall audioBlob oldest others,
         Engine.preRecordingBuffer p = oldest :: others ->
         List.length (Engine.preRecordingBuffer p) = 10%nat ->
         Engine.preRecordingBuffer (Engine.addToPreRecordingBuffer audioBlob p)
         = (others ++ [audioBlob])%list)
  /\ (forall audioBlob,
         (List.length (Engine.preRecordingBuffer p) < 10)%nat ->
         Engine.preRecordingBuffer (Engine.addToPreRecordingBuffer audioBlob p)
         = (Engine.preRecordingBuffer p ++ [audioBlob])%list).
Proof.
  intros R. split; [reflexivity|]. split; [|split].
  - induction R as [|p e R IH _]; [apply Nat.le_0_l|].
    now apply step_keeps_buffer_bounded.
  - intros audioBlob oldest others E L. cbn.
    rewrite addToPreRecordingBuffer_full by exact L. now rewrite E.
  - intros audioBlob L. cbn. now apply addToPreRecordingBuffer_room.
Qed.

Lemma preRecordingBuffer_bounded_and_fifo_witness :
  let p := Engine.run fixedClock elevenSegments
                      (Engine.initial DEFAULT_SETTINGS) in
  (List.length (Engine.preRecordingBuffer p) <= 10)%nat
  /\ Engine.preRecordingBuffer
       (Engine.addToPreRecordingBuffer (segment 11) p)
     = map segment (seq 2 10).
Proof.
  intros p.
  destruct (preRecordingBuffer_bounded_and_fifo
              fixedClock DEFAULT_SETTINGS p) as (_ & B & F & _).
  - apply reachable_run. constructor.
  - split; [exact B|].
    exact (F (segment 11) (segment 1) (map segment (seq 2 9))
             eq_refl eq_refl).
Defined.

(** ** Voice-activity classifier *)

Section Classifier.

Import PrimFloat SpecFloat FloatOps.

Local Open Scope float_scope.






Variable sqrt : float -> float.
Variable pow : float -> float -> float.









End Classifier.



#[local] Hint Unfold
  Engine.speak Engine.acknowledgeWake Engine.startVoiceConversation
  Engine.processSingleConversation_rest
  Engine.processSingleConversationWithBuffer
  Engine.processSingleConversationWithBuffer_rest Engine.generateSummary
  Engine.endContinuousDialogWithSummary : engine.

(** ** Wake-word acknowledgement *)

Lemma set_saveAudioToVault_same (s : VoiceAssistantSettings) :
  set_saveAudioToVault (saveAudioToVault s) s = s.
Proof. now destruct s. Qed.

Lemma set_settings_same (p : Engine.Plugin) :
  Engine.set_settings (Engine.settings p) p = p.
Proof. now destruct p. Qed.

(** While the acknowledgement is spoken nothing is written to the vault,
    whatever the service answers. *)
Lemma wake_acknowledgement_is_not_saved
      (answer : Engine.Synthesis) (ending : Engine.PlaybackEnd)
      (p : Engine.Plugin) (base64Audio : string) :
  ttsMode (Engine.settings p) = tts_online ->
  let q := fst (Engine.speak answer ending
                             (fst (Engine.onWakeWordDetected_begin p))) in
  In (Engine.SaveAudioToVault base64Audio) (Engine.effects q) ->
  In (Engine.SaveAudioToVault base64Audio) (Engine.effects p).
Proof.
  intros M. autounfold with engine. cbn. rewrite M. split_cases; intros H.
  all: repeat (apply in_app_or in H; destruct H as [H|H]); try exact H.
  all: cbn in H; destruct H as [H|[]]; discriminate H.
Qed.

(** When the acknowledgement was spoken, or the service sent no audio, the
    settings are again what they were: [saveAudioToVault] has its former
    value and no other field has changed. *)
Lemma wake_acknowledgement_success_restores
      (answer : Engine.Synthesis) (ending : Engine.PlaybackEnd)
      (p q : Engine.Plugin) :
  ttsMode (Engine.settings p) = tts_online ->
  snd (Engine.speak answer ending (fst (Engine.onWakeWordDetected_begin p)))
  = Some (Resolved tt) ->
  Engine.acknowledgeWake answer ending p = Some q ->
  Engine.settings q = Engine.settings p.
Proof.
  intros M. autounfold with engine. cbn. rewrite M. split_cases;
    intros S [= <-]; try discriminate S; cbn;
    now destruct (Engine.settings p).
Qed.

(** C9 (what the code does where the claim fails).  When the synthesis of
    the acknowledgement fails, the [catch] block assigns
    [saveAudioToVault] to itself: the flag keeps the value [false] it was
    given before the synthesis, although it was [true] before the wake
    word; the other settings are unchanged. *)
Theorem wake_acknowledgement_failure_leaves_saving_disabled
        (error : string) (ending : Engine.PlaybackEnd) (p : Engine.Plugin) :
  ttsMode (Engine.settings p) = tts_online ->
  saveAudioToVault (Engine.settings p) = true ->
  exists q,
    Engine.acknowledgeWake (Engine.SynthesisFailed error) ending p = Some q
    /\ saveAudioToVault (Engine.settings q) = false
    /\ Engine.settings q = set_saveAudioToVault false (Engine.settings p).
Proof.
  intros M S. autounfold with engine. cbn. rewrite M. cbn.
  eexists. split; [reflexivity|]. cbn. now split.
Qed.

Lemma wake_acknowledgement_failure_leaves_saving_disabled_witness :
  exists q,
    Engine.acknowledgeWake
      (Engine.SynthesisFailed "TTS WebSocket连接错误") Engine.PlayedToEnd
      (Engine.initial savingSettings) = Some q
    /\ saveAudioToVault (Engine.settings q) = false
    /\ Engine.settings q = set_saveAudioToVault false savingSettings.
Proof.
  exact (wake_acknowledgement_failure_leaves_saving_disabled
           "TTS WebSocket连接错误" Engine.PlayedToEnd
           (Engine.initial savingSettings) eq_refl eq_refl).
Defined.

(** ** Turns and the history *)

Ltac same_view :=
  intros; unfold sessionView, turnOf; autounfold with engine; split_cases;
  first [reflexivity | congruence].

Lemma view_begin (p : Engine.Plugin) :
  Engine.isInContinuousDialog p = true ->
  sessionView (Engine.startVoiceConversation_begin p) = sessionView p.
Proof. intros D. unfold sessionView. autounfold with engine. rewrite D.
       split_cases; first [reflexivity | congruence]. Qed.

Lemma view_recorded (audioBlob : outcome Blob) (p : Engine.Plugin) :
  sessionView (fst (Engine.processSingleConversation_recorded audioBlob p))
  = sessionView p.
Proof. same_view. Qed.

Lemma view_recognized (text : outcome string) (p : Engine.Plugin) :
  sessionView (fst (Engine.processSingleConversation_recognized text p))
  = sessionView p.
Proof. same_view. Qed.

Lemma view_responded (text : string) (response : outcome string) (now : Z)
      (p : Engine.Plugin) :
  sessionView
    (fst (Engine.processSingleConversation_responded text response now p))
  = match response with
    | Resolved response =>
        if truthy response && Engine.isInContinuousDialog p
        then (true, (Engine.conversationHistory p
                     ++ [turnOf text response now])%list)
        else sessionView p
    | Rejected _ => sessionView p
    end.
Proof. same_view. Qed.

Lemma view_speak (answer : Engine.Synthesis) (ending : Engine.PlaybackEnd)
      (p : Engine.Plugin) :
  sessionView (fst (Engine.speak answer ending p)) = sessionView p.
Proof. same_view. Qed.

Lemma view_spoken (speech : outcome unit) (p : Engine.Plugin) :
  sessionView (fst (Engine.processSingleConversation_spoken speech p))
  = sessionView p.
Proof. same_view. Qed.

Lemma view_settle (r : Engine.Plugin * Engine.Next) :
  sessionView (Engine.settle r) = sessionView (fst r).
Proof. destruct r as [p [| |error]]; reflexivity. Qed.

Lemma view_buffered_begin (p : Engine.Plugin) :
  sessionView (snd (Engine.processSingleConversationWithBuffer_begin p))
  = sessionView p.
Proof. same_view. Qed.

Lemma view_buffered_recorded (bufferedAudio : option Blob)
      (newAudioBlob : outcome Blob) (p : Engine.Plugin) :
  sessionView (fst (Engine.processSingleConversationWithBuffer_recorded
                      bufferedAudio newAudioBlob p))
  = sessionView p.
Proof. same_view. Qed.

Lemma view_buffered_recognized (userText : outcome string)
      (p : Engine.Plugin) :
  sessionView (fst (Engine.processSingleConversationWithBuffer_recognized
                      userText p))
  = sessionView p.
Proof. same_view. Qed.

Lemma view_buffered_responded (userText : string)
      (aiResponse : outcome string) (now : Z) (p : Engine.Plugin) :
  sessionView (fst (Engine.processSingleConversationWithBuffer_responded
                      userText aiResponse now p))
  = match aiResponse with
    | Resolved aiResponse =>
        (Engine.isInContinuousDialog p,
         (Engine.conversationHistory p
          ++ [turnOf userText aiResponse now])%list)
    | Rejected _ => sessionView p
    end.
Proof. same_view. Qed.

Lemma view_buffered_spoken (speech : outcome unit) (p : Engine.Plugin) :
  sessionView (fst (Engine.processSingleConversationWithBuffer_spoken
                      speech p))
  = sessionView p.
Proof. same_view. Qed.

(** A segment that stops at an [await] tells which branch it took. *)
Lemma recognized_awaiting (text : outcome string) (p q : Engine.Plugin) :
  Engine.processSingleConversation_recognized text p = (q, Engine.Awaiting) ->
  exists t, text = Resolved t
            /\ truthy t && negb (t =? Engine.notRecognized)%string = true.
Proof.
  unfold Engine.processSingleConversation_recognized.
  destruct text as [t|]; [|discriminate].
  destruct (truthy t) eqn:T; cbn; [|discriminate].
  destruct (t =? Engine.notRecognized)%string eqn:N; cbn; [discriminate|].
  intros _. exists t. now rewrite T, N.
Qed.

Lemma recognized_done (t : string) (p q : Engine.Plugin) (n : Engine.Next) :
  Engine.processSingleConversation_recognized (Resolved t) p = (q, n) ->
  n <> Engine.Awaiting ->
  truthy t && negb (t =? Engine.notRecognized)%string = false.
Proof.
  unfold Engine.processSingleConversation_recognized.
  destruct (truthy t); cbn; [|reflexivity].
  destruct (t =? Engine.notRecognized)%string; cbn; [reflexivity|].
  intros [= _ <-] H. now elim H.
Qed.

Lemma responded_awaiting (text : string) (response : outcome string)
      (now : Z) (p q : Engine.Plugin) :
  Engine.processSingleConversation_responded text response now p
  = (q, Engine.Awaiting) ->
  exists r, response = Resolved r /\ truthy r = true.
Proof.
  unfold Engine.processSingleConversation_responded.
  destruct response as [r|]; [|discriminate].
  destruct (truthy r) eqn:T; cbn; [|discriminate]. intros _. now exists r.
Qed.

Lemma view_eq (p q : Engine.Plugin) :
  sessionView p = sessionView q ->
  Engine.isInContinuousDialog p = Engine.isInContinuousDialog q
  /\ Engine.conversationHistory p = Engine.conversationHistory q.
Proof. unfold sessionView. now intros [= -> ->]. Qed.

(** What a turn started by the command leaves in the history of a running
    session: one entry when the recognised text is accepted and the reply
    is not empty, nothing otherwise. *)
Lemma dialog_turn_view (a : Engine.TurnAnswers) (p : Engine.Plugin) :
  Engine.isInContinuousDialog p = true ->
  sessionView (Engine.startVoiceConversation a p)
  = match Engine.recording a, Engine.recognition a, Engine.reply a with
    | Resolved _, Resolved text, Resolved response =>
        if truthy text && negb (text =? Engine.notRecognized)%string
           && truthy response
        then (true, (Engine.conversationHistory p
                     ++ [turnOf text response (Engine.now a)])%list)
        else sessionView p
    | _, _, _ => sessionView p
    end.
Proof.
  intros D.
  unfold Engine.startVoiceConversation. rewrite view_settle.
  pose proof (view_begin p D) as V0.
  destruct (view_eq _ _ V0) as [D0 H0]. rewrite D in D0.
  rewrite <- V0, <- H0.
  clear V0 H0.
  generalize dependent (Engine.startVoiceConversation_begin p).
  clear D p. intros p0 D0.
  unfold Engine.processSingleConversation_rest.
  destruct (Engine.recording a) as [blob|error]; cbn [fst
    Engine.processSingleConversation_recorded]; [|reflexivity].
  destruct (Engine.recognition a) as [t|error]; [|reflexivity].
  pose proof (view_recognized (Resolved t) (Engine.emit (Engine.SpeechToText blob) p0)) as V2.
  destruct (Engine.processSingleConversation_recognized
              (Resolved t) (Engine.emit (Engine.SpeechToText blob) p0))
    as [p2 n2] eqn:E2.
  cbn [fst] in V2. change (sessionView (Engine.emit (Engine.SpeechToText blob) p0))
    with (sessionView p0) in V2.
  destruct (view_eq _ _ V2) as [D2 H2]. rewrite D0 in D2.
  destruct n2.
  2,3: rewrite (recognized_done _ _ _ _ E2) by discriminate;
       cbn [andb fst]; now destruct (Engine.reply a).
  destruct (recognized_awaiting _ _ _ E2) as (t' & [= <-] & A). rewrite A.
  cbn [andb].
  pose proof (view_responded t (Engine.reply a) (Engine.now a) p2) as V3.
  destruct (Engine.processSingleConversation_responded
              t (Engine.reply a) (Engine.now a) p2) as [p3 n3] eqn:E3.
  cbn [fst] in V3. rewrite D2, H2, V2 in V3.
  destruct n3; cbn [fst].
  - destruct (responded_awaiting _ _ _ _ _ E3) as (r & R & T).
    rewrite R in *. rewrite T in *. cbn [andb] in V3.
    pose proof (view_speak (Engine.synthesis a) (Engine.ending a) p3) as V4.
    destruct (Engine.speak (Engine.synthesis a) (Engine.ending a) p3)
      as [p4 [speech|]]; cbn [fst] in V4.
    + rewrite view_spoken. congruence.
    + cbn [fst]. congruence.
  - rewrite V3. destruct (Engine.reply a) as [r|]; [|reflexivity].
    now rewrite andb_true_r.
  - rewrite V3. destruct (Engine.reply a) as [r|]; [|reflexivity].
    now rewrite andb_true_r.
Qed.

Lemma dialog_turn_history (a : Engine.TurnAnswers) (p : Engine.Plugin) :
  Engine.isInContinuousDialog p = true ->
  Engine.conversationHistory (Engine.startVoiceConversation a p)
  = match Engine.recording a, Engine.recognition a, Engine.reply a with
    | Resolved _, Resolved text, Resolved response =>
        if truthy text && negb (text =? Engine.notRecognized)%string
           && truthy response
        then (Engine.conversationHistory p
              ++ [turnOf text response (Engine.now a)])%list
        else Engine.conversationHistory p
    | _, _, _ => Engine.conversationHistory p
    end.
Proof.
  intros D. pose proof (dialog_turn_view a p D) as V.
  apply (f_equal snd) in V. cbn [sessionView snd] in V. rewrite V.
  destruct (Engine.recording a), (Engine.recognition a) as [t|],
    (Engine.reply a) as [r|]; try reflexivity.
  now destruct (truthy t && negb (t =? Engine.notRecognized)%string
                && truthy r).
Qed.

Lemma buffered_recognized_awaiting (userText : outcome string)
      (p q : Engine.Plugin) :
  Engine.processSingleConversationWithBuffer_recognized userText p
  = (q, Engine.Awaiting) ->
  exists t, userText = Resolved t
            /\ truthy t && negb (trim t =? "")%string
               && negb (t =? Engine.notRecognized)%string = true.
Proof.
  unfold Engine.processSingleConversationWithBuffer_recognized.
  destruct userText as [t|]; [|discriminate].
  destruct (truthy t) eqn:T; cbn; [|discriminate].
  destruct (trim t =? "")%string eqn:W; cbn; [discriminate|].
  destruct (t =? Engine.notRecognized)%string eqn:N; cbn; [discriminate|].
  intros _. exists t. now rewrite T, W, N.
Qed.

Lemma buffered_recognized_done (t : string) (p q : Engine.Plugin)
      (n : Engine.Next) :
  Engine.processSingleConversationWithBuffer_recognized (Resolved t) p
  = (q, n) ->
  n <> Engine.Awaiting ->
  truthy t && negb (trim t =? "")%string
  && negb (t =? Engine.notRecognized)%string = false.
Proof.
  unfold Engine.processSingleConversationWithBuffer_recognized.
  destruct (truthy t); cbn; [|reflexivity].
  destruct (trim t =? "")%string; cbn; [reflexivity|].
  destruct (t =? Engine.notRecognized)%string; cbn; [reflexivity|].
  intros [= _ <-] H. now elim H.
Qed.

(** What an interruption-triggered turn leaves in the history: one entry
    when the recognised text is accepted and the call of the model
    returns, whatever it returns. *)
Lemma interrupted_turn_view (a : Engine.TurnAnswers) (p : Engine.Plugin) :
  sessionView (Engine.processSingleConversationWithBuffer a p)
  = match Engine.recording a, Engine.recognition a, Engine.reply a with
    | Resolved _, Resolved userText, Resolved aiResponse =>
        if truthy userText && negb (trim userText =? "")%string
           && negb (userText =? Engine.notRecognized)%string
        then (Engine.isInContinuousDialog p,
              (Engine.conversationHistory p
               ++ [turnOf userText aiResponse (Engine.now a)])%list)
        else sessionView p
    | _, _, _ => sessionView p
    end.
Proof.
  unfold Engine.processSingleConversationWithBuffer.
  pose proof (view_buffered_begin p) as V0.
  destruct (Engine.processSingleConversationWithBuffer_begin p)
    as [bufferedAudio p0]. cbn [snd] in V0.
  destruct (view_eq _ _ V0) as [D0 H0]. rewrite <- V0, <- D0, <- H0.
  clear V0 D0 H0 p.
  unfold Engine.processSingleConversationWithBuffer_rest.
  pose proof (view_buffered_recorded bufferedAudio (Engine.recording a) p0)
    as V1.
  destruct (Engine.processSingleConversationWithBuffer_recorded
              bufferedAudio (Engine.recording a) p0) as [p1 n1] eqn:E1.
  cbn [fst] in V1. destruct (view_eq _ _ V1) as [D1 H1].
  destruct (Engine.recording a) as [blob|error].
  2: { cbn in E1. injection E1 as <- <-. exact V1. }
  cbn in E1. injection E1 as E1 <-.
  destruct (Engine.recognition a) as [t|error].
  2: { now rewrite view_buffered_recognized. }
  pose proof (view_buffered_recognized (Resolved t) p1) as V2.
  destruct (Engine.processSingleConversationWithBuffer_recognized
              (Resolved t) p1) as [p2 n2] eqn:E2.
  cbn [fst] in V2. destruct (view_eq _ _ V2) as [D2 H2].
  destruct n2.
  2,3: rewrite (buffered_recognized_done _ _ _ _ E2) by discriminate;
       destruct (Engine.reply a); congruence.
  destruct (buffered_recognized_awaiting _ _ _ E2) as (t' & [= <-] & A).
  rewrite A.
  pose proof (view_buffered_responded t (Engine.reply a) (Engine.now a) p2)
    as V3.
  destruct (Engine.processSingleConversationWithBuffer_responded
              t (Engine.reply a) (Engine.now a) p2) as [p3 n3] eqn:E3.
  cbn [fst] in V3. rewrite D2, H2, D1, H1, V2, V1 in V3.
  destruct n3; try exact V3.
  pose proof (view_speak (Engine.synthesis a) (Engine.ending a) p3) as V4.
  destruct (Engine.speak (Engine.synthesis a) (Engine.ending a) p3)
    as [p4 [speech|]]; cbn [fst] in V4.
  - rewrite view_buffered_spoken. congruence.
  - congruence.
Qed.

(** C1 (what the code does where the claim fails).  In a running session,
    when the recognised text is accepted and the call of the model returns
    the empty string, the interruption-triggered turn
    ([processSingleConversationWithBuffer]) appends a turn with an empty
    assistant text to the history, while the turn started by the command
    ([processSingleConversation]), given the same answers, records
    nothing. *)
Theorem interrupted_turn_records_an_empty_reply
        (a : Engine.TurnAnswers) (p : Engine.Plugin)
        (audioBlob : Blob) (userText : string) :
  Engine.isInContinuousDialog p = true ->
  Engine.recording a = Resolved audioBlob ->
  Engine.recognition a = Resolved userText ->
  truthy userText && negb (trim userText =? "")%string
  && negb (userText =? Engine.notRecognized)%string = true ->
  Engine.reply a = Resolved ""%string ->
  Engine.conversationHistory (Engine.processSingleConversationWithBuffer a p)
  = (Engine.conversationHistory p
     ++ [ {| Engine.user := userText; Engine.assistant := "";
             Engine.timestamp := Engine.now a |} ])%list
  /\ Engine.conversationHistory (Engine.startVoiceConversation a p)
     = Engine.conversationHistory p.
Proof.
  intros D R T A E. split.
  - pose proof (interrupted_turn_view a p) as V.
    rewrite R, T, E, A in V. now apply (f_equal snd) in V.
  - rewrite (dialog_turn_history a p D), R, T, E.
    cbn [truthy]. now rewrite andb_false_r.
Qed.

Lemma interrupted_turn_records_an_empty_reply_witness :
  Engine.conversationHistory
    (Engine.processSingleConversationWithBuffer emptyReply runningSession)
  = [ {| Engine.user := "hello"; Engine.assistant := "";
         Engine.timestamp := 1000 |} ]
  /\ Engine.conversationHistory
       (Engine.startVoiceConversation emptyReply runningSession)
     = [].
Proof.
  exact (interrupted_turn_records_an_empty_reply
           emptyReply runningSession (segment 1) "hello"
           eq_refl eq_refl eq_refl eq_refl eq_refl).
Defined.

(** ** Summary at the end of a session *)

Lemma append_assoc (a b c : string) :
  ((a ++ b) ++ c)%string = (a ++ b ++ c)%string.
Proof. induction a as [|x a IH]; cbn; [reflexivity | now rewrite IH]. Qed.

Lemma append_empty (a : string) : (a ++ "")%string = a.
Proof. induction a as [|x a IH]; cbn; [reflexivity | now rewrite IH]. Qed.



(** Leaving the dialog makes no outgoing call and keeps the history. *)
Lemma leaveDialog_quiet (p : Engine.Plugin) :
  Engine.effects (Engine.leaveDialog p) = Engine.effects p
  /\ Engine.conversationHistory (Engine.leaveDialog p)
     = Engine.conversationHistory p
  /\ Engine.isInContinuousDialog (Engine.leaveDialog p) = false.
Proof.
  autounfold with engine. split_cases; repeat split; reflexivity.
Qed.


(** When the call of the model throws, nothing is handed to persistence:
    the [catch] block only shows a notice. *)
Lemma summary_exception_persists_nothing
      (clock : Engine.Clock) (error : string) (saved : outcome unit)
      (now : Z) (p : Engine.Plugin) :
  Engine.isInContinuousDialog p = true ->
  Engine.conversationHistory p <> [] ->
  let q := Engine.endContinuousDialogWithSummary
             clock (Rejected error) saved now p in
  Engine.effects q
  = (Engine.effects p
     ++ [Engine.Notice "正在生成对话总结...";
         Engine.CallLLM
           (Engine.summaryRequest clock (Engine.conversationHistory p));
         Engine.Notice "生成对话总结失败，请检查网络连接"])%list
  /\ Engine.conversationHistory q = [].
Proof.
  intros D H q. subst q.
  unfold Engine.endContinuousDialogWithSummary,
    Engine.endContinuousDialogWithSummary_begin.
  rewrite D. cbn [negb].
  destruct (Engine.conversationHistory p) as [|turn history] eqn:E;
    [now elim H|].
  unfold Engine.generateSummary, Engine.generateSummary_begin. fields.
  rewrite E.
  destruct (Engine.isWakeConversation p) eqn:W,
    (Engine.wakeSessionFileName p) as [fileName|] eqn:F; fields.
  all: unfold Engine.generateSummary_answered,
         Engine.endContinuousDialogWithSummary_finish,
         Engine.endWakeSession; fields.
  all: match goal with
       | |- context [Engine.leaveDialog ?x] =>
           destruct (leaveDialog_quiet x) as (Q1 & Q2 & Q3);
           rewrite Q1, Q2
       end; fields.
  all: rewrite <- ?app_assoc; cbn [app]; split; reflexivity.
Qed.







(* ================================================================== *)
(** * Audio conversion ([convertToPCM]) *)
(* ================================================================== *)

Section PcmConversion.

Local Open Scope Q_scope.

Lemma clamp_bounds (sample : Q) :
  -32768 <= Pcm.clamp sample <= 32767.
Proof.
  unfold Pcm.clamp. split.
  - apply Q.le_max_l.
  - apply Q.max_lub; [discriminate | apply Q.le_min_l].
Qed.

Lemma truncate_bounds (x : Q) (lo hi : Z) :
  (lo <= 0 <= hi)%Z -> inject_Z lo <= x <= inject_Z hi ->
  (lo <= Pcm.truncate x <= hi)%Z.
Proof.
  intros [L H] [Lx Hx]. unfold Pcm.truncate.
  destruct (Qle_bool 0 x) eqn:S.
  - apply Qle_bool_iff in S. split.
    + apply Qfloor_resp_le in S. change (Qfloor 0) with 0%Z in S. lia.
    + apply Qfloor_resp_le in Hx. now rewrite Qfloor_Z in Hx.
  - assert (N : x <= 0).
    { apply Qnot_lt_le. intros P. apply Qlt_le_weak in P.
      apply Qle_bool_iff in P. congruence. }
    split.
    + apply Qceiling_resp_le in Lx. now rewrite Qceiling_Z in Lx.
    + apply Qceiling_resp_le in N. change (Qceiling 0) with 0%Z in N. lia.
Qed.

Lemma toInt16_small (x : Q) :
  -32768 <= x <= 32767 -> Pcm.toInt16 x = Pcm.truncate x.
Proof.
  intros B. unfold Pcm.toInt16.
  pose proof (truncate_bounds x (-32768) 32767 ltac:(lia) B) as T.
  rewrite Z.mod_small by lia. lia.
Qed.

Lemma truncate_comp (x y : Q) : x == y -> Pcm.truncate x = Pcm.truncate y.
Proof.
  intros E. unfold Pcm.truncate, Qceiling.
  assert (B : Qle_bool 0 x = Qle_bool 0 y).
  { destruct (Qle_bool 0 x) eqn:X, (Qle_bool 0 y) eqn:Y; try reflexivity.
    - apply Qle_bool_iff in X. rewrite E in X. apply Qle_bool_iff in X.
      congruence.
    - apply Qle_bool_iff in Y. rewrite <- E in Y. apply Qle_bool_iff in Y.
      congruence. }
  rewrite B. destruct (Qle_bool 0 y).
  - now apply Qfloor_comp.
  - f_equal. apply Qfloor_comp. now rewrite E.
Qed.

(** X1.  The 16-bit sample that [convertToPCM] stores for a decoded sample
    is never wrapped: whatever the sample, it is the clamped product cut
    towards zero and lies between -32768 and 32767; a sample between -1
    and 1 gives the product with 32767 cut towards zero, between -32767
    and 32767; a sample of 1 or more gives 32767. *)
Theorem convertToPCM_sample_never_wraps (sample : Q) :
  (-32768 <= Pcm.pcm16Of sample <= 32767)%Z
  /\ Pcm.pcm16Of sample = Pcm.truncate (Pcm.clamp sample)
  /\ (-1 <= sample <= 1 ->
      Pcm.pcm16Of sample = Pcm.truncate (sample * 32767)
      /\ (-32767 <= Pcm.pcm16Of sample <= 32767)%Z)
  /\ (1 <= sample -> Pcm.pcm16Of sample = 32767%Z).
Proof.
  unfold Pcm.pcm16Of.
  rewrite (toInt16_small _ (clamp_bounds sample)).
  split; [|split; [reflexivity|split]].
  - apply truncate_bounds; [lia | apply clamp_bounds].
  - intros [L H].
    assert (E : Pcm.clamp sample == sample * 32767).
    { assert (M : Qmin 32767 (sample * 32767) == sample * 32767)
        by (apply Q.min_r; lra).
      unfold Pcm.clamp. rewrite M. apply Q.max_r. lra. }
    rewrite (truncate_comp _ _ E). split; [reflexivity|].
    apply truncate_bounds; [lia | unfold inject_Z; split; lra].
  - intros H.
    assert (E : Pcm.clamp sample == 32767).
    { assert (M : Qmin 32767 (sample * 32767) == 32767)
        by (apply Q.min_l; lra).
      unfold Pcm.clamp. rewrite M. apply Q.max_r. lra. }
    now rewrite (truncate_comp _ _ E).
Qed.

Lemma convertToPCM_sample_never_wraps_witness :
  Pcm.pcm16Of (1 # 2) = 16383%Z /\ Pcm.pcm16Of (-(1 # 2)) = (-16383)%Z
  /\ Pcm.pcm16Of 3 = 32767%Z.
Proof.
  destruct (convertToPCM_sample_never_wraps (1 # 2)) as (_ & _ & A & _).
  destruct (convertToPCM_sample_never_wraps (-(1 # 2))) as (_ & _ & B & _).
  destruct (convertToPCM_sample_never_wraps 3) as (_ & _ & _ & C).
  destruct A as [A _]; [split; discriminate|].
  destruct B as [B _]; [split; discriminate|].
  split; [rewrite A; reflexivity|].
  split; [rewrite B; reflexivity|].
  apply C. discriminate.
Defined.

End PcmConversion.

(* ================================================================== *)
(** * WAV files ([pcmToWav]) *)
(* ================================================================== *)

Section WavFiles.

Local Open Scope Z_scope.

Lemma fromLittleEndian_littleEndian (width : nat) (value : Z) :
  Wav.fromLittleEndian (Wav.littleEndian width value)
  = value mod 256 ^ Z.of_nat width.
Proof.
  revert value. induction width as [|width IH]; intros value;
    cbn [Wav.littleEndian Wav.fromLittleEndian].
  - now rewrite Z.mod_1_r.
  - rewrite IH, Nat2Z.inj_succ, Z.pow_succ_r by lia.
    rewrite Z.rem_mul_r by lia. reflexivity.
Qed.

(** The writes of [pcmToWav] never leave the buffer, and what they build
    is the canonical header followed by the samples. *)
Lemma pcmToWav_header (pcmData : list Z)
      (sampleRate channels bitsPerSample : Z) :
  Wav.pcmToWav pcmData sampleRate channels bitsPerSample
  = Some (Wav.headerOf (Z.of_nat (List.length pcmData))
                       sampleRate channels bitsPerSample
          ++ pcmData)%list.
Proof.
  unfold Wav.pcmToWav, Wav.headerOf, Wav.newArrayBuffer.
  rewrite repeat_app.
  assert (R : List.length (repeat 0 (List.length pcmData))
              = List.length pcmData) by apply repeat_length.
  generalize dependent (repeat 0 (List.length pcmData)). intros rest R.
  generalize (36 + Z.of_nat (List.length pcmData)).
  generalize (Z.quot (sampleRate * channels * bitsPerSample) 8).
  generalize (Z.quot (channels * bitsPerSample) 8).
  generalize (Z.of_nat (List.length pcmData)).
  intros dataLength blockAlign byteRate riffLength.
  cbn [Wav.setUint32 Wav.setUint16 Wav.setUint8 Wav.setBytes Wav.writeString
       Wav.littleEndian Wav.andThen Wav.codes Wav.charCodeAt
       list_ascii_of_string map
       List.length firstn skipn app Nat.leb Nat.add repeat].
  unfold Wav.setBytes.
  cbn [List.length firstn skipn app Nat.leb Nat.add].
  rewrite R, Nat.leb_refl, skipn_all2 by lia.
  rewrite app_nil_r. apply f_equal.
  repeat (f_equal; [vm_compute; reflexivity|]). reflexivity.
Qed.

Ltac header_bytes :=
  unfold Wav.getUint, Wav.headerOf;
  cbn [Wav.codes Wav.littleEndian list_ascii_of_string map app firstn skipn].

Lemma header_field (width : nat) (value : Z) (bytes : list Z) :
  0 <= value < 256 ^ Z.of_nat width ->
  bytes = Wav.littleEndian width value ->
  Wav.fromLittleEndian bytes = value.
Proof.
  intros B ->. rewrite fromLittleEndian_littleEndian. now apply Z.mod_small.
Qed.

(** X4.  [pcmToWav] never writes outside its buffer (it always returns a
    file), the file is 44 bytes longer than the samples and ends with the
    samples unchanged, and a reader gets back from the header what was
    passed in: the tags RIFF, WAVE, fmt and data, the PCM format code 1,
    the channels, the sample rate, the bits per sample, and the two
    lengths (36 + data length, data length), as long as each number fits
    its field. *)
Theorem pcmToWav_header_reads_back
        (pcmData : list Z) (sampleRate channels bitsPerSample : Z) :
  0 <= sampleRate < 2 ^ 32 ->
  0 <= channels < 2 ^ 16 ->
  0 <= bitsPerSample < 2 ^ 16 ->
  Z.of_nat (List.length pcmData) + 36 < 2 ^ 32 ->
  exists wav,
    Wav.pcmToWav pcmData sampleRate channels bitsPerSample = Some wav
    /\ List.length wav = (44 + List.length pcmData)%nat
    /\ skipn 44 wav = pcmData
    /\ firstn 4 wav = Wav.codes "RIFF"
    /\ firstn 4 (skipn 8 wav) = Wav.codes "WAVE"
    /\ firstn 4 (skipn 12 wav) = Wav.codes "fmt "
    /\ firstn 4 (skipn 36 wav) = Wav.codes "data"
    /\ Wav.getUint 4 4 wav = 36 + Z.of_nat (List.length pcmData)
    /\ Wav.getUint 4 16 wav = 16
    /\ Wav.getUint 2 20 wav = 1
    /\ Wav.getUint 2 22 wav = channels
    /\ Wav.getUint 4 24 wav = sampleRate
    /\ Wav.getUint 2 34 wav = bitsPerSample
    /\ Wav.getUint 4 40 wav = Z.of_nat (List.length pcmData).
Proof.
  intros S C B L. eexists. split; [apply pcmToWav_header|].
  repeat match goal with |- _ /\ _ => split end.
  - rewrite length_app. reflexivity.
  - header_bytes. reflexivity.
  - reflexivity.
  - reflexivity.
  - reflexivity.
  - reflexivity.
  - header_bytes. apply (header_field 4); [lia | reflexivity].
  - reflexivity.
  - reflexivity.
  - header_bytes. apply (header_field 2); [lia | reflexivity].
  - header_bytes. apply (header_field 4); [lia | reflexivity].
  - header_bytes. apply (header_field 2); [lia | reflexivity].
  - header_bytes. apply (header_field 4); [lia | reflexivity].
Qed.

Lemma pcmToWav_header_reads_back_witness :
  exists wav,
    Wav.pcmToWav [1; 2; 3; 4] 16000 1 16 = Some wav
    /\ List.length wav = 48%nat
    /\ skipn 44 wav = [1; 2; 3; 4]
    /\ Wav.getUint 4 24 wav = 16000.
Proof.
  destruct (pcmToWav_header_reads_back [1; 2; 3; 4] 16000 1 16)
    as (wav & W & N & P & _ & _ & _ & _ & _ & _ & _ & _ & R & _).
  - split; [discriminate | reflexivity].
  - split; [discriminate | reflexivity].
  - split; [discriminate | reflexivity].
  - reflexivity.
  - exists wav. repeat split; assumption.
Defined.

(** X5.  When the sample size in bytes is whole ([channels *
    bitsPerSample] is a multiple of 8) and the numbers fit their fields,
    the header [pcmToWav] writes is consistent: the block-align field is
    the bytes of one frame and the byte-rate field is the sample rate
    times the block align. *)
Theorem pcmToWav_header_is_consistent
        (pcmData : list Z) (sampleRate channels bitsPerSample : Z) :
  0 <= sampleRate -> 0 <= channels -> 0 <= bitsPerSample ->
  (channels * bitsPerSample) mod 8 = 0 ->
  channels * bitsPerSample / 8 < 2 ^ 16 ->
  sampleRate * (channels * bitsPerSample / 8) < 2 ^ 32 ->
  exists wav,
    Wav.pcmToWav pcmData sampleRate channels bitsPerSample = Some wav
    /\ 8 * Wav.getUint 2 32 wav = channels * bitsPerSample
    /\ Wav.getUint 4 28 wav = sampleRate * Wav.getUint 2 32 wav.
Proof.
  intros S C B D A R. eexists. split; [apply pcmToWav_header|].
  assert (P : 0 <= channels * bitsPerSample) by (apply Z.mul_nonneg_nonneg; lia).
  assert (E : channels * bitsPerSample
              = 8 * (channels * bitsPerSample / 8))
    by (apply Z.div_exact; lia).
  assert (G1 : Z.quot (channels * bitsPerSample) 8
               = channels * bitsPerSample / 8)
    by (apply Z.quot_div_nonneg; lia).
  assert (G2 : Z.quot (sampleRate * channels * bitsPerSample) 8
               = sampleRate * (channels * bitsPerSample / 8)).
  { rewrite Z.quot_div_nonneg
      by (try lia; rewrite <- Z.mul_assoc; apply Z.mul_nonneg_nonneg; lia).
    rewrite <- Z.mul_assoc.
    apply Z.divide_div_mul_exact; [lia | apply Z.mod_divide; lia]. }
  unfold Wav.headerOf. rewrite G1, G2.
  assert (F : Wav.getUint 2 32
                (Wav.headerOf (Z.of_nat (List.length pcmData))
                              sampleRate channels bitsPerSample ++ pcmData)
              = channels * bitsPerSample / 8).
  { unfold Wav.headerOf. rewrite G1. header_bytes. apply (header_field 2).
    - split; [apply Z.div_pos; lia | exact A].
    - reflexivity. }
  unfold Wav.headerOf in F. rewrite G1, G2 in F. rewrite F.
  split; [lia|].
  header_bytes. apply (header_field 4).
  - split; [|exact R]. apply Z.mul_nonneg_nonneg; [lia|].
    apply Z.div_pos; lia.
  - reflexivity.
Qed.

Lemma pcmToWav_header_is_consistent_witness :
  exists wav,
    Wav.pcmToWav [1; 2; 3; 4] 16000 1 16 = Some wav
    /\ Wav.getUint 2 32 wav = 2
    /\ Wav.getUint 4 28 wav = 32000.
Proof.
  destruct (pcmToWav_header_is_consistent [1; 2; 3; 4] 16000 1 16)
    as (wav & W & A & R).
  - lia.
  - lia.
  - lia.
  - vm_compute. reflexivity.
  - vm_compute. reflexivity.
  - vm_compute. reflexivity.
  - exists wav. split; [exact W|]. split; lia.
Defined.

End WavFiles.

(* ================================================================== *)
(** * The Base64 string handed to [atob] ([playAudioFromBase64]) *)
(* ================================================================== *)

Section Base64Checks.

Lemma length_append (a b : string) :
  String.length (a ++ b) = (String.length a + String.length b)%nat.
Proof. induction a as [|c a IH]; cbn; [reflexivity | now rewrite IH]. Qed.

Lemma append_padding_succ (s : string) (n : nat) :
  ((s ++ "=") ++ Base64.padding n)%string
  = (s ++ Base64.padding (S n))%string.
Proof. induction s as [|c s IH]; cbn; [reflexivity | now rewrite IH]. Qed.

(** The padding loop adds what is missing to a multiple of four, and
    three passes are always enough. *)
Lemma padLoop_pads (fuel : nat) (s : string) :
  ((4 - String.length s mod 4) mod 4 <= fuel)%nat ->
  Base64.padLoop fuel s
  = Some (s ++ Base64.padding ((4 - String.length s mod 4) mod 4))%string.
Proof.
  revert s. induction fuel as [|fuel IH]; intros s F;
    cbn [Base64.padLoop];
    destruct (Nat.eqb_spec (String.length s mod 4) 0) as [E|E].
  - rewrite E. cbn. now rewrite append_empty.
  - pose proof (Nat.mod_upper_bound (String.length s) 4 ltac:(lia)) as U.
    destruct (String.length s mod 4) as [|[|[|[|m]]]]; cbn in *; lia.
  - rewrite E. cbn. now rewrite append_empty.
  - pose proof (Nat.mod_upper_bound (String.length s) 4 ltac:(lia)) as U.
    assert (L : String.length (s ++ "=")%string = S (String.length s))
      by (rewrite length_append; cbn; lia).
    assert (M : (4 - String.length (s ++ "=")%string mod 4) mod 4
                = ((4 - String.length s mod 4) mod 4 - 1)%nat
                /\ (4 - String.length s mod 4) mod 4
                   = S ((4 - String.length s mod 4) mod 4 - 1)).
    { rewrite L.
      replace (S (String.length s)) with (String.length s + 1)%nat by lia.
      rewrite Nat.Div0.add_mod. revert E U.
      destruct (String.length s mod 4) as [|[|[|[|m]]]]; cbn; intros;
        split; lia. }
    destruct M as [M1 M2].
    rewrite IH by lia. rewrite M1, append_padding_succ, <- M2. reflexivity.
Qed.

Lemma length_padding (n : nat) : String.length (Base64.padding n) = n.
Proof. induction n as [|n IH]; cbn; [reflexivity | now rewrite IH]. Qed.

Lemma padded_length (s : string) :
  String.length
    (s ++ Base64.padding ((4 - String.length s mod 4) mod 4))%string mod 4
  = 0%nat.
Proof.
  apply Nat.Div0.mod_divides. rewrite length_append, length_padding.
  pose proof (Nat.div_mod_eq (String.length s) 4) as D.
  pose proof (Nat.mod_upper_bound (String.length s) 4 ltac:(lia)) as U.
  revert D U. generalize (String.length s / 4)%nat.
  generalize (String.length s). intros n q. destruct (n mod 4) as [|[|[|[|m]]]]; intros D U; try lia.
  - exists q. change ((4 - 0) mod 4)%nat with 0%nat. lia.
  - exists (S q). change ((4 - 1) mod 4)%nat with 3%nat. lia.
  - exists (S q). change ((4 - 2) mod 4)%nat with 2%nat. lia.
  - exists (S q). change ((4 - 3) mod 4)%nat with 1%nat. lia.
Qed.

Lemma wellFormed_clean (s : string) :
  Base64.wellFormed s = true -> Base64.clean s = s.
Proof.
  unfold Base64.wellFormed.
  induction s as [|c s IH]; [reflexivity|].
  cbn [Base64.afterAlphabet Base64.clean].
  destruct (Base64.isAlphabet c) eqn:A; cbn [orb].
  - intros W. now rewrite IH.
  - destruct s as [|d [|e s]]; intros W.
    + destruct c as [[] [] [] [] [] [] [] []]; try discriminate W.
      reflexivity.
    + destruct c as [[] [] [] [] [] [] [] []]; try discriminate W.
      destruct d as [[] [] [] [] [] [] [] []]; try discriminate W.
      reflexivity.
    + destruct c as [[] [] [] [] [] [] [] []]; try discriminate W.
      destruct d as [[] [] [] [] [] [] [] []]; discriminate W.
Qed.

Lemma afterAlphabet_padded (s rest : string) :
  Base64.afterAlphabet (s ++ String "=" rest)
  = (Base64.afterAlphabet s ++ String "=" rest)%string.
Proof.
  induction s as [|c s IH]; cbn [append Base64.afterAlphabet].
  - reflexivity.
  - destruct (Base64.isAlphabet c); [exact IH | reflexivity].
Qed.

Lemma three_paddings_refused (s : string) :
  Base64.wellFormed (s ++ Base64.padding 3) = false.
Proof.
  unfold Base64.wellFormed. cbn [Base64.padding append].
  rewrite afterAlphabet_padded.
  destruct (Base64.afterAlphabet s) as [|c [|d [|e t]]]; cbn [append].
  - reflexivity.
  - destruct c as [[] [] [] [] [] [] [] []]; reflexivity.
  - destruct c as [[] [] [] [] [] [] [] []]; try reflexivity.
    destruct d as [[] [] [] [] [] [] [] []]; reflexivity.
  - destruct c as [[] [] [] [] [] [] [] []]; try reflexivity.
    destruct d as [[] [] [] [] [] [] [] []]; reflexivity.
Qed.

(** X6.  A Base64 string that passes the format test (letters, digits,
    [+] and [/], then at most two [=]), as the synthesis path requires of
    the audio it received, and whose length is a multiple of four, is
    handed to [atob] unchanged by [playAudioFromBase64]. *)
Theorem playAudioFromBase64_keeps_well_formed_audio
        (fuel : nat) (base64Audio : string) :
  Base64.wellFormed base64Audio = true ->
  (String.length base64Audio mod 4 = 0)%nat ->
  Base64.prepare fuel base64Audio = Some (Resolved base64Audio).
Proof.
  intros W L. unfold Base64.prepare.
  rewrite (wellFormed_clean _ W), padLoop_pads by (rewrite L; cbn; lia).
  rewrite L. cbn [Nat.sub Nat.modulo Base64.padding].
  change ((4 - 0) mod 4)%nat with 0%nat. cbn [Base64.padding].
  now rewrite append_empty, W.
Qed.

Lemma playAudioFromBase64_keeps_well_formed_audio_witness :
  Base64.prepare 0 "SGVsbG8h" = Some (Resolved "SGVsbG8h"%string).
Proof.
  apply playAudioFromBase64_keeps_well_formed_audio; reflexivity.
Defined.

(** X7.  The preparation of the audio string in [playAudioFromBase64]
    always ends (three passes of the padding loop are enough); the string
    it reaches has a length that is a multiple of four and is the input
    without the characters outside the Base64 alphabet, followed by the
    missing [=]; it is handed to [atob] when it passes the format test
    and refused otherwise.  A cleaned input one character over a multiple
    of four is always refused: it would need three [=]. *)
Theorem playAudioFromBase64_pads_or_refuses (base64Audio : string) :
  let missing :=
    ((4 - String.length (Base64.clean base64Audio) mod 4) mod 4)%nat in
  let cleanBase64 :=
    (Base64.clean base64Audio ++ Base64.padding missing)%string in
  (String.length cleanBase64 mod 4 = 0)%nat
  /\ Base64.prepare 3 base64Audio
     = Some (if Base64.wellFormed cleanBase64 then Resolved cleanBase64
             else Rejected "无效的Base64格式")
  /\ ((String.length (Base64.clean base64Audio) mod 4 = 1)%nat ->
      Base64.prepare 3 base64Audio = Some (Rejected "无效的Base64格式")).
Proof.
  intros missing cleanBase64.
  pose proof (Nat.mod_upper_bound
                (String.length (Base64.clean base64Audio)) 4 ltac:(lia)) as U.
  assert (P : Base64.prepare 3 base64Audio
              = Some (if Base64.wellFormed cleanBase64
                      then Resolved cleanBase64
                      else Rejected "无效的Base64格式")).
  { unfold Base64.prepare. rewrite padLoop_pads.
    { fold missing. fold cleanBase64.
      now destruct (Base64.wellFormed cleanBase64). }
    pose proof (Nat.mod_upper_bound
                  (4 - String.length (Base64.clean base64Audio) mod 4) 4
                  ltac:(lia)).
    lia. }
  split; [apply padded_length|]. split; [exact P|].
  intros O. rewrite P. subst cleanBase64 missing. rewrite O.
  change ((4 - 1) mod 4)%nat with 3%nat.
  now rewrite three_paddings_refused.
Qed.

Lemma playAudioFromBase64_pads_or_refuses_witness :
  Base64.prepare 3 "QUJD RA" = Some (Resolved "QUJDRA=="%string)
  /\ Base64.prepare 3 "QUJDR" = Some (Rejected "无效的Base64格式").
Proof.
  destruct (playAudioFromBase64_pads_or_refuses "QUJD RA") as (_ & P & _).
  destruct (playAudioFromBase64_pads_or_refuses "QUJDR") as (_ & _ & R).
  split; [exact P | apply R; reflexivity].
Defined.

End Base64Checks.

(* ================================================================== *)
(** * Saving a conversation ([saveConversationToFile]) *)
(* ================================================================== *)

Section SavingConversations.

Lemma append_cancel_l (a b c : string) :
  (a ++ b)%string = (a ++ c)%string -> b = c.
Proof.
  induction a as [|x a IH]; cbn; [trivial|].
  intros H. injection H as H. now apply IH.
Qed.

Lemma append_cancel_r (a b c : string) :
  (a ++ c)%string = (b ++ c)%string -> a = b.
Proof.
  revert b. induction a as [|x a IH]; intros [|y b] H; cbn in H.
  - reflexivity.
  - apply (f_equal String.length) in H. cbn in H.
    rewrite length_append in H. lia.
  - apply (f_equal String.length) in H. cbn in H.
    rewrite length_append in H. lia.
  - injection H as -> H. f_equal. now apply IH.
Qed.

Lemma decimal_inj (n m : nat) : Engine.decimal n = Engine.decimal m -> n = m.
Proof.
  unfold Engine.decimal. intros H.
  apply Unsigned.to_uint_inj.
  assert (U : forall k, NilZero.uint_of_string
                          (NilZero.string_of_uint (Nat.to_uint k))
                        = Some (Nat.to_uint k)).
  { intros k. apply NilZero.usu. intros E.
    assert (Z : k = 0%nat)
      by (rewrite <- (Unsigned.of_to k), E; reflexivity).
    subst k. discriminate E. }
  pose proof (U n) as A. rewrite H, U in A. now injection A.
Qed.

Lemma numbered_inj (folderPath fileName : string) (j k : nat) :
  Vault.numbered folderPath fileName j = Vault.numbered folderPath fileName k ->
  j = k.
Proof.
  unfold Vault.numbered. intros H.
  do 4 apply append_cancel_l in H.
  apply append_cancel_r in H. now apply decimal_inj.
Qed.

Lemma getAbstractFileByPath_In (path : string) (vault : list string) :
  Vault.getAbstractFileByPath path vault = true <-> In path vault.
Proof.
  unfold Vault.getAbstractFileByPath. rewrite existsb_exists. split.
  - intros (x & I & E). apply String.eqb_eq in E. now subst.
  - intros I. exists path. split; [exact I | apply String.eqb_refl].
Qed.

Lemma NoDup_map_injective (A B : Type) (f : A -> B) (l : list A) :
  (forall a b, f a = f b -> a = b) -> NoDup l -> NoDup (map f l).
Proof.
  intros I N. induction N as [|x l X N IH]; cbn; constructor; [|exact IH].
  intros M. apply in_map_iff in M. destruct M as (y & E & Y).
  apply I in E. now subst.
Qed.

(** The numbered paths taken so far are different paths of the vault, so
    there are no more of them than the vault has paths. *)
Lemma numbered_taken_bound (vault : list string)
      (folderPath fileName : string) (k : nat) :
  (forall j, (1 <= j < k)%nat ->
             In (Vault.numbered folderPath fileName j) vault) ->
  (k - 1 <= List.length vault)%nat.
Proof.
  intros T.
  assert (N : NoDup (map (Vault.numbered folderPath fileName)
                         (seq 1 (k - 1)))).
  { apply NoDup_map_injective; [|apply seq_NoDup].
    intros a b. apply numbered_inj. }
  apply NoDup_incl_length with (l' := vault) in N.
  - now rewrite length_map, length_seq in N.
  - intros p I. apply in_map_iff in I. destruct I as (j & <- & I).
    apply in_seq in I. apply T. lia.
Qed.

Lemma pathLoop_finds (vault : list string) (folderPath fileName : string)
      (fuel counter : nat) (finalPath : string) :
  (1 <= counter)%nat ->
  (forall j, (1 <= j < counter - 1)%nat ->
             In (Vault.numbered folderPath fileName j) vault) ->
  (2 <= counter ->
   finalPath = Vault.numbered folderPath fileName (counter - 1))%nat ->
  (List.length vault + 2 <= fuel + counter)%nat ->
  exists found,
    Vault.pathLoop vault folderPath fileName fuel counter finalPath
    = Some found
    /\ ~ In found vault
    /\ (found = finalPath
        \/ In finalPath vault
           /\ exists m, (counter <= m)%nat
                        /\ found = Vault.numbered folderPath fileName m
                        /\ forall j, (1 <= j < m)%nat ->
                             In (Vault.numbered folderPath fileName j) vault).
Proof.
  revert counter finalPath.
  induction fuel as [|fuel IH]; intros counter finalPath C T P F;
    cbn [Vault.pathLoop];
    destruct (Vault.getAbstractFileByPath finalPath vault) eqn:G.
  - exfalso. apply getAbstractFileByPath_In in G.
    assert (B : (counter - 1 <= List.length vault)%nat).
    { apply (numbered_taken_bound vault folderPath fileName).
      intros j J. destruct (Nat.eq_dec j (counter - 1)) as [->|N].
      - rewrite <- P by lia. exact G.
      - apply T. lia. }
    lia.
  - exists finalPath. split; [reflexivity|]. split; [|now left].
    intros I. apply getAbstractFileByPath_In in I. congruence.
  - apply getAbstractFileByPath_In in G.
    assert (T' : forall j, (1 <= j < S counter - 1)%nat ->
                           In (Vault.numbered folderPath fileName j) vault).
    { intros j J. destruct (Nat.eq_dec j (counter - 1)) as [->|N].
      - rewrite <- P by lia. exact G.
      - apply T. lia. }
    destruct (IH (S counter) (Vault.numbered folderPath fileName counter))
      as (found & L & N & R); try lia.
    + exact T'.
    + intros _. f_equal. lia.
    + exists found. split; [exact L|]. split; [exact N|]. right.
      split; [exact G|]. destruct R as [->|(I & m & M & -> & A)].
      * exists counter. split; [lia|]. split; [reflexivity|].
        intros j J. apply T'. lia.
      * exists m. split; [lia|]. split; [reflexivity | exact A].
  - exists finalPath. split; [reflexivity|]. split; [|now left].
    intros I. apply getAbstractFileByPath_In in I. congruence.
Qed.

(** X8.  [saveConversationToFile] never overwrites a note and always
    finds a place for the new one: whatever the vault holds, the search
    ends (after at most one pass for each path of the vault, and one
    more) with a path that is free.  That path is [folder/fileName] when
    it is free; otherwise it is the numbered path with the least counter,
    starting at 1, that is free. *)
Theorem saveConversationToFile_finds_a_free_path
        (settings : VoiceAssistantSettings) (vault : list string)
        (fileName content : string) (fuel : nat) :
  (List.length vault < fuel)%nat ->
  let folderPath := conversationSaveFolder settings in
  let filePath := (folderPath ++ "/" ++ fileName)%string in
  exists finalPath,
    Vault.saveConversationToFile_create settings vault fileName content fuel
    = Some (Vault.Create finalPath content)
    /\ Vault.getAbstractFileByPath finalPath vault = false
    /\ (Vault.getAbstractFileByPath filePath vault = false ->
        finalPath = filePath)
    /\ (Vault.getAbstractFileByPath filePath vault = true ->
        exists counter,
          (1 <= counter)%nat
          /\ finalPath = Vault.numbered folderPath fileName counter
          /\ forall j, (1 <= j < counter)%nat ->
               Vault.getAbstractFileByPath
                 (Vault.numbered folderPath fileName j) vault = true).
Proof.
  intros F folderPath filePath.
  destruct (pathLoop_finds vault folderPath fileName fuel 1 filePath)
    as (found & L & N & R); try lia.
  exists found. unfold Vault.saveConversationToFile_create.
  fold folderPath. fold filePath. rewrite L.
  split; [reflexivity|]. split; [|split].
  - destruct (Vault.getAbstractFileByPath found vault) eqn:G;
      [|reflexivity].
    apply getAbstractFileByPath_In in G. contradiction.
  - intros G. destruct R as [->|(I & _)]; [reflexivity|].
    apply getAbstractFileByPath_In in I. congruence.
  - intros G. destruct R as [->|(_ & m & M & -> & A)].
    + apply getAbstractFileByPath_In in G. contradiction.
    + exists m. split; [exact M|]. split; [reflexivity|].
      intros j J. apply getAbstractFileByPath_In. now apply A.
Qed.

Lemma saveConversationToFile_finds_a_free_path_witness :
  Vault.saveConversationToFile_create
    DEFAULT_SETTINGS
    [ "voice-assistant/conversations";
      "voice-assistant/conversations/2025-09-30 09-30-00.md";
      "voice-assistant/conversations/2025-09-30 09-30-00-1.md" ]%string
    "2025-09-30 09-30-00.md" "note" 4
  = Some (Vault.Create
            "voice-assistant/conversations/2025-09-30 09-30-00-2.md" "note").
Proof.
  destruct (saveConversationToFile_finds_a_free_path
              DEFAULT_SETTINGS
              [ "voice-assistant/conversations";
                "voice-assistant/conversations/2025-09-30 09-30-00.md";
                "voice-assistant/conversations/2025-09-30 09-30-00-1.md" ]%string
              "2025-09-30 09-30-00.md" "note" 4)
    as (finalPath & C & _).
  - cbn. lia.
  - rewrite C. vm_compute in C. now injection C as <-.
Defined.

End SavingConversations.

(* ================================================================== *)
(** * Choosing the language model *)
(* ================================================================== *)

Section ChoosingTheModel.

Lemma find_first (A : Type) (test : A -> bool) (before after : list A)
      (x : A) :
  (forall y, In y before -> test y = false) -> test x = true ->
  find test (before ++ x :: after) = Some x.
Proof.
  intros B T. induction before as [|y before IH]; cbn.
  - now rewrite T.
  - rewrite (B y) by now left. apply IH. intros z I. apply B. now right.
Qed.

Lemma find_none_iff (A : Type) (test : A -> bool) (l : list A) :
  find test l = None <-> forall y, In y l -> test y = false.
Proof.
  split.
  - apply find_none.
  - induction l as [|y l IH]; intros H; cbn; [reflexivity|].
    rewrite (H y) by now left. apply IH. intros z I. apply H. now right.
Qed.

(** X9.  [callCustomModel] throws before any request when no model is
    selected or when no configured model has the selected name; otherwise
    the first configured model with that name decides, by its provider
    and model id, what is sent (a later model with the same name is never
    used). *)
Theorem callCustomModel_uses_the_first_model_with_the_name
        (settings : VoiceAssistantSettings) (text : string) :
  (selectedCustomModel settings = ""%string ->
   Models.callCustomModel settings text
   = Models.Throws "请先选择一个自定义模型")
  /\ (selectedCustomModel settings <> ""%string ->
      (forall model, In model (customModels settings) ->
                     cm_name model <> selectedCustomModel settings) ->
      Models.callCustomModel settings text
      = Models.Throws "选择的自定义模型不存在")
  /\ (forall before model after,
        selectedCustomModel settings <> ""%string ->
        customModels settings = (before ++ model :: after)%list ->
        cm_name model = selectedCustomModel settings ->
        (forall earlier, In earlier before ->
                         cm_name earlier <> selectedCustomModel settings) ->
        Models.callCustomModel settings text
        = Models.callSelectedModel settings text model).
Proof.
  unfold Models.callCustomModel. split; [|split].
  - intros ->. reflexivity.
  - intros S N.
    assert (T : truthy (selectedCustomModel settings) = true)
      by (destruct (selectedCustomModel settings); [now elim S | reflexivity]).
    rewrite T. cbn [negb].
    rewrite (proj2 (find_none_iff _ _ _)); [reflexivity|].
    intros m I. apply String.eqb_neq. now apply N.
  - intros before model after S C M B.
    assert (T : truthy (selectedCustomModel settings) = true)
      by (destruct (selectedCustomModel settings); [now elim S | reflexivity]).
    rewrite T. cbn [negb]. rewrite C, (find_first _ _ before after model).
    + reflexivity.
    + intros m I. apply String.eqb_neq. now apply B.
    + now apply String.eqb_eq.
Qed.

Lemma callCustomModel_uses_the_first_model_with_the_name_witness :
  Models.callCustomModel
    (withModels custom "key" "" "" "" "" "" twoModels "mine") "hello"
  = Models.Sends (Models.GoogleAI "gemini-1.5-pro" "key" "hello").
Proof.
  destruct (callCustomModel_uses_the_first_model_with_the_name
              (withModels custom "key" "" "" "" "" "" twoModels "mine")
              "hello") as (_ & _ & F).
  rewrite (F [] (nth 0 twoModels (nth 1 twoModels (nth 0 twoModels
                   {| cm_name := ""; cm_provider := ""; cm_modelId := "" |})))
             (tl twoModels)).
  - reflexivity.
  - discriminate.
  - reflexivity.
  - reflexivity.
  - intros earlier [].
Defined.

Lemma callLLM_request (settings : VoiceAssistantSettings) (text : string)
      (request : Models.Request) :
  Models.callLLM settings text = Models.Sends request ->
  requestText request = text
  /\ match request with
     | Models.Spark _ _ _ =>
         truthy (xunfeiAppId settings) = true
         /\ truthy (xunfeiApiKey settings) = true
         /\ truthy (xunfeiApiSecret settings) = true
     | Models.GoogleAI _ key _ =>
         key = googleApiKey settings
         /\ (llmProvider settings = custom -> truthy key = true)
     | Models.OpenRouter _ key _ =>
         key = openrouterApiKey settings
         /\ (llmProvider settings = custom -> truthy key = true)
     end.
Proof.
  unfold Models.callLLM, Models.callGoogleAI, Models.callOpenRouter,
    Models.callXunfeiSpark, Models.callCustomModel, Models.callSelectedModel,
    Models.callCustomGoogleAI, Models.callCustomOpenRouter,
    Models.callCustomXunfeiSpark.
  destruct (llmProvider settings) eqn:P.
  - intros H. injection H as <-. cbn. repeat split. discriminate.
  - intros H. injection H as <-. cbn. repeat split. discriminate.
  - destruct (truthy (xunfeiApiKey settings)),
      (truthy (xunfeiApiSecret settings)), (truthy (xunfeiAppId settings));
      cbn [negb orb]; try discriminate.
    destruct (Models.sparkRoute _) as [path domain].
    intros H. injection H as <-. cbn. repeat split.
  - destruct (truthy (selectedCustomModel settings)); cbn [negb];
      [|discriminate].
    destruct (find _ (customModels settings)) as [model|]; [|discriminate].
    destruct (toLowerCase (cm_provider model) =? "google")%string.
    + destruct (truthy (googleApiKey settings)) eqn:K; cbn [negb];
        [|discriminate].
      intros H. injection H as <-. cbn. repeat split. intros _. exact K.
    + destruct (toLowerCase (cm_provider model) =? "openrouter")%string.
      * destruct (truthy (openrouterApiKey settings)) eqn:K; cbn [negb];
          [|discriminate].
        intros H. injection H as <-. cbn. repeat split. intros _. exact K.
      * destruct (toLowerCase (cm_provider model) =? "xunfei")%string;
          [|discriminate].
        destruct (truthy (xunfeiAppId settings)),
          (truthy (xunfeiApiKey settings)),
          (truthy (xunfeiApiSecret settings));
          cbn [negb orb]; try discriminate.
        intros H. injection H as <-. cbn. repeat split.
Qed.

(** X10.  Whatever the provider, a request that [callLLM] sends carries
    the text it was given.  A request to Xunfei Spark is only sent with an
    app id, an API key and an API secret that are not empty (with one of
    them empty [callXunfeiSpark] throws before it sends anything), and a
    request for a custom model only with a key that is not empty; the
    built-in Google and OpenRouter methods always send their request, with
    the key of the settings even when it is empty. *)
Theorem callLLM_sends_the_text_with_credentials
        (settings : VoiceAssistantSettings) (text : string) :
  (forall request,
      Models.callLLM settings text = Models.Sends request ->
      requestText request = text
      /\ match request with
         | Models.Spark _ _ _ =>
             truthy (xunfeiAppId settings) = true
             /\ truthy (xunfeiApiKey settings) = true
             /\ truthy (xunfeiApiSecret settings) = true
         | Models.GoogleAI _ key _ =>
             key = googleApiKey settings
             /\ (llmProvider settings = custom -> truthy key = true)
         | Models.OpenRouter _ key _ =>
             key = openrouterApiKey settings
             /\ (llmProvider settings = custom -> truthy key = true)
         end)
  /\ (llmProvider settings = google ->
      Models.callLLM settings text
      = Models.Sends
          (Models.GoogleAI
             (Models.orElse (googleModel settings) "gemini-2.5-flash")
             (googleApiKey settings) text))
  /\ (llmProvider settings = openrouter ->
      Models.callLLM settings text
      = Models.Sends
          (Models.OpenRouter
             (Models.orElse (openrouterModel settings) "openai/gpt-3.5-turbo")
             (openrouterApiKey settings) text))
  /\ (llmProvider settings = xunfei ->
      truthy (xunfeiAppId settings) && truthy (xunfeiApiKey settings)
      && truthy (xunfeiApiSecret settings) = false ->
      Models.callLLM settings text
      = Models.Throws
          "讯飞星火配置不完整，请检查 App ID、API Key 和 API Secret").
Proof.
  split; [intros request; apply callLLM_request|].
  unfold Models.callLLM. repeat split; intros ->; try reflexivity.
  unfold Models.callXunfeiSpark.
  destruct (truthy (xunfeiAppId settings)),
    (truthy (xunfeiApiKey settings)), (truthy (xunfeiApiSecret settings));
    cbn; intros E; try reflexivity; discriminate E.
Qed.

Lemma callLLM_sends_the_text_with_credentials_witness :
  Models.callLLM (withModels google "" "" "" "" "" "generalv3.5" [] "")
                 "hello"
  = Models.Sends (Models.GoogleAI "gemini-pro" "" "hello")
  /\ Models.callLLM (withModels xunfei "" "" "app" "" "secret" "lite" [] "")
                    "hello"
     = Models.Throws
         "讯飞星火配置不完整，请检查 App ID、API Key 和 API Secret"
  /\ truthy (xunfeiApiKey
               (withModels xunfei "" "" "app" "key" "secret" "generalv3.5"
                           [] "")) = true.
Proof.
  destruct (callLLM_sends_the_text_with_credentials
              (withModels google "" "" "" "" "" "generalv3.5" [] "")
              "hello") as (_ & G & _).
  destruct (callLLM_sends_the_text_with_credentials
              (withModels xunfei "" "" "app" "" "secret" "lite" [] "")
              "hello") as (_ & _ & _ & X).
  destruct (callLLM_sends_the_text_with_credentials
              (withModels xunfei "" "" "app" "key" "secret" "generalv3.5"
                          [] "")
              "hello") as (S & _).
  destruct (S (Models.Spark "/v3.5/chat" "generalv3.5" "hello") eq_refl)
    as (_ & _ & K & _).
  split; [exact (G eq_refl)|]. split; [exact (X eq_refl eq_refl) | exact K].
Defined.

Lemma includes_longer (s sub more : string) :
  includes s (sub ++ more) = true -> includes s sub = true.
Proof.
  intros H. apply includes_spec in H. destruct H as (a & b & ->).
  apply includes_spec. exists a, (more ++ b)%string.
  f_equal. clear. induction sub as [|c sub IH]; cbn; [reflexivity|].
  now rewrite IH.
Qed.

(** X11.  [callCustomXunfeiSpark] never uses the path [/v3.5/chat]: a
    model id that contains [v3.5] also contains [v3], and the test for
    [v3] comes first.  So the custom model [generalv3.5] is sent to
    [/v3.1/chat], while the built-in route of [callXunfeiSpark] sends the
    same model to [/v3.5/chat]. *)
Theorem callCustomXunfeiSpark_never_uses_the_v35_path (modelId : string) :
  Models.customSparkPath modelId <> "/v3.5/chat"%string
  /\ Models.customSparkPath "generalv3.5" = "/v3.1/chat"%string
  /\ Models.sparkRoute "generalv3.5"
     = ("/v3.5/chat", "generalv3.5")%string.
Proof.
  split; [|split; reflexivity].
  unfold Models.customSparkPath.
  destruct (includes modelId "v1.5" || (modelId =? "general")%string);
    [discriminate|].
  destruct (includes modelId "v2" || (modelId =? "generalv2")%string);
    [discriminate|].
  destruct (includes modelId "v3" || (modelId =? "generalv3")%string) eqn:V3;
    [discriminate|].
  apply orb_false_iff in V3. destruct V3 as [V3 _].
  assert (V35 : includes modelId "v3.5" = false).
  { destruct (includes modelId "v3.5") eqn:E; [|reflexivity].
    rewrite (includes_longer modelId "v3" ".5" E) in V3. discriminate V3. }
  rewrite V35. cbn [orb].
  destruct (modelId =? "generalv3.5")%string eqn:G.
  - apply String.eqb_eq in G. subst modelId. discriminate V3.
  - destruct (includes modelId "4.0" || (modelId =? "4.0Ultra")%string);
      discriminate.
Qed.

Lemma sparkRoute_known :
  forallb (fun model => (snd (Models.sparkRoute model) =? model)%string)
          knownSparkModels = true.
Proof. reflexivity. Qed.

(** X12.  The route of [callXunfeiSpark]: for each of the eight model
    names it knows, the domain sent is that name; any other configured
    name, and the empty one, is silently served by Spark Lite
    ([/v1.1/chat], domain [lite]) instead of failing. *)
Theorem callXunfeiSpark_falls_back_to_lite (model : string) :
  (In model knownSparkModels ->
   snd (Models.sparkRoute (Models.orElse model "lite")) = model)
  /\ (~ In model knownSparkModels ->
      Models.sparkRoute (Models.orElse model "lite")
      = ("/v1.1/chat", "lite")%string).
Proof.
  split.
  - intros I. pose proof sparkRoute_known as K.
    rewrite forallb_forall in K. specialize (K model I).
    apply String.eqb_eq in K.
    assert (T : Models.orElse model "lite" = model).
    { cbn in I. repeat (destruct I as [<-|I]; [reflexivity|]). now elim I. }
    now rewrite T.
  - intros N. unfold Models.orElse.
    destruct (truthy model) eqn:T; [|reflexivity].
    unfold Models.sparkRoute.
    repeat match goal with
           | |- context [(model =? ?known)%string] =>
               destruct (String.eqb_spec model known) as [->|_];
               [exfalso; apply N; cbn; tauto|]
           end.
    reflexivity.
Qed.

Lemma callXunfeiSpark_falls_back_to_lite_witness :
  snd (Models.sparkRoute (Models.orElse "max-32k" "lite")) = "max-32k"%string
  /\ Models.sparkRoute (Models.orElse "spark-x" "lite")
     = ("/v1.1/chat", "lite")%string.
Proof.
  split.
  - apply (callXunfeiSpark_falls_back_to_lite "max-32k"). cbn. tauto.
  - apply (callXunfeiSpark_falls_back_to_lite "spark-x"). cbn.
    intros H. repeat (destruct H as [H|H]; [discriminate H|]). exact H.
Defined.

End ChoosingTheModel.

(* ================================================================== *)
(** * The settings tab *)
(* ================================================================== *)

Section SettingsTab.

Lemma splice1_spec (A : Type) (index : nat) (l : list A) :
  SettingTab.splice1 index l = (firstn index l ++ skipn (S index) l)%list.
Proof.
  revert index. induction l as [|x l IH]; intros [|index]; cbn;
    try reflexivity.
  now rewrite IH.
Qed.

Lemma splice1_In (A : Type) (index : nat) (l : list A) (x : A) :
  In x (SettingTab.splice1 index l) -> In x l.
Proof.
  revert index. induction l as [|y l IH]; intros [|index]; cbn; auto.
  intros [->|I]; [now left | right; eauto].
Qed.

Lemma splice1_keeps (A : Type) (index : nat) (l : list A) (x y : A) :
  In x l -> nth_error l index = Some y -> x <> y ->
  In x (SettingTab.splice1 index l).
Proof.
  revert index. induction l as [|z l IH]; intros [|index]; cbn;
    try contradiction.
  - intros [->|I] E N; [congruence | exact I].
  - intros [->|I] E N; [now left | right; eauto].
Qed.

Lemma splice1_NoDup (A : Type) (index : nat) (l : list A) :
  NoDup l -> NoDup (SettingTab.splice1 index l).
Proof.
  intros N. revert index. induction N as [|x l X N IH]; intros [|index];
    cbn; try constructor; auto.
  intros I. apply X. eapply splice1_In, I.
Qed.

Lemma splice1_map (A B : Type) (f : A -> B) (index : nat) (l : list A) :
  map f (SettingTab.splice1 index l) = SettingTab.splice1 index (map f l).
Proof.
  revert index. induction l as [|x l IH]; intros [|index]; cbn;
    try reflexivity.
  now rewrite IH.
Qed.

Lemma NoDup_snoc (A : Type) (l : list A) (x : A) :
  NoDup l -> ~ In x l -> NoDup (l ++ [x]).
Proof.
  intros N X. induction N as [|y l Y N IH]; cbn.
  - constructor; [easy | constructor].
  - constructor.
    + rewrite in_app_iff. intros [I|[->|[]]]; [now apply Y|].
      apply X. now left.
    + apply IH. intros I. apply X. now right.
Qed.

Lemma offered_spec (value : string) (s : SettingTab.ModelSettings) :
  SettingTab.offered value s = true
  <-> value = ""%string
      \/ exists m, In m (SettingTab.models s) /\ cm_name m = value.
Proof.
  unfold SettingTab.offered. rewrite orb_true_iff, existsb_exists.
  rewrite String.eqb_eq. split; intros [E|(m & I & E)]; auto; right;
    exists m; split; auto; now apply String.eqb_eq.
Qed.

(** The three handlers on the settings. *)
Lemma addModel_names (newModelName newModelProvider newModelId : string)
      (s : SettingTab.ModelSettings) :
  namesKept s ->
  namesKept
    (SettingTab.addModel newModelName newModelProvider newModelId s).
Proof.
  intros (N & T). unfold SettingTab.addModel.
  destruct (truthy newModelName) eqn:Tn, (truthy newModelId) eqn:Ti;
    cbn [negb orb]; try exact (conj N T).
  destruct (find _ (SettingTab.models s)) as [m|] eqn:F;
    [exact (conj N T)|].
  pose proof (find_none _ _ F) as Fn. cbn beta in Fn.
  split; cbn [SettingTab.models SettingTab.selected].
  - rewrite map_app. cbn [map cm_name]. apply NoDup_snoc; [exact N|].
    intros I. apply in_map_iff in I. destruct I as (m & E & I).
    specialize (Fn m I). apply String.eqb_neq in Fn. contradiction.
  - intros m I. apply in_app_iff in I. destruct I as [I|[<-|[]]];
      [now apply T | now split].
Qed.

Lemma addModel_offered (newModelName newModelProvider newModelId : string)
      (s : SettingTab.ModelSettings) :
  SettingTab.offered (SettingTab.selected s) s = true ->
  let s' := SettingTab.addModel newModelName newModelProvider newModelId s in
  SettingTab.offered (SettingTab.selected s') s' = true.
Proof.
  intros O. unfold SettingTab.addModel.
  destruct (negb (truthy newModelName) || negb (truthy newModelId));
    [exact O|].
  destruct (find _ (SettingTab.models s)); [exact O|].
  cbv zeta. cbn [SettingTab.selected].
  apply offered_spec. apply offered_spec in O.
  destruct O as [E|(m & I & E)]; [now left | right].
  exists m. split; [|exact E].
  cbn [SettingTab.models]. apply in_app_iff. now left.
Qed.

Lemma deleteModel_names (index : nat) (model : CustomModel)
      (s : SettingTab.ModelSettings) :
  namesKept s -> namesKept (SettingTab.deleteModel index model s).
Proof.
  intros (N & T). unfold SettingTab.deleteModel.
  split; cbn [SettingTab.models SettingTab.selected].
  - rewrite splice1_map. now apply splice1_NoDup.
  - intros m I. apply splice1_In in I. now apply T.
Qed.

Lemma deleteModel_offered (index : nat) (model : CustomModel)
      (s : SettingTab.ModelSettings) :
  nth_error (SettingTab.models s) index = Some model ->
  NoDup (map cm_name (SettingTab.models s)) ->
  SettingTab.offered (SettingTab.selected s) s = true ->
  let s' := SettingTab.deleteModel index model s in
  SettingTab.offered (SettingTab.selected s') s' = true.
Proof.
  intros E N O. cbv zeta. unfold SettingTab.deleteModel.
  apply offered_spec. cbn [SettingTab.models SettingTab.selected].
  destruct (String.eqb_spec (SettingTab.selected s) (cm_name model))
    as [S|S]; [now left|].
  apply offered_spec in O. destruct O as [Z|(m & I & Em)]; [now left|].
  right. exists m. split; [|exact Em].
  apply (splice1_keeps _ _ _ _ model I E). congruence.
Qed.

Lemma nth_error_prefix (A : Type) (l later : list A) (index : nat) (x : A) :
  nth_error l index = Some x -> nth_error (l ++ later) index = Some x.
Proof.
  intros E. rewrite nth_error_app1; [exact E|].
  apply nth_error_Some. congruence.
Qed.

Lemma chosen_offered (value : string) (s : SettingTab.ModelSettings) :
  (value =? "")%string
  || existsb (String.eqb value) (map cm_name (SettingTab.models s))
  = SettingTab.offered value s.
Proof.
  unfold SettingTab.offered. f_equal.
  induction (SettingTab.models s) as [|m l IH]; cbn; [reflexivity|].
  now rewrite IH, (String.eqb_sym value).
Qed.

Ltac screen :=
  try unfold controlsKept;
  cbn [fold_left SettingTab.modelStep];
  unfold SettingTab.set_current, SettingTab.updateExistingModelsList,
    SettingTab.updateCustomModelDropdown;
  cbn [SettingTab.current SettingTab.options SettingTab.entries].

(** An action done by itself, with what is on screen up to date, leaves
    the settings consistent and the screen up to date. *)
Lemma applyModelAction_kept (a : SettingTab.ModelAction)
      (c : SettingTab.ModelControls) :
  controlsKept c -> controlsKept (SettingTab.applyModelAction a c).
Proof.
  intros ((N & T & O) & P & later & L).
  destruct c as [s options entries].
  cbn [SettingTab.current SettingTab.options SettingTab.entries] in *.
  subst options.
  destruct a as [newModelName newModelProvider newModelId|index|value];
    unfold SettingTab.applyModelAction, SettingTab.eventsOf;
    cbn [SettingTab.current SettingTab.entries SettingTab.options].
  - pose proof (addModel_names newModelName newModelProvider newModelId s
                               (conj N T)) as [N' T'].
    pose proof (addModel_offered newModelName newModelProvider newModelId s
                                 O) as O'. cbv zeta in O'.
    assert (A : SettingTab.added newModelName newModelId s = false ->
                SettingTab.addModel newModelName newModelProvider
                                    newModelId s = s).
    { unfold SettingTab.added, SettingTab.addModel.
      destruct (truthy newModelName), (truthy newModelId); cbn; auto.
      destruct (find _ (SettingTab.models s)); [reflexivity | discriminate]. }
    assert (B : exists more,
               SettingTab.models
                 (SettingTab.addModel newModelName newModelProvider
                                      newModelId s)
               = (SettingTab.models s ++ more)%list).
    { unfold SettingTab.addModel.
      destruct (negb (truthy newModelName) || negb (truthy newModelId));
        [exists []; now rewrite app_nil_r|].
      destruct (find _ (SettingTab.models s));
        [exists []; now rewrite app_nil_r|].
      eexists. reflexivity. }
    destruct B as [more B].
    destruct (SettingTab.added newModelName newModelId s) eqn:Ad; screen.
    + split; [exact (conj N' (conj T' O'))|]. split; [reflexivity|].
      exists (later ++ more)%list. now rewrite B, L, app_assoc.
    + rewrite (A eq_refl).
      split; [exact (conj N (conj T O))|]. split; [reflexivity|].
      now exists later.
  - destruct (nth_error entries index) as [model|] eqn:E; screen;
      [|split; [exact (conj N (conj T O))|]; split; [reflexivity|];
        now exists later].
    rewrite E. screen.
    assert (E' : nth_error (SettingTab.models s) index = Some model)
      by (rewrite L; now apply nth_error_prefix).
    pose proof (deleteModel_names index model s (conj N T)) as [N' T'].
    pose proof (deleteModel_offered index model s E' N O) as O'.
    split; [exact (conj N' (conj T' O'))|]. split; [reflexivity|].
    exists []. now rewrite app_nil_r.
  - screen. rewrite chosen_offered.
    destruct (SettingTab.offered value s) eqn:V; screen;
      [|split; [exact (conj N (conj T O))|]; split; [reflexivity|];
        now exists later].
    cbn [SettingTab.selectModel SettingTab.models].
    split; [|split; [reflexivity | now exists later]].
    split; [exact N|]. split; [exact T | exact V].
Qed.

(** In whatever order the callbacks come, the names stay different and
    not empty. *)
Lemma modelStep_names (e : SettingTab.ModelEvent)
      (c : SettingTab.ModelControls) :
  namesKept (SettingTab.current c) ->
  namesKept (SettingTab.current (SettingTab.modelStep e c)).
Proof.
  intros K.
  destruct e as [newModelName newModelProvider newModelId| |index| |value];
    screen; try exact K.
  - now apply addModel_names.
  - destruct (nth_error (SettingTab.entries c) index); screen; [|exact K].
    now apply deleteModel_names.
  - destruct ((value =? "")%string
              || existsb (String.eqb value) (SettingTab.options c));
      screen; exact K.
Qed.

(** X13.  The custom models edited through the settings tab stay
    consistent as long as the actions are done one at a time, each click
    handler having finished before the next click: from settings in which
    the model names are different and not empty, the model ids are not
    empty and the selection is empty or names a model, every run of
    adding, deleting and selecting leaves such settings, and with them
    [callCustomModel] never fails with 选择的自定义模型不存在.  In
    whatever order the callbacks come, the names stay different and not
    empty.  But a second click on a 删除 button before the list is drawn
    again deletes the model that has moved to its place and leaves the
    selection on a model that is gone: from the models A and B with B
    selected, two clicks on the button of A leave no model and the
    selection B, and [callCustomModel] then fails with 选择的自定义模型
    不存在. *)
Theorem custom_models_stay_consistent
        (actions : list SettingTab.ModelAction)
        (settings edited : VoiceAssistantSettings) (text : string) :
  modelsKept (modelSettingsOf settings) ->
  modelSettingsOf edited
  = SettingTab.current
      (runModelActions actions
         (SettingTab.display (modelSettingsOf settings))) ->
  (modelsKept (modelSettingsOf edited)
   /\ (Models.callCustomModel edited text
       = Models.Throws "请先选择一个自定义模型"
       \/ exists model,
            In model (customModels edited)
            /\ cm_name model = selectedCustomModel edited
            /\ Models.callCustomModel edited text
               = Models.callSelectedModel edited text model))
  /\ (forall events,
         namesKept
           (SettingTab.current
              (runModelEvents events
                 (SettingTab.display (modelSettingsOf settings)))))
  /\ (modelsKept secondSelected
      /\ SettingTab.current
           (runModelEvents
              [SettingTab.ClickDelete 0; SettingTab.ClickDelete 0]
              (SettingTab.display secondSelected))
         = {| SettingTab.models := []; SettingTab.selected := "B" |}
      /\ Models.callCustomModel
           (withModels custom "key" "key" "" "" "" "" [] "B") text
         = Models.Throws "选择的自定义模型不存在").
Proof.
  intros K E. split; [|split].
  - assert (K' : modelsKept (modelSettingsOf edited)).
    { rewrite E. clear E. unfold runModelActions.
      assert (C : controlsKept
                    (SettingTab.display (modelSettingsOf settings))).
      { split; [exact K|]. split; [reflexivity|]. exists [].
        cbn. now rewrite app_nil_r. }
      revert C. generalize (SettingTab.display (modelSettingsOf settings)).
      induction actions as [|a actions IH]; intros c C; cbn [fold_left].
      - exact (proj1 C).
      - apply IH. now apply applyModelAction_kept. }
    split; [exact K'|].
    destruct K' as (_ & _ & O). apply offered_spec in O.
    cbn [modelSettingsOf SettingTab.models SettingTab.selected] in O.
    unfold Models.callCustomModel.
    destruct (truthy (selectedCustomModel edited)) eqn:T; cbn [negb];
      [|now left].
    right. destruct O as [Z|(m & I & Em)];
      [rewrite Z in T; discriminate T|].
    destruct (find _ (customModels edited)) as [model|] eqn:F.
    + exists model. apply find_some in F. destruct F as [I' N'].
      apply String.eqb_eq in N'. now repeat split.
    + pose proof (find_none _ _ F m I) as C. cbn beta in C.
      apply String.eqb_neq in C. contradiction.
  - intros events. unfold runModelEvents.
    assert (C : namesKept
                  (SettingTab.current
                     (SettingTab.display (modelSettingsOf settings))))
      by (destruct K as (N & T & _); exact (conj N T)).
    revert C. generalize (SettingTab.display (modelSettingsOf settings)).
    induction events as [|e events IH]; intros c C; cbn [fold_left].
    + exact C.
    + apply IH. now apply modelStep_names.
  - split; [|split; reflexivity].
    split; [|split].
    + repeat constructor; cbn; intuition discriminate.
    + intros m [<-|[<-|[]]]; now split.
    + reflexivity.
Qed.

Lemma custom_models_stay_consistent_witness :
  modelsKept
    (modelSettingsOf
       (withModels google "" "" "" "" "" "generalv3.5"
          [ {| cm_name := "mine"; cm_provider := "google";
               cm_modelId := "gemini-1.5-pro" |} ]%string "mine")).
Proof.
  apply (custom_models_stay_consistent
           [ SettingTab.AddModel "mine" "google" "gemini-1.5-pro";
             SettingTab.AddModel "mine" "xunfei" "generalv3";
             SettingTab.SelectModel "mine" ]
           DEFAULT_SETTINGS
           (withModels google "" "" "" "" "" "generalv3.5"
              [ {| cm_name := "mine"; cm_provider := "google";
                   cm_modelId := "gemini-1.5-pro" |} ]%string "mine")
           "hello").
  - split; [constructor|]. split; [intros m []|reflexivity].
  - reflexivity.
Defined.

Lemma applyWakeWordAction_kept (a : SettingTab.WakeWordAction)
      (wakeWords : list string) :
  wakeWordsKept wakeWords ->
  wakeWordsKept (SettingTab.applyWakeWordAction a wakeWords).
Proof.
  intros [N T]. destruct a as [input|index];
    cbn [SettingTab.applyWakeWordAction].
  - unfold SettingTab.addWakeWord.
    destruct (truthy (trim input)) eqn:Tw; cbn [andb]; [|now split].
    destruct (existsb (String.eqb (trim input)) wakeWords) eqn:X;
      cbn [negb]; [now split|].
    split.
    + apply NoDup_snoc; [exact N|]. intros I.
      assert (Y : existsb (String.eqb (trim input)) wakeWords = true).
      { apply existsb_exists. exists (trim input).
        split; [exact I | apply String.eqb_refl]. }
      congruence.
    + intros word I. apply in_app_iff in I.
      destruct I as [I|[<-|[]]]; [now apply T | exact Tw].
  - unfold SettingTab.deleteWakeWord. split.
    + now apply splice1_NoDup.
    + intros word I. apply T. eapply splice1_In, I.
Qed.

(** X14.  The wake words edited through the settings tab stay different
    from one another and never include the empty word: from such a list
    (the default list is one), every run of adding and deleting leaves
    such a list.  So no stored word matches every text: the empty text
    does not wake the assistant. *)
Theorem wake_words_stay_distinct_and_not_empty
        (actions : list SettingTab.WakeWordAction)
        (wakeWords : list string) :
  wakeWordsKept wakeWords ->
  wakeWordsKept (runWakeWordActions actions wakeWords)
  /\ Wake.hasWakeWord (runWakeWordActions actions wakeWords) "" = false.
Proof.
  intros K.
  assert (K' : wakeWordsKept (runWakeWordActions actions wakeWords)).
  { unfold runWakeWordActions. revert wakeWords K.
    induction actions as [|a actions IH]; intros wakeWords K;
      cbn [fold_left]; [exact K|].
    apply IH. now apply applyWakeWordAction_kept. }
  split; [exact K'|].
  destruct K' as [_ T]. unfold Wake.hasWakeWord.
  induction (runWakeWordActions actions wakeWords) as [|word rest IH];
    [reflexivity|].
  cbn [existsb]. rewrite IH by (intros w I; apply T; now right).
  specialize (T word (or_introl eq_refl)).
  destruct word as [|c word]; [discriminate T | reflexivity].
Qed.

Lemma wake_words_stay_distinct_and_not_empty_witness :
  runWakeWordActions
    [ SettingTab.AddWakeWord "  Hey Note ";
      SettingTab.AddWakeWord "Hey Note";
      SettingTab.AddWakeWord "   ";
      SettingTab.DeleteWakeWord 0 ]
    (wakeWords DEFAULT_SETTINGS)
  = [ "小三同学"; "小三小三"; "Hey Note" ]%string
  /\ Wake.hasWakeWord [ "小三同学"; "小三小三"; "Hey Note" ]%string "" = false.
Proof.
  destruct (wake_words_stay_distinct_and_not_empty
              [ SettingTab.AddWakeWord "  Hey Note ";
                SettingTab.AddWakeWord "Hey Note";
                SettingTab.AddWakeWord "   ";
                SettingTab.DeleteWakeWord 0 ]
              (wakeWords DEFAULT_SETTINGS)) as [_ H].
  - split.
    + repeat constructor; cbn; intuition discriminate.
    + intros word I. cbn in I.
      repeat (destruct I as [<-|I]; [reflexivity|]). now elim I.
  - split; [reflexivity | exact H].
Defined.

End SettingsTab.

(* ================================================================== *)
(** * File names of sessions ([startNewWakeSession],
      [generateConversationSummary]) *)
(* ================================================================== *)

Section SessionFileNames.

Lemma pad2_two_characters (n : nat) :
  (n < 100)%nat -> String.length (Engine.pad2 n) = 2%nat.
Proof.
  assert (A : forallb (fun n => (String.length (Engine.pad2 n) =? 2)%nat)
                      (seq 0 100) = true) by (vm_compute; reflexivity).
  intros B. rewrite forallb_forall in A.
  apply Nat.eqb_eq, A, in_seq. lia.
Qed.

Lemma pad2_inj (n m : nat) :
  (n < 100)%nat -> (m < 100)%nat -> Engine.pad2 n = Engine.pad2 m -> n = m.
Proof.
  assert (A : forallb
                (fun n =>
                   forallb (fun m =>
                              implb (Engine.pad2 n =? Engine.pad2 m)%string
                                    (n =? m)%nat)
                           (seq 0 100))
                (seq 0 100) = true) by (vm_compute; reflexivity).
  intros N M E. rewrite forallb_forall in A.
  specialize (A n ltac:(apply in_seq; lia)). rewrite forallb_forall in A.
  specialize (A m ltac:(apply in_seq; lia)).
  apply String.eqb_eq in E. rewrite E in A. now apply Nat.eqb_eq.
Qed.

Lemma decimal_four_characters (n : nat) :
  (1000 <= n < 10 * 1000)%nat -> String.length (Engine.decimal n) = 4%nat.
Proof.
  assert (A : forallb (fun n => (String.length (Engine.decimal n) =? 4)%nat)
                      (seq 1000 (9 * 1000)) = true) by (vm_compute; reflexivity).
  intros B. rewrite forallb_forall in A.
  apply Nat.eqb_eq, A, in_seq. lia.
Qed.

Lemma append_split (a a' b b' : string) :
  String.length a = String.length a' ->
  (a ++ b)%string = (a' ++ b')%string -> a = a' /\ b = b'.
Proof.
  revert a'. induction a as [|x a IH]; intros [|y a'] L E;
    try discriminate L.
  - now split.
  - cbn in E. injection E as -> E. injection L as L.
    destruct (IH a' L E) as [-> ->]. now split.
Qed.

(** X15.  The file name of a session is [YYYY-MM-DD HH-mm-ss.md]: for a
    calendar date with a four-digit year it has 22 characters, and two
    such dates give the same file name exactly when they agree on the
    year, month, day, hour, minute and second.  So sessions started in
    different seconds never share a file, and sessions started in the
    same second do. *)
Theorem sessionFileName_tells_seconds_apart
        (clock : Engine.Clock) (t1 t2 : Z) :
  calendarDate clock t1 -> calendarDate clock t2 ->
  String.length (Engine.sessionFileName clock t1) = 22%nat
  /\ (Engine.sessionFileName clock t1 = Engine.sessionFileName clock t2
      <-> dateFields clock t1 = dateFields clock t2).
Proof.
  unfold calendarDate, dateFields, Engine.sessionFileName.
  intros (Y1 & M1 & D1 & H1 & I1 & S1) (Y2 & M2 & D2 & H2 & I2 & S2).
  pose proof (decimal_four_characters _ Y1) as LY1.
  pose proof (decimal_four_characters _ Y2) as LY2.
  assert (P : forall n m, (n < 100)%nat -> (m < 100)%nat ->
                String.length (Engine.pad2 n)
                = String.length (Engine.pad2 m)).
  { intros n m N M. now rewrite !pad2_two_characters. }
  split.
  - rewrite !length_append, LY1, !pad2_two_characters by lia. reflexivity.
  - split.
    + intros E.
      apply append_split in E; [|congruence]. destruct E as [Ey E].
      apply append_cancel_l in E.
      apply append_split in E; [|apply P; lia]. destruct E as [Em E].
      apply append_cancel_l in E.
      apply append_split in E; [|apply P; lia]. destruct E as [Ed E].
      apply append_cancel_l in E.
      apply append_split in E; [|apply P; lia]. destruct E as [Eh E].
      apply append_cancel_l in E.
      apply append_split in E; [|apply P; lia]. destruct E as [Ei E].
      apply append_cancel_l in E.
      apply append_split in E; [|apply P; lia]. destruct E as [Es _].
      apply decimal_inj in Ey.
      apply pad2_inj in Em; [|lia|lia]. apply pad2_inj in Ed; [|lia|lia].
      apply pad2_inj in Eh; [|lia|lia]. apply pad2_inj in Ei; [|lia|lia].
      apply pad2_inj in Es; [|lia|lia].
      assert (Em' : Engine.getMonth clock t1 = Engine.getMonth clock t2)
        by lia.
      now rewrite Ey, Em', Ed, Eh, Ei, Es.
    + intros E. injection E as -> Em -> -> -> ->. now rewrite Em.
Qed.

Lemma sessionFileName_tells_seconds_apart_witness :
  String.length (Engine.sessionFileName fixedClock 0) = 22%nat.
Proof.
  apply (sessionFileName_tells_seconds_apart fixedClock 0 1);
    cbv [calendarDate fixedClock Engine.getFullYear Engine.getMonth
         Engine.getDate Engine.getHours Engine.getMinutes Engine.getSeconds];
    lia.
Defined.

End SessionFileNames.

(* ================================================================== *)
(** * The WebSocket handlers *)
(* ================================================================== *)

Section SocketHandlers.

Lemma orElse_truthy (a b : string) :
  truthy b = true -> truthy (Models.orElse a b) = true.
Proof. unfold Models.orElse. now destruct (truthy a) eqn:T. Qed.

Lemma join_app (a b : list string) :
  Sockets.join (a ++ b) = (Sockets.join a ++ Sockets.join b)%string.
Proof.
  unfold Sockets.join. induction a as [|x a IH]; cbn; [reflexivity|].
  now rewrite IH, append_assoc.
Qed.

Lemma asrStep_not_empty (e : Sockets.Event Sockets.AsrFrame)
      (s : Sockets.Asr) :
  asrNotEmpty s -> asrNotEmpty (Sockets.asrStep e s).
Proof.
  unfold asrNotEmpty. intros I.
  assert (R : forall error s', Sockets.asr_promise s' = Sockets.asr_promise s ->
                forall text,
                  Sockets.asr_promise (Sockets.asrReject error s')
                  = Some (Resolved text) -> truthy text = true).
  { intros error s' E text. cbn. rewrite E.
    destruct (Sockets.asr_promise s) as [[t|]|] eqn:P; cbn;
      intros H; try discriminate H. apply I. exact H. }
  destruct e as [[error|code message [data|]]|  |code reason];
    cbn [Sockets.asrStep]; unfold Sockets.asrMessage, Sockets.asrError,
      Sockets.asrClose.
  - now apply R.
  - destruct (negb (code =? 0)%Z); [now apply R|].
    destruct (Sockets.asr_result data) as [|ws|error];
      [| |now apply R].
    + destruct (Sockets.asr_status data =? 2)%Z; [|exact I].
      cbn. intros text.
      destruct (Sockets.asr_promise s) as [[t|]|] eqn:P; cbn;
        intros H; try discriminate H.
      * apply I. exact H.
      * injection H as <-. now apply orElse_truthy.
    + destruct (Sockets.asr_status data =? 2)%Z; [|exact I].
      cbn. intros text.
      destruct (Sockets.asr_promise s) as [[t|]|] eqn:P; cbn;
        intros H; try discriminate H.
      * apply I. exact H.
      * injection H as <-. now apply orElse_truthy.
  - destruct (negb (code =? 0)%Z); [now apply R | exact I].
  - now apply R.
  - destruct (negb (Sockets.hasReceivedData s)
              && negb (truthy (Sockets.asr_text s)));
      [now apply R | exact I].
Qed.

(** X16.  [xunfeiOnlineASR] never resolves with the empty string:
    whatever the socket delivers, in whatever order, when the promise is
    resolved it is with a text that is not empty (an empty result is
    replaced by 未识别到语音内容). *)
Theorem xunfeiOnlineASR_never_resolves_empty
        (events : list (Sockets.Event Sockets.AsrFrame)) (text : string) :
  Sockets.asr_promise (Sockets.asrRun events Sockets.asrStart)
  = Some (Resolved text) ->
  text <> ""%string.
Proof.
  assert (I : asrNotEmpty (Sockets.asrRun events Sockets.asrStart)).
  { unfold Sockets.asrRun.
    assert (S : asrNotEmpty Sockets.asrStart) by (intros t H; discriminate H).
    revert S. generalize Sockets.asrStart.
    induction events as [|e events IH]; intros s S; cbn [fold_left];
      [exact S|].
    apply IH. now apply asrStep_not_empty. }
  intros H E. subst text. specialize (I _ H). discriminate I.
Qed.

Lemma xunfeiOnlineASR_never_resolves_empty_witness :
  Sockets.asr_promise
    (Sockets.asrRun
       [ Sockets.Message
           (Sockets.AsrParsed 0 "success"
              (Some {| Sockets.asr_result := Sockets.NoResult;
                       Sockets.asr_status := 2 |})) ]
       Sockets.asrStart)
  = Some (Resolved Engine.notRecognized)
  /\ Engine.notRecognized <> ""%string.
Proof.
  split; [reflexivity|].
  apply (xunfeiOnlineASR_never_resolves_empty
           [ Sockets.Message
               (Sockets.AsrParsed 0 "success"
                  (Some {| Sockets.asr_result := Sockets.NoResult;
                           Sockets.asr_status := 2 |})) ]).
  reflexivity.
Defined.

Lemma asrRun_collects (datas : list Sockets.AsrData) (s : Sockets.Asr) :
  Sockets.asr_promise s = None ->
  (forall data, In data datas ->
                Sockets.asr_status data <> 2%Z /\ asrReadable data) ->
  Sockets.asr_promise (Sockets.asrRun (asrFrames datas) s) = None
  /\ Sockets.asr_text (Sockets.asrRun (asrFrames datas) s)
     = (Sockets.asr_text s ++ Sockets.join (map asrTextOf datas))%string.
Proof.
  revert s. induction datas as [|data datas IH]; intros s P G.
  - cbn. now rewrite append_empty.
  - destruct (G data (or_introl eq_refl)) as [N R].
    cbn [asrFrames map Sockets.asrRun fold_left Sockets.asrStep].
    fold (asrFrames datas).
    fold (Sockets.asrRun (asrFrames datas)).
    apply Z.eqb_neq in N.
    destruct (IH (Sockets.asrMessage
                    (Sockets.AsrParsed 0 "success" (Some data)) s))
      as [P' T'].
    + unfold asrReadable in R. cbn [Sockets.asrMessage Z.eqb negb].
      destruct (Sockets.asr_result data); try contradiction;
        rewrite N; exact P.
    + intros d I. apply G. now right.
    + unfold Sockets.asrRun in *. split; [exact P'|]. rewrite T'.
      cbn [map Sockets.join fold_right].
      fold (Sockets.join (map asrTextOf datas)).
      unfold asrReadable, asrTextOf in *. cbn [Sockets.asrMessage Z.eqb negb].
      destruct (Sockets.asr_result data); try contradiction;
        rewrite N; cbn [Sockets.asr_text]; [|now rewrite append_assoc].
      reflexivity.
Qed.

(** X17.  When the recogniser answers with frames without an error, the
    last of which (and no other) has status 2, [xunfeiOnlineASR] resolves
    with the words of all the frames in the order they came, or with
    未识别到语音内容 when there are none. *)
Theorem xunfeiOnlineASR_concatenates_the_frames
        (datas : list Sockets.AsrData) (last : Sockets.AsrData) :
  (forall data, In data datas ->
                Sockets.asr_status data <> 2%Z /\ asrReadable data) ->
  Sockets.asr_status last = 2%Z -> asrReadable last ->
  Sockets.asr_promise
    (Sockets.asrRun (asrFrames (datas ++ [last])) Sockets.asrStart)
  = Some (Resolved
            (Models.orElse (Sockets.join (map asrTextOf (datas ++ [last])))
                           Engine.notRecognized)).
Proof.
  intros G L R. unfold asrFrames, Sockets.asrRun.
  rewrite map_app, fold_left_app.
  destruct (asrRun_collects datas Sockets.asrStart eq_refl G) as [P T].
  unfold asrFrames, Sockets.asrRun in P, T.
  cbn [map fold_left Sockets.asrStep Sockets.asrMessage Z.eqb negb].
  rewrite map_app, join_app. cbn [map Sockets.join fold_right].
  rewrite append_empty.
  unfold asrReadable, asrTextOf in *.
  destruct (Sockets.asr_result last); try contradiction;
    rewrite L; cbn [Z.eqb Pos.eqb Sockets.asr_promise Sockets.asr_text];
    rewrite P, T; cbn [Sockets.resolve Sockets.asr_text append];
    rewrite ?append_empty; reflexivity.
Qed.

Lemma xunfeiOnlineASR_concatenates_the_frames_witness :
  Sockets.asr_promise
    (Sockets.asrRun
       (asrFrames
          [ {| Sockets.asr_result := Sockets.Words [["你"]; ["好"; "吗"]];
               Sockets.asr_status := 0 |};
            {| Sockets.asr_result := Sockets.Words [["？"]];
               Sockets.asr_status := 2 |} ]%string)
       Sockets.asrStart)
  = Some (Resolved "你好吗？"%string).
Proof.
  apply (xunfeiOnlineASR_concatenates_the_frames
           [ {| Sockets.asr_result := Sockets.Words [["你"]; ["好"; "吗"]];
                Sockets.asr_status := 0 |} ]%string
           {| Sockets.asr_result := Sockets.Words [["？"]];
              Sockets.asr_status := 2 |}%string).
  - intros data [<-|[]]. split; [discriminate | exact I].
  - reflexivity.
  - exact I.
Defined.

Lemma settle_kept (s : Sockets.Spark)
      (settle : Sockets.Promise string -> Sockets.Promise string) :
  (forall promise text,
     settle promise = Some (Resolved text) ->
     promise = Some (Resolved text) \/ truthy text = true) ->
  sparkNotEmpty s -> sparkNotEmpty (Sockets.sparkSettle settle s).
Proof.
  intros S I text H. cbn in H. apply S in H.
  destruct H as [H|H]; [now apply I | exact H].
Qed.

Lemma reject_kept (error : string) (promise : Sockets.Promise string)
      (text : string) :
  Sockets.reject error promise = Some (Resolved text) ->
  promise = Some (Resolved text) \/ truthy text = true.
Proof. destruct promise as [[t|e]|]; cbn; intros H; now (left + discriminate). Qed.

Lemma sparkAppend_promise (content : option string) (s : Sockets.Spark) :
  Sockets.spark_promise (Sockets.sparkAppend content s)
  = Sockets.spark_promise s.
Proof.
  unfold Sockets.sparkAppend. destruct content as [c|]; [|reflexivity].
  now destruct (truthy c).
Qed.

Lemma sparkStep_not_empty (e : Sockets.SparkEvent) (s : Sockets.Spark) :
  sparkNotEmpty s -> sparkNotEmpty (Sockets.sparkStep Sockets.BuiltIn e s).
Proof.
  intros I.
  destruct e as [[[error|header content]| |code reason]|];
    cbn [Sockets.sparkStep].
  - apply settle_kept; [apply reject_kept | exact I].
  - unfold Sockets.sparkMessage.
    assert (A : sparkNotEmpty (Sockets.sparkAppend content s)).
    { intros text H. rewrite sparkAppend_promise in H. now apply I. }
    destruct header as [header|]; [|exact A].
    destruct (negb (Sockets.spark_code header =? 0)%Z).
    + apply settle_kept; [apply reject_kept | exact I].
    + destruct (Sockets.spark_status header =? 2)%Z; [|exact A].
      intros text. unfold Sockets.sparkFinish. cbn [Sockets.spark_promise].
      destruct (Sockets.spark_promise (Sockets.sparkAppend content s))
        as [[t|err]|] eqn:P; cbn [Sockets.resolve]; intros H;
        try discriminate H.
      * apply A. now rewrite P.
      * injection H as <-. now apply orElse_truthy.
  - apply settle_kept; [apply reject_kept | exact I].
  - unfold Sockets.sparkClose.
    assert (A : sparkNotEmpty (Sockets.sparkSettle (fun promise => promise) s))
      by (apply settle_kept; [now left | exact I]).
    destruct (negb (truthy (Sockets.spark_text
                              (Sockets.sparkSettle (fun promise => promise) s))));
      [|exact A].
    apply settle_kept; [apply reject_kept | exact A].
  - unfold Sockets.sparkTimedOut.
    destruct (Sockets.spark_timeout s); [|exact I].
    intros text H. cbn in H. apply reject_kept in H.
    destruct H as [H|H]; [now apply I | exact H].
Qed.

(** X18.  [callXunfeiSpark] never resolves with the empty string,
    whatever the socket and the timer deliver (an empty answer is
    replaced by 讯飞星火返回了空响应).  [callCustomXunfeiSpark] does: a
    final frame (status 2, no error) that arrives before any content
    resolves its promise with the empty string. *)
Theorem callXunfeiSpark_never_resolves_empty_but_custom_does
        (events : list Sockets.SparkEvent) (text : string)
        (header : Sockets.SparkHeader) :
  (Sockets.spark_promise
     (Sockets.sparkRun Sockets.BuiltIn events Sockets.sparkStart)
   = Some (Resolved text) ->
   text <> ""%string)
  /\ (Sockets.spark_code header = 0%Z -> Sockets.spark_status header = 2%Z ->
      Sockets.spark_promise
        (Sockets.sparkRun Sockets.Custom
           [ Sockets.SparkSocket
               (Sockets.Message (Sockets.SparkParsed (Some header) None)) ]
           Sockets.sparkStart)
      = Some (Resolved ""%string)).
Proof.
  split.
  - assert (I : sparkNotEmpty
                  (Sockets.sparkRun Sockets.BuiltIn events Sockets.sparkStart)).
    { unfold Sockets.sparkRun.
      assert (S : sparkNotEmpty Sockets.sparkStart)
        by (intros t H; discriminate H).
      revert S. generalize Sockets.sparkStart.
      induction events as [|e events IH]; intros s S; cbn [fold_left];
        [exact S|].
      apply IH. now apply sparkStep_not_empty. }
    intros H E. subst text. specialize (I _ H). discriminate I.
  - intros C S. cbn. now rewrite C, S.
Qed.

Lemma callXunfeiSpark_never_resolves_empty_but_custom_does_witness :
  Sockets.spark_promise
    (Sockets.sparkRun Sockets.Custom
       [ Sockets.SparkSocket
           (Sockets.Message
              (Sockets.SparkParsed
                 (Some {| Sockets.spark_code := 0;
                          Sockets.spark_message := "Success";
                          Sockets.spark_status := 2 |}) None)) ]
       Sockets.sparkStart)
  = Some (Resolved ""%string)
  /\ "讯飞星火返回了空响应"%string <> ""%string.
Proof.
  destruct (callXunfeiSpark_never_resolves_empty_but_custom_does
              [ Sockets.SparkSocket
                  (Sockets.Message
                     (Sockets.SparkParsed
                        (Some {| Sockets.spark_code := 0;
                                 Sockets.spark_message := "Success";
                                 Sockets.spark_status := 2 |}) None)) ]
              "讯飞星火返回了空响应"
              {| Sockets.spark_code := 0; Sockets.spark_message := "Success";
                 Sockets.spark_status := 2 |}) as [B C].
  split; [now apply C | now apply B].
Defined.

Lemma sparkStep_timer_cleared (kind : Sockets.SparkKind)
      (e : Sockets.SparkEvent) (s : Sockets.Spark) :
  sparkTimerCleared s -> sparkTimerCleared (Sockets.sparkStep kind e s).
Proof.
  unfold sparkTimerCleared. intros I.
  assert (A : forall content,
             Sockets.spark_promise (Sockets.sparkAppend content s) <> None ->
             Sockets.spark_timeout (Sockets.sparkAppend content s) = false).
  { intros content. unfold Sockets.sparkAppend.
    destruct content as [c|]; [|exact I]. now destruct (truthy c). }
  destruct e as [[[error|header content]| |code reason]|], kind;
    cbn [Sockets.sparkStep]; try (intros _; reflexivity).
  - unfold Sockets.sparkMessage. destruct header as [header|]; [|apply A].
    destruct (negb (Sockets.spark_code header =? 0)%Z);
      [intros _; reflexivity|].
    destruct (Sockets.spark_status header =? 2)%Z;
      [intros _; reflexivity | apply A].
  - unfold Sockets.customSparkMessage.
    destruct header as [header|]; [|intros _; reflexivity].
    destruct (negb (Sockets.spark_code header =? 0)%Z);
      [intros _; reflexivity|].
    destruct (Sockets.spark_status header =? 2)%Z;
      [intros _; reflexivity | apply A].
  - unfold Sockets.sparkClose.
    destruct (negb (truthy _)); intros _; reflexivity.
  - unfold Sockets.sparkClose.
    destruct (negb (truthy _)); intros _; reflexivity.
  - unfold Sockets.sparkTimedOut.
    destruct (Sockets.spark_timeout s) eqn:T; [intros _; reflexivity|].
    intros _. exact T.
  - unfold Sockets.sparkTimedOut.
    destruct (Sockets.spark_timeout s) eqn:T; [intros _; reflexivity|].
    intros _. exact T.
Qed.

(** X19.  The 30 s timer of a Spark call never outlives the call: in
    whatever order the socket events and the timer come, once the promise
    of [callXunfeiSpark] or [callCustomXunfeiSpark] is settled the timer
    is cleared, so the time-out callback does not run afterwards (and
    when it runs, it runs once). *)
Theorem spark_timer_is_cleared_when_the_call_settles
        (kind : Sockets.SparkKind) (events : list Sockets.SparkEvent) :
  let s := Sockets.sparkRun kind events Sockets.sparkStart in
  (Sockets.spark_promise s <> None -> Sockets.spark_timeout s = false)
  /\ Sockets.sparkStep kind Sockets.SparkTimer
       (Sockets.sparkStep kind Sockets.SparkTimer s)
     = Sockets.sparkStep kind Sockets.SparkTimer s.
Proof.
  intros s. split.
  - subst s. unfold Sockets.sparkRun.
    assert (S : sparkTimerCleared Sockets.sparkStart)
      by (intros H; now elim H).
    revert S. generalize Sockets.sparkStart.
    induction events as [|e events IH]; intros s S; cbn [fold_left];
      [exact S|].
    apply IH. now apply sparkStep_timer_cleared.
  - cbn [Sockets.sparkStep]. unfold Sockets.sparkTimedOut.
    destruct (Sockets.spark_timeout s) eqn:T; cbn [Sockets.spark_timeout];
      [reflexivity | now rewrite T].
Qed.

Lemma spark_timer_is_cleared_when_the_call_settles_witness :
  Sockets.spark_timeout
    (Sockets.sparkRun Sockets.BuiltIn
       [ Sockets.SparkSocket Sockets.SocketError; Sockets.SparkTimer ]
       Sockets.sparkStart)
  = false.
Proof.
  apply (spark_timer_is_cleared_when_the_call_settles
           Sockets.BuiltIn
           [ Sockets.SparkSocket Sockets.SocketError; Sockets.SparkTimer ]).
  discriminate.
Defined.

Lemma padding_inside_refused (a b : string) (c : ascii) :
  Base64.isAlphabet c = true ->
  Base64.wellFormed (a ++ "=" ++ String c b) = false.
Proof.
  intros A. unfold Base64.wellFormed. cbn [append].
  rewrite afterAlphabet_padded.
  destruct (Base64.afterAlphabet a) as [|x [|y [|z t]]]; cbn [append].
  - destruct c as [[] [] [] [] [] [] [] []]; try reflexivity;
      discriminate A.
  - destruct x as [[] [] [] [] [] [] [] []]; reflexivity.
  - destruct x as [[] [] [] [] [] [] [] []]; try reflexivity.
    destruct y as [[] [] [] [] [] [] [] []]; reflexivity.
  - destruct x as [[] [] [] [] [] [] [] []]; try reflexivity.
    destruct y as [[] [] [] [] [] [] [] []]; reflexivity.
Qed.

Lemma join_truthy (chunks : list string) :
  chunks <> [] -> (forall c, In c chunks -> truthy c = true) ->
  truthy (Sockets.join chunks) = true.
Proof.
  destruct chunks as [|c chunks]; [easy|]. intros _ T.
  specialize (T c (or_introl eq_refl)). cbn.
  destruct c; [discriminate T | reflexivity].
Qed.

Lemma ttsRun_frames (chunks : list string) (s : Sockets.Tts) :
  chunks <> [] ->
  (forall c, In c (Sockets.audioChunks s ++ chunks) -> truthy c = true) ->
  Sockets.tts_promise s = None ->
  let all := (Sockets.audioChunks s ++ chunks)%list in
  let after := Sockets.ttsRun (ttsFrames chunks) s in
  if Base64.wellFormed (Sockets.join all) then
    Sockets.tts_played after
    = (Sockets.tts_played s ++ [Sockets.join all])%list
    /\ Sockets.tts_promise after = None
  else
    Sockets.tts_played after = Sockets.tts_played s
    /\ Sockets.tts_promise after = Some (Rejected "接收到的音频数据格式无效").
Proof.
  revert s. induction chunks as [|c chunks IH]; intros s N T P; [easy|].
  assert (Tc : truthy c = true)
    by (apply T, in_app_iff; right; now left).
  destruct chunks as [|d chunks].
  - cbn [ttsFrames Sockets.ttsRun fold_left Sockets.ttsStep
         Sockets.ttsMessage Z.eqb negb Sockets.tts_audio Sockets.tts_status
         Pos.eqb].
    rewrite Tc. cbn [Sockets.ttsClosed Sockets.audioChunks].
    assert (J : truthy (Sockets.join (Sockets.audioChunks s ++ [c])) = true).
    { apply join_truthy; [now destruct (Sockets.audioChunks s) | exact T]. }
    destruct (Sockets.audioChunks s ++ [c])%list as [|x l] eqn:E;
      [now destruct (Sockets.audioChunks s)|].
    rewrite J. cbn [negb].
    destruct (Base64.wellFormed (Sockets.join (x :: l))); cbn [negb].
    + split; [reflexivity | exact P].
    + split; [reflexivity|]. cbn. now rewrite P.
  - change (ttsFrames (c :: d :: chunks))
      with (Sockets.Message
              (Sockets.TtsParsed 0 "success"
                 (Some {| Sockets.tts_audio := Some c;
                          Sockets.tts_status := 1 |}))
            :: ttsFrames (d :: chunks)).
    cbn [Sockets.ttsRun fold_left Sockets.ttsStep Sockets.ttsMessage
         Z.eqb negb Sockets.tts_audio Sockets.tts_status Pos.eqb].
    rewrite Tc.
    match goal with
    | |- context [fold_left _ _ ?s1] =>
        specialize (IH s1 ltac:(discriminate))
    end.
    cbn [Sockets.audioChunks Sockets.tts_promise Sockets.tts_played] in IH.
    rewrite <- app_assoc in IH. cbn [app] in IH.
    unfold Sockets.ttsRun in IH. apply IH; [exact T | exact P].
Qed.

(** X20.  [xunfeiOnlineTTS] plays what it received as one string: when
    the synthesis answers with pieces of audio, the last frame with status
    2, the pieces are joined in the order they came; the joined string is
    handed to [playAudioFromBase64] (once) when it passes the format test,
    and otherwise the promise is rejected with 接收到的音频数据格式无效
    and nothing is played.  In particular, pieces that were padded one by
    one are refused when audio follows the padding: a piece that ends with
    [=] followed by a piece that starts with a character of the Base64
    alphabet makes the joined string ill-formed.  (Padding that is split
    over two pieces passes: [QQ=] and [=] are played as [QQ==].) *)
Theorem xunfeiOnlineTTS_joins_the_pieces (chunks : list string) :
  chunks <> [] -> (forall c, In c chunks -> truthy c = true) ->
  let after := Sockets.ttsRun (ttsFrames chunks) Sockets.ttsStart in
  (Base64.wellFormed (Sockets.join chunks) = true ->
   Sockets.tts_played after = [Sockets.join chunks]
   /\ Sockets.tts_promise after = None)
  /\ (Base64.wellFormed (Sockets.join chunks) = false ->
      Sockets.tts_played after = []
      /\ Sockets.tts_promise after
         = Some (Rejected "接收到的音频数据格式无效"))
  /\ (forall before piece c rest later,
        chunks = (before ++ (piece ++ "=")%string :: String c rest :: later)%list ->
        Base64.isAlphabet c = true ->
        Base64.wellFormed (Sockets.join chunks) = false)
  /\ Sockets.tts_played
       (Sockets.ttsRun (ttsFrames ["QQ="; "="]%string) Sockets.ttsStart)
     = ["QQ=="%string].
Proof.
  intros N T after.
  pose proof (ttsRun_frames chunks Sockets.ttsStart N T eq_refl) as R.
  cbn [Sockets.ttsStart Sockets.audioChunks Sockets.tts_played app] in R.
  fold after in R. split; [|split; [|split; [|reflexivity]]].
  - intros W. now rewrite W in R.
  - intros W. now rewrite W in R.
  - intros before piece c rest later -> A.
    rewrite join_app. cbn [Sockets.join fold_right].
    fold (Sockets.join later).
    rewrite (append_assoc piece), <- (append_assoc (Sockets.join before)).
    cbn [append]. apply (padding_inside_refused _ _ c A).
Qed.

Lemma xunfeiOnlineTTS_joins_the_pieces_witness :
  Sockets.tts_played
    (Sockets.ttsRun (ttsFrames ["QUJD"; "RA=="]%string) Sockets.ttsStart)
  = ["QUJDRA=="%string]
  /\ Sockets.tts_promise
       (Sockets.ttsRun (ttsFrames ["QQ=="; "Qg=="]%string) Sockets.ttsStart)
     = Some (Rejected "接收到的音频数据格式无效").
Proof.
  destruct (xunfeiOnlineTTS_joins_the_pieces ["QUJD"; "RA=="]%string)
    as (P & _).
  - discriminate.
  - intros c [<-|[<-|[]]]; reflexivity.
  - destruct (xunfeiOnlineTTS_joins_the_pieces ["QQ=="; "Qg=="]%string)
      as (_ & R & I & _).
    + discriminate.
    + intros c [<-|[<-|[]]]; reflexivity.
    + split; [now apply P|]. apply R.
      apply (I [] "QQ=" "Q"%char "g==" []); reflexivity.
Defined.

End SocketHandlers.

(** ** Playback streams *)

Ltac audio_field := first [reflexivity | eassumption | cbn; eassumption].

Ltac audio_move :=
  first
    [ apply move_none; reflexivity
    | eapply move_pause with (keep := true);
      [eassumption | reflexivity | audio_field]
    | eapply move_pause with (keep := false);
      [eassumption | reflexivity | audio_field]
    | eapply move_end; [eassumption | reflexivity | audio_field]
    | eapply move_resume; [eassumption | reflexivity | audio_field]
    | eapply move_new; [reflexivity | reflexivity | reflexivity] ].

Lemma step_audio_move (clock : Engine.Clock) (e : Engine.Event)
      (p : Engine.Plugin) :
  AudioMove e p (Engine.step clock e p).
Proof.
  destruct e; autounfold with engine.
  all: split_cases; audio_move.
Qed.

Lemma nth_replaceNth_true (l : list bool) (a b : nat) :
  nth b (Engine.replaceNth a true l) true = false ->
  b <> a /\ nth b l true = false.
Proof.
  revert a b. induction l as [|x l IH]; intros [|a] [|b]; cbn; try easy.
  intros H. apply IH in H. destruct H as [N H]. split; [lia | exact H].
Qed.

Lemma nth_replaceNth_false (l : list bool) (a b : nat) :
  nth b (Engine.replaceNth a false l) true = false ->
  b = a \/ nth b l true = false.
Proof.
  revert a b. induction l as [|x l IH]; intros [|a] [|b]; cbn; auto.
  intros H. apply IH in H. destruct H as [E|H]; [left; lia | now right].
Qed.

Lemma nth_snoc_true (l : list bool) (b : nat) :
  nth b (l ++ [true]) true = false -> nth b l true = false.
Proof.
  revert b. induction l as [|x l IH]; intros [|b]; cbn; try easy.
  - now destruct b.
  - apply IH.
Qed.

Lemma none_active (l : list bool) :
  List.length (filter negb l) = 0%nat <-> forall b, nth b l true = true.
Proof.
  induction l as [|x l IH]; cbn.
  - split; [now intros _ [|b] | reflexivity].
  - destruct x; cbn.
    + rewrite IH. split; [now intros H [|b] | intros H b; apply (H (S b))].
    + split; [discriminate | intros H; discriminate (H 0%nat)].
Qed.

Lemma one_active (l : list bool) :
  (forall a b, nth a l true = false -> nth b l true = false -> a = b) ->
  (List.length (filter negb l) <= 1)%nat.
Proof.
  induction l as [|x l IH]; intros U; cbn; [lia|].
  destruct x; cbn.
  - apply IH. intros a b A B.
    specialize (U (S a) (S b) A B). lia.
  - assert (Z : List.length (filter negb l) = 0%nat); [|lia].
    apply none_active. intros b.
    destruct (nth b l true) eqn:E; [reflexivity|].
    discriminate (U 0%nat (S b) eq_refl E).
Qed.

Lemma playingIsCurrent_one_active (p : Engine.Plugin) :
  playingIsCurrent p -> (Engine.activeStreams p <= 1)%nat.
Proof.
  intros A. apply one_active. intros a b Ha Hb.
  apply A in Ha. apply A in Hb. congruence.
Qed.

Lemma move_keeps_playingIsCurrent (e : Engine.Event) (p q : Engine.Plugin) :
  AudioMove e p q -> Engine.playbackApart p e ->
  playingIsCurrent p -> playingIsCurrent q.
Proof.
  unfold playingIsCurrent, Engine.paused.
  intros [Ea Ec|a keep C Ea Ec|a P Ea Ec|base64Audio decoded E Ea Ec
          |a C Ea Ec] Apart A b; rewrite Ea, Ec; intros H.
  - now apply A.
  - apply nth_replaceNth_true in H. destruct H as [N H].
    apply A in H. congruence.
  - apply nth_replaceNth_true in H. destruct H as [N H].
    apply A in H. apply A in P. congruence.
  - subst e. cbn in Apart. apply nth_replaceNth_false in H.
    destruct H as [->|H]; [reflexivity|].
    apply nth_snoc_true in H.
    rewrite (proj1 (none_active (Engine.audios p)) Apart b) in H.
    discriminate H.
  - apply nth_replaceNth_false in H. destruct H as [->|H]; [reflexivity|].
    apply A in H. congruence.
Qed.

Lemma reachable_playingIsCurrent (clock : Engine.Clock)
      (loaded : VoiceAssistantSettings) (p : Engine.Plugin) :
  Engine.reachable clock Engine.playbackApart loaded p ->
  playingIsCurrent p.
Proof.
  induction 1 as [|p e R IH Apart].
  - intros [|a]; discriminate.
  - exact (move_keeps_playingIsCurrent e p _ (step_audio_move clock e p)
             Apart IH).
Qed.

Lemma reachable_run_allowed (clock : Engine.Clock)
      (allowed : Engine.Plugin -> Engine.Event -> Prop)
      (loaded : VoiceAssistantSettings) (events : list Engine.Event)
      (p : Engine.Plugin) :
  Engine.reachable clock allowed loaded p ->
  allowedAlong clock allowed events p ->
  Engine.reachable clock allowed loaded (Engine.run clock events p).
Proof.
  revert p. induction events as [|e events IH]; intros p R A; cbn.
  - exact R.
  - destruct A as [A1 A2]. apply IH; [|exact A2].
    now apply Engine.reachable_step.
Qed.

(** What [handleVoiceInterruption] does to the stream that plays. *)
Lemma handleVoiceInterruption_stops (p : Engine.Plugin) (a : Engine.AudioId) :
  Engine.isInContinuousDialog p = true ->
  Engine.currentAudio p = Some a ->
  Engine.paused a p = false ->
  let q := Engine.handleVoiceInterruption p in
  Engine.effects q
  = (Engine.effects p
     ++ [Engine.AudioPause a;
         Engine.StatusFloat "检测到语音输入，正在处理...";
         Engine.GetUserMedia Engine.ForRecording])%list
  /\ Engine.currentAudio q = None
  /\ Engine.audios q = Engine.replaceNth a true (Engine.audios p).
Proof.
  unfold Engine.paused. intros D C P.
  autounfold with engine. cbn. unfold Engine.paused. rewrite C, P. cbn.
  split_cases; rewrite ?D; cbn; rewrite <- ?app_assoc; cbn.
  all: repeat split; congruence.
Qed.

Lemma handleVoiceInterruption_audios (p : Engine.Plugin) (a : Engine.AudioId) :
  Engine.currentAudio p = Some a ->
  Engine.paused a p = false ->
  Engine.audios (Engine.handleVoiceInterruption p)
  = Engine.replaceNth a true (Engine.audios p)
  /\ Engine.currentAudio (Engine.handleVoiceInterruption p) = None.
Proof.
  unfold Engine.paused. intros C P.
  autounfold with engine. cbn. unfold Engine.paused. rewrite C, P. cbn.
  split_cases; split; reflexivity.
Qed.

Lemma nth_replaceNth_other (l : list bool) (a b : nat) (v : bool) :
  a <> b -> nth b (Engine.replaceNth a v l) true = nth b l true.
Proof.
  revert a b. induction l as [|x l IH]; intros [|a] [|b] N; cbn;
    try reflexivity; try lia.
  apply IH. lia.
Qed.

Lemma active_snoc_playing (l : list bool) :
  filter negb (Engine.replaceNth (List.length l) false (l ++ [true]))
  = (filter negb l ++ [false])%list.
Proof.
  induction l as [|x l IH]; cbn; [reflexivity|].
  rewrite IH. now destruct x.
Qed.

Lemma earlier_stream_out_of_reach (p q : Engine.Plugin) :
  Engine.audios q
  = Engine.replaceNth (List.length (Engine.audios p)) false
      (Engine.audios p ++ [true]) ->
  Engine.currentAudio q = Some (List.length (Engine.audios p)) ->
  forall earlier,
    Engine.paused earlier p = false ->
    Engine.paused earlier q = false
    /\ Engine.paused earlier (Engine.stopTTS q) = false
    /\ Engine.paused earlier (Engine.handleVoiceInterruption q) = false.
Proof.
  intros A C earlier E.
  assert (N : Engine.paused (List.length (Engine.audios p)) q = false).
  { unfold Engine.paused. rewrite A. clear.
    induction (Engine.audios p) as [|x l IH]; [reflexivity | exact IH]. }
  assert (L : (earlier < List.length (Engine.audios p))%nat).
  { unfold Engine.paused in E.
    destruct (Nat.lt_ge_cases earlier (List.length (Engine.audios p)))
      as [L|L]; [exact L|].
    rewrite nth_overflow in E by exact L. discriminate E. }
  assert (Q : Engine.paused earlier q = false).
  { unfold Engine.paused. rewrite A, nth_replaceNth_other by lia.
    rewrite app_nth1 by exact L. exact E. }
  split; [exact Q|]. split.
  - unfold Engine.stopTTS. rewrite C. unfold Engine.paused.
    cbn [Engine.audios Engine.emit Engine.set_effects Engine.set_isPlaying
         Engine.set_currentAudio Engine.audioPause Engine.set_audios].
    rewrite nth_replaceNth_other by lia. exact Q.
  - destruct (handleVoiceInterruption_audios q _ C N) as [H _].
    unfold Engine.paused. rewrite H, nth_replaceNth_other by lia.
    exact Q.
Qed.

(** X21.  [playAudioFromBase64] never stops what is playing: it starts a
    new stream beside the ones that play (one more stream is active) and
    overwrites [currentAudio], the only handle the plugin keeps.  A
    stream that was playing before is then out of reach: neither the stop
    button ([stopTTS]) nor a voice interruption
    ([handleVoiceInterruption]) pauses it. *)
Theorem playAudioFromBase64_never_stops_the_playing_stream
        (base64Audio : string) (decoded : Blob) (p : Engine.Plugin) :
  let q := fst (Engine.playAudioFromBase64 base64Audio (Resolved decoded) p) in
  Engine.activeStreams q = S (Engine.activeStreams p)
  /\ Engine.currentAudio q = Some (List.length (Engine.audios p))
  /\ forall earlier,
       Engine.paused earlier p = false ->
       Engine.paused earlier q = false
       /\ Engine.paused earlier (Engine.stopTTS q) = false
       /\ Engine.paused earlier (Engine.handleVoiceInterruption q) = false.
Proof.
  intros q.
  assert (A : Engine.audios q
              = Engine.replaceNth (List.length (Engine.audios p)) false
                  (Engine.audios p ++ [true])).
  { subst q. autounfold with engine. split_cases; reflexivity. }
  assert (C : Engine.currentAudio q = Some (List.length (Engine.audios p))).
  { subst q. autounfold with engine. split_cases; reflexivity. }
  clearbody q. split; [|split; [exact C|]].
  - unfold Engine.activeStreams. rewrite A, active_snoc_playing, length_app.
    cbn. lia.
  - now apply earlier_stream_out_of_reach.
Qed.

(** X22.  As long as a reply starts to play only while no other stream
    is active, the plugin keeps at most one stream active, in every state
    it can reach and whatever the order of the callbacks.  When the
    monitor then hears the user for the third time in a row during a
    session while the reply plays, the stream is paused and its handle
    dropped before the microphone is requested for the next recording,
    and no stream is left active. *)
Theorem playback_keeps_one_stream_and_interruption_stops_it
        (clock : Engine.Clock) (loaded : VoiceAssistantSettings)
        (p : Engine.Plugin) :
  Engine.reachable clock Engine.playbackApart loaded p ->
  (Engine.activeStreams p <= 1)%nat
  /\ forall id count average a,
       Engine.pendingCallback id p = Some (Engine.CheckVolume count) ->
       Engine.backgroundVoiceDetection p = true ->
       Qltb (voiceDetectionThreshold (Engine.settings p)) average = true ->
       (Engine.requiredDetections <= S count)%nat ->
       Engine.isInContinuousDialog p = true ->
       Engine.currentAudio p = Some a ->
       Engine.paused a p = false ->
       let q := Engine.step clock (Engine.TimerFired id average) p in
       Engine.effects q
       = (Engine.effects p
          ++ [Engine.AudioPause a;
              Engine.StatusFloat "检测到语音输入，正在处理...";
              Engine.GetUserMedia Engine.ForRecording])%list
       /\ Engine.currentAudio q = None
       /\ Engine.activeStreams q = 0%nat.
Proof.
  intros R. pose proof (reachable_playingIsCurrent clock loaded p R) as A.
  split; [now apply playingIsCurrent_one_active|].
  intros id count average a T B V Q D C P q.
  assert (E : q = Engine.handleVoiceInterruption (Engine.clearTimeout id p)).
  { subst q. cbn [Engine.step]. rewrite T. cbn [Engine.runCallback].
    unfold Engine.checkVolume.
    change (Engine.backgroundVoiceDetection (Engine.clearTimeout id p))
      with (Engine.backgroundVoiceDetection p).
    change (Engine.settings (Engine.clearTimeout id p))
      with (Engine.settings p).
    rewrite B, V. cbn [negb].
    destruct (Nat.leb_spec Engine.requiredDetections (S count));
      [reflexivity | lia]. }
  destruct (handleVoiceInterruption_stops (Engine.clearTimeout id p) a D C P)
    as (F & G & H).
  rewrite E. split; [exact F|]. split; [exact G|].
  unfold Engine.activeStreams. rewrite H. apply none_active.
  intros b. change (Engine.audios (Engine.clearTimeout id p))
              with (Engine.audios p).
  destruct (nth b (Engine.replaceNth a true (Engine.audios p)) true) eqn:N;
    [reflexivity|].
  apply nth_replaceNth_true in N. destruct N as [N U].
  apply A in U. congruence.
Qed.

Lemma playback_keeps_one_stream_and_interruption_stops_it_witness :
  let p := Engine.run fixedClock heardTwice (Engine.initial spokenSettings) in
  let q := Engine.step fixedClock (Engine.TimerFired 2%nat 50%Q) p in
  Engine.activeStreams p = 1%nat
  /\ Engine.activeStreams q = 0%nat
  /\ Engine.currentAudio q = None.
Proof.
  intros p q.
  destruct (playback_keeps_one_stream_and_interruption_stops_it
              fixedClock spokenSettings p) as [_ I].
  - apply reachable_run_allowed; [constructor|].
    vm_compute. repeat split.
  - destruct (I 2%nat 2%nat 50%Q 0%nat) as (_ & C & S);
      try (vm_compute; reflexivity).
    split; [vm_compute; reflexivity|]. split; [exact S | exact C].
Defined.

(* ================================================================== *)
(** * The silence timer *)
(* ================================================================== *)

Lemma in_silence_filter (test : Engine.TimerId * Engine.Callback -> bool)
      (timers : list (Engine.TimerId * Engine.Callback))
      (id : Engine.TimerId) :
  In id (silenceIdsOf (filter test timers)) ->
  In id (silenceIdsOf timers) /\ test (id, Engine.SilenceExpired) = true.
Proof.
  induction timers as [|[i [|n]] timers IH]; cbn [filter silenceIdsOf];
    [intros []| |].
  - destruct (test (i, Engine.SilenceExpired)) eqn:T; cbn [silenceIdsOf].
    + intros [<-|I]; [split; [now left | exact T]|].
      destruct (IH I). split; [now right | assumption].
    + intros I. destruct (IH I). split; [now right | assumption].
  - destruct (test (i, Engine.CheckVolume n)); cbn [silenceIdsOf]; exact IH.
Qed.

Lemma in_silence_snoc (timers : list (Engine.TimerId * Engine.Callback))
      (id n : Engine.TimerId) (cb : Engine.Callback) :
  In id (silenceIdsOf (timers ++ [(n, cb)])) ->
  In id (silenceIdsOf timers) \/ (id = n /\ cb = Engine.SilenceExpired).
Proof.
  induction timers as [|[i [|k]] timers IH]; cbn [app silenceIdsOf].
  - destruct cb; cbn; intuition.
  - intros [<-|I]; [left; now left|].
    destruct (IH I) as [H|H]; [left; now right | now right].
  - exact IH.
Qed.

Lemma pending_silence (id : Engine.TimerId) (p : Engine.Plugin) :
  Engine.pendingCallback id p = Some Engine.SilenceExpired ->
  In id (silenceIdsOf (Engine.timers p)).
Proof.
  unfold Engine.pendingCallback.
  induction (Engine.timers p) as [|[i cb] timers IH]; cbn; [discriminate|].
  destruct (Nat.eqb_spec i id) as [->|N]; cbn.
  - intros H. injection H as ->. now left.
  - intros H. destruct cb; [right|]; now apply IH.
Qed.

Ltac silence_ids H :=
  repeat first
    [ apply in_silence_filter in H; cbn in H;
      let T := fresh "T" in destruct H as [H T]
    | apply in_silence_snoc in H;
      let E := fresh "E" in
      let C := fresh "C" in
      destruct H as [H|[E C]]; [|try discriminate C; subst] ].

Ltac silence_done K H :=
  first
    [ reflexivity
    | exfalso; apply K in H; congruence
    | apply K in H; congruence
    | apply K in H;
      repeat match goal with
             | T : (if (?a =? ?b)%nat then false else true) = true |- _ =>
                 destruct (Nat.eqb_spec a b); [discriminate T|]; clear T
             end;
      congruence ].

Lemma step_keeps_silenceKept (clock : Engine.Clock) (e : Engine.Event)
      (p : Engine.Plugin) :
  silenceKept p -> silenceKept (Engine.step clock e p).
Proof.
  unfold silenceKept. intros K.
  destruct e; autounfold with engine.
  all: split_cases.
  all: try exact K.
  all: intros id0 H; silence_ids H; silence_done K H.
Qed.

Lemma step_end_clears_silenceTimer (clock : Engine.Clock) (e : Engine.Event)
      (p : Engine.Plugin) :
  Engine.isInContinuousDialog p = true ->
  Engine.isInContinuousDialog (Engine.step clock e p) = false ->
  Engine.silenceTimer (Engine.step clock e p) = None.
Proof.
  intros D. destruct e; autounfold with engine.
  all: split_cases.
  all: intros E; first [reflexivity | congruence].
Qed.

Lemma reachable_silenceKept (clock : Engine.Clock)
      (loaded : VoiceAssistantSettings) (p : Engine.Plugin) :
  Engine.reachable clock Engine.anyEvent loaded p -> silenceKept p.
Proof.
  induction 1 as [|p e R IH _]; [intros id []|].
  now apply step_keeps_silenceKept.
Qed.

(** X23.  The 20-second silence timer is single: in every state the
    plugin can reach, whatever the order of the callbacks, a pending
    silence timer is the one held in [silenceTimer], so at most one is
    pending; [startSilenceDetection] replaces it (afterwards the only
    pending silence timer is the new one); and the callback that ends a
    session, by the command, by the button or by the expiry of the timer,
    leaves no silence timer pending. *)
Theorem silence_timer_is_single_and_cancelled_at_the_end
        (clock : Engine.Clock) (loaded : VoiceAssistantSettings)
        (p : Engine.Plugin) :
  Engine.reachable clock Engine.anyEvent loaded p ->
  (forall id,
     Engine.pendingCallback id p = Some Engine.SilenceExpired ->
     Engine.silenceTimer p = Some id)
  /\ (forall id,
        Engine.pendingCallback id (Engine.startSilenceDetection p)
        = Some Engine.SilenceExpired ->
        id = Engine.nextTimer p)
  /\ (forall e id,
        Engine.isInContinuousDialog p = true ->
        Engine.isInContinuousDialog (Engine.step clock e p) = false ->
        Engine.pendingCallback id (Engine.step clock e p)
        <> Some Engine.SilenceExpired).
Proof.
  intros R. pose proof (reachable_silenceKept clock loaded p R) as K.
  split; [|split].
  - intros id P. apply K. now apply pending_silence.
  - intros id P. apply pending_silence in P. revert P.
    unfold Engine.startSilenceDetection, Engine.clearSilenceTimer,
      Engine.setTimeout, Engine.clearTimeout.
    destruct (Engine.silenceTimer p) as [t|] eqn:S; cbn; intros P.
    + apply in_silence_snoc in P. destruct P as [P|[-> _]]; [|reflexivity].
      apply in_silence_filter in P. destruct P as [P T]. cbn in T.
      apply K in P. rewrite S in P. injection P as ->.
      rewrite Nat.eqb_refl in T. discriminate T.
    + apply in_silence_snoc in P. destruct P as [P|[-> _]]; [|reflexivity].
      apply K in P. congruence.
  - intros e id D E P.
    pose proof (step_keeps_silenceKept clock e p K) as K'.
    apply pending_silence, K' in P.
    rewrite (step_end_clears_silenceTimer clock e p D E) in P.
    discriminate P.
Qed.

Lemma silence_timer_is_single_and_cancelled_at_the_end_witness :
  let p := oneTurnSession in
  Engine.pendingCallback 1%nat p = Some Engine.SilenceExpired
  /\ Engine.silenceTimer p = Some 1%nat
  /\ Engine.pendingCallback 1%nat (Engine.step fixedClock Engine.EndDialogCommand p)
     <> Some Engine.SilenceExpired.
Proof.
  intros p.
  destruct (silence_timer_is_single_and_cancelled_at_the_end
              fixedClock DEFAULT_SETTINGS p) as (S & _ & E).
  - apply reachable_run. constructor.
  - assert (P : Engine.pendingCallback 1%nat p = Some Engine.SilenceExpired)
      by (vm_compute; reflexivity).
    split; [exact P|]. split; [now apply S|].
    apply E; vm_compute; reflexivity.
Defined.

(** ** Dictation *)

Section DictationLoop.

Variable sqrt : PrimFloat.float -> PrimFloat.float.
Variable pow : PrimFloat.float -> PrimFloat.float -> PrimFloat.float.
Variable settings : VoiceAssistantSettings.

Lemma recognitionRequests_emit (e : Dictation.Effect) (s : Dictation.State) :
  Dictation.recognitionRequests (Dictation.emit e s)
  = (Dictation.recognitionRequests s
     ++ match e with
        | Dictation.SpeechToText audio => [audio]
        | _ => []
        end)%list.
Proof.
  unfold Dictation.recognitionRequests, Dictation.emit. cbn.
  rewrite flat_map_app. cbn. now rewrite app_nil_r.
Qed.

(** The recogniser is asked once by [processAccumulatedAudio] when
    segments are held, with their concatenation, and not at all
    otherwise. *)
Lemma processAccumulatedAudio_requests
      (position : Dictation.Position) (answer : outcome string)
      (s : Dictation.State) :
  Dictation.recognitionRequests
    (fst (Dictation.processAccumulatedAudio position answer s))
  = match Dictation.dictationAudioChunks s with
    | [] => Dictation.recognitionRequests s
    | chunks => (Dictation.recognitionRequests s ++ [newBlob chunks])%list
    end.
Proof.
  unfold Dictation.processAccumulatedAudio,
    Dictation.processAccumulatedAudio_begin,
    Dictation.processAccumulatedAudio_recognized.
  destruct (Dictation.dictationAudioChunks s) as [|chunk chunks];
    [reflexivity|].
  destruct answer as [text|error]; [|cbn [fst]].
  - destruct (truthy text && truthy (trim text)); cbn [fst];
      rewrite ?recognitionRequests_emit; cbn; now rewrite ?app_nil_r.
  - rewrite !recognitionRequests_emit. cbn. now rewrite ?app_nil_r.
Qed.

(** Whatever the recogniser answers, [flush] leaves no segment. *)
Lemma flush_clears (answer : outcome string) (s : Dictation.State) :
  Dictation.dictationAudioChunks (Dictation.flush answer s) = [].
Proof.
  unfold Dictation.flush.
  destruct (Dictation.processAccumulatedAudio
              (Dictation.insertPosition s) answer s) as [s' text].
  reflexivity.
Qed.

Lemma flush_requests (answer : outcome string) (s : Dictation.State) :
  Dictation.recognitionRequests (Dictation.flush answer s)
  = Dictation.recognitionRequests
      (fst (Dictation.processAccumulatedAudio
              (Dictation.insertPosition s) answer s)).
Proof.
  unfold Dictation.flush.
  destruct (Dictation.processAccumulatedAudio
              (Dictation.insertPosition s) answer s) as [s' text].
  cbn [fst]. now destruct (truthy text && truthy (trim text)).
Qed.

Lemma flushDue_spec (now : Z) (s : Dictation.State) :
  Dictation.flushDue settings now s = true
  <-> Dictation.dictationAudioChunks s <> []
      /\ (Dictation.silenceIntervalMs settings
          <= inject_Z (now - Dictation.lastVoiceDetectedTime s))%Q.
Proof.
  unfold Dictation.flushDue. rewrite andb_true_iff, Qle_bool_iff.
  destruct (Dictation.dictationAudioChunks s); cbn; intuition congruence.
Qed.

(** One pass adds at most one segment. *)
Lemma pass_grows_by_one (c : Dictation.Capture) (s : Dictation.State) :
  (List.length
     (Dictation.dictationAudioChunks (fst (Dictation.pass sqrt pow settings c s)))
   <= S (List.length (Dictation.dictationAudioChunks s)))%nat.
Proof.
  unfold Dictation.pass.
  destruct (Dictation.captured c); [|cbn; lia].
  destruct (Vad.detectVoiceInAudio sqrt pow settings (Dictation.decoded c))
    as [[|]|]; cbn [fst].
  - cbn. rewrite length_app. cbn. lia.
  - destruct (Dictation.flushDue settings (Dictation.time c) s); cbn [fst];
      [rewrite flush_clears; cbn; lia | lia].
  - lia.
Qed.

Lemma stopDictation_chunks (s : Dictation.State) :
  Dictation.dictationAudioChunks (Dictation.stopDictation s)
  = Dictation.dictationAudioChunks s.
Proof. reflexivity. Qed.

(** Over a run of the loop the list holds at most one segment for each
    capture. *)
Lemma dictationLoop_grows_with_captures
      (captures : list Dictation.Capture) (s : Dictation.State) :
  (List.length
     (Dictation.dictationAudioChunks
        (fst (Dictation.dictationLoop sqrt pow settings captures s)))
   <= List.length (Dictation.dictationAudioChunks s)
      + List.length captures)%nat.
Proof.
  revert s. induction captures as [|c captures IH]; intros s;
    cbn [Dictation.dictationLoop List.length fst]; [lia|].
  destruct (negb (Dictation.isDictating s)); cbn [fst]; [lia|].
  pose proof (pass_grows_by_one c s) as G.
  destruct (Dictation.pass sqrt pow settings c s) as [s' [| |]];
    cbn [fst] in *; try lia.
  etransitivity; [apply IH|].
  destruct (Dictation.stopped c); rewrite ?stopDictation_chunks; lia.
Qed.

End DictationLoop.

(** X24.  In one pass of the dictation loop the
    recogniser is asked (a flush is attempted) only when segments are held
    and the time since the last detected speech has reached the configured
    silence interval; the pass that finds a silent capture in that
    situation asks the recogniser once, with the concatenation of the
    segments held, and whatever the recogniser answers (text, the empty
    string, a failure) the list of segments is empty afterwards.  A voiced
    capture appends its segment; over a run the list holds at most one
    segment per capture since it was last emptied. *)
Theorem dictation_flush_due_and_clears
        (sqrt : PrimFloat.float -> PrimFloat.float)
        (pow : PrimFloat.float -> PrimFloat.float -> PrimFloat.float)
        (settings : VoiceAssistantSettings)
        (c : Dictation.Capture) (s : Dictation.State) :
  let after := fst (Dictation.pass sqrt pow settings c s) in
  let due :=
    Dictation.dictationAudioChunks s <> []
    /\ (Dictation.silenceIntervalMs settings
        <= inject_Z (Dictation.time c - Dictation.lastVoiceDetectedTime s))%Q in
  (Dictation.recognitionRequests after <> Dictation.recognitionRequests s ->
   due)
  /\ (forall audioBlob,
        Dictation.captured c = Resolved audioBlob ->
        Vad.detectVoiceInAudio sqrt pow settings (Dictation.decoded c)
        = Some false ->
        due ->
        Dictation.recognitionRequests after
        = (Dictation.recognitionRequests s
           ++ [newBlob (Dictation.dictationAudioChunks s)])%list
        /\ Dictation.dictationAudioChunks after = [])
  /\ (forall audioBlob,
        Dictation.captured c = Resolved audioBlob ->
        Vad.detectVoiceInAudio sqrt pow settings (Dictation.decoded c)
        = Some true ->
        Dictation.dictationAudioChunks after
        = (Dictation.dictationAudioChunks s ++ [audioBlob])%list)
  /\ (forall captures,
        (List.length
           (Dictation.dictationAudioChunks
              (fst (Dictation.dictationLoop sqrt pow settings captures s)))
         <= List.length (Dictation.dictationAudioChunks s)
            + List.length captures)%nat).
Proof.
  intros after due. subst after due.
  split; [|split; [|split]].
  - intros R. apply flushDue_spec. revert R. unfold Dictation.pass.
    destruct (Dictation.captured c); [|now intros []].
    destruct (Vad.detectVoiceInAudio sqrt pow settings (Dictation.decoded c))
      as [[|]|]; cbn [fst]; try (now intros []).
    + rewrite recognitionRequests_emit. cbn. rewrite app_nil_r.
      now intros [].
    + destruct (Dictation.flushDue settings (Dictation.time c) s);
        [reflexivity | now intros []].
  - intros audioBlob C V D. pose proof D as [N _].
    apply flushDue_spec in D. unfold Dictation.pass. rewrite C, V, D.
    cbn [fst]. rewrite flush_clears, flush_requests,
      processAccumulatedAudio_requests.
    now destruct (Dictation.dictationAudioChunks s).
  - intros audioBlob C V. unfold Dictation.pass. now rewrite C, V.
  - intros captures. apply dictationLoop_grows_with_captures.
Qed.

Lemma dictation_flush_due_and_clears_witness :
  let c := silentCapture 2500 (Rejected "network"%string) in
  let after :=
    fst (Dictation.pass PrimFloat.sqrt square DEFAULT_SETTINGS c oneChunk) in
  Dictation.dictationAudioChunks oneChunk = [segment 1]
  /\ Dictation.recognitionRequests after = [newBlob [segment 1]]
  /\ Dictation.dictationAudioChunks after = [].
Proof.
  intros c after.
  destruct (dictation_flush_due_and_clears
              PrimFloat.sqrt square DEFAULT_SETTINGS c oneChunk) as (_ & F & _).
  destruct (F (segment 0)) as [R E].
  - reflexivity.
  - vm_compute. reflexivity.
  - split; [vm_compute; discriminate | vm_compute; discriminate].
  - split; [vm_compute; reflexivity | split; [exact R | exact E]].
Defined.

(** X25.  Nothing bounds the list of accumulated segments while the
    user keeps speaking: in a run of captures that are all classified as
    speech (and during which dictation is not stopped) every capture
    appends its segment and the recogniser is never asked, so after [n]
    such captures the list is [n] segments longer. *)
Theorem dictation_accumulates_while_the_user_speaks
        (sqrt : PrimFloat.float -> PrimFloat.float)
        (pow : PrimFloat.float -> PrimFloat.float -> PrimFloat.float)
        (settings : VoiceAssistantSettings)
        (captures : list Dictation.Capture) (blobs : list Blob)
        (s : Dictation.State) :
  Dictation.isDictating s = true ->
  Forall2 (fun c blob =>
             Dictation.captured c = Resolved blob
             /\ Vad.detectVoiceInAudio sqrt pow settings (Dictation.decoded c)
                = Some true
             /\ Dictation.stopped c = false)
          captures blobs ->
  let after := fst (Dictation.dictationLoop sqrt pow settings captures s) in
  Dictation.dictationAudioChunks after
  = (Dictation.dictationAudioChunks s ++ blobs)%list
  /\ List.length (Dictation.dictationAudioChunks after)
     = (List.length (Dictation.dictationAudioChunks s)
        + List.length captures)%nat
  /\ Dictation.recognitionRequests after = Dictation.recognitionRequests s.
Proof.
  intros D F. cbv zeta.
  assert (G : Dictation.dictationAudioChunks
                (fst (Dictation.dictationLoop sqrt pow settings captures s))
              = (Dictation.dictationAudioChunks s ++ blobs)%list
              /\ Dictation.recognitionRequests
                   (fst (Dictation.dictationLoop sqrt pow settings captures s))
                 = Dictation.recognitionRequests s).
  { revert s D. induction F as [|c blob captures blobs [C [V S]] F IH];
      intros s D; cbn [Dictation.dictationLoop fst].
    - now rewrite app_nil_r.
    - rewrite D. cbn [negb]. unfold Dictation.pass. rewrite C, V, S.
      destruct (IH (Dictation.emit (Dictation.StatusFloat "正在录音...")
                      (Dictation.set_lastVoiceTime (Dictation.time c)
                         (Dictation.set_lastVoiceDetectedTime
                            (Dictation.time c)
                            (Dictation.set_dictationAudioChunks
                               (Dictation.dictationAudioChunks s ++ [blob])
                               s))))) as [A B]; [exact D|].
      rewrite A, B. split.
      + cbn. now rewrite <- app_assoc.
      + rewrite recognitionRequests_emit. cbn. now rewrite app_nil_r. }
  destruct G as [A B]. split; [exact A|]. split; [|exact B].
  rewrite A, length_app. f_equal. symmetry.
  now apply (Forall2_length F).
Qed.

Lemma dictation_accumulates_while_the_user_speaks_witness :
  List.length
    (Dictation.dictationAudioChunks
       (fst (Dictation.dictationLoop PrimFloat.sqrt square DEFAULT_SETTINGS
               (repeat (voicedCapture 500) 100) dictationStart)))
  = 100%nat.
Proof.
  destruct (dictation_accumulates_while_the_user_speaks
              PrimFloat.sqrt square DEFAULT_SETTINGS
              (repeat (voicedCapture 500) 100) (repeat (segment 1) 100)
              dictationStart) as (_ & L & _).
  - reflexivity.
  - generalize 100%nat. intros n.
    induction n as [|n IH]; cbn [repeat]; constructor; [|exact IH].
    split; [reflexivity|]. split; [vm_compute; reflexivity | reflexivity].
  - rewrite L, repeat_length. reflexivity.
Defined.

(* ------------------------------------------------------------------ *)
(** ** Turns that fail, the acknowledgement, and the end of a session *)
(* ------------------------------------------------------------------ *)

(** X26.  A turn that fails keeps the session: when the recording, the
    recognition or the call of the model throws, a turn started by the
    command ([processSingleConversation]) and an interruption-triggered
    turn ([processSingleConversationWithBuffer]) both leave the history as
    it was and the session running. *)
Theorem failed_turn_keeps_history_and_session
        (a : Engine.TurnAnswers) (p : Engine.Plugin) (error : string) :
  Engine.isInContinuousDialog p = true ->
  Engine.recording a = Rejected error
  \/ Engine.recognition a = Rejected error
  \/ Engine.reply a = Rejected error ->
  (Engine.conversationHistory (Engine.startVoiceConversation a p)
   = Engine.conversationHistory p
   /\ Engine.isInContinuousDialog (Engine.startVoiceConversation a p) = true)
  /\ (Engine.conversationHistory
        (Engine.processSingleConversationWithBuffer a p)
      = Engine.conversationHistory p
      /\ Engine.isInContinuousDialog
           (Engine.processSingleConversationWithBuffer a p) = true).
Proof.
  intros D F.
  assert (V : sessionView (Engine.startVoiceConversation a p) = sessionView p
              /\ sessionView (Engine.processSingleConversationWithBuffer a p)
                 = sessionView p).
  { rewrite (dialog_turn_view a p D), (interrupted_turn_view a p).
    destruct F as [F|[F|F]]; rewrite F.
    - now split.
    - destruct (Engine.recording a); now split.
    - destruct (Engine.recording a), (Engine.recognition a); now split. }
  destruct V as [V1 V2].
  apply view_eq in V1. apply view_eq in V2. rewrite D in V1, V2.
  destruct V1 as [D1 H1], V2 as [D2 H2]. now repeat split.
Qed.

Lemma failed_turn_keeps_history_and_session_witness :
  (Engine.conversationHistory
     (Engine.startVoiceConversation failedRecording runningSession)
   = Engine.conversationHistory runningSession
   /\ Engine.isInContinuousDialog
        (Engine.startVoiceConversation failedRecording runningSession) = true)
  /\ (Engine.conversationHistory
        (Engine.processSingleConversationWithBuffer
           failedRecording runningSession)
      = Engine.conversationHistory runningSession
      /\ Engine.isInContinuousDialog
           (Engine.processSingleConversationWithBuffer
              failedRecording runningSession) = true).
Proof.
  exact (failed_turn_keeps_history_and_session
           failedRecording runningSession "NotAllowedError"
           eq_refl (or_introl eq_refl)).
Defined.

(** X27.  When the acknowledgement of the wake word was spoken, or the
    service sent no audio, [onWakeWordDetected] leaves the settings as
    they were before the wake word ([saveAudioToVault] has its former
    value again) and the acknowledgement was not handed to
    [saveAudioToVault]. *)
Theorem wake_acknowledgement_restores_settings_and_saves_nothing
        (answer : Engine.Synthesis) (ending : Engine.PlaybackEnd)
        (p q : Engine.Plugin) :
  ttsMode (Engine.settings p) = tts_online ->
  snd (Engine.speak answer ending (fst (Engine.onWakeWordDetected_begin p)))
  = Some (Resolved tt) ->
  Engine.acknowledgeWake answer ending p = Some q ->
  Engine.settings q = Engine.settings p
  /\ (forall base64Audio,
         In (Engine.SaveAudioToVault base64Audio) (Engine.effects q) ->
         In (Engine.SaveAudioToVault base64Audio) (Engine.effects p)).
Proof.
  intros M S A. split.
  - exact (wake_acknowledgement_success_restores answer ending p q M S A).
  - intros base64Audio I.
    apply (wake_acknowledgement_is_not_saved answer ending p base64Audio M).
    cbv zeta. revert A I. unfold Engine.acknowledgeWake.
    assert (B : snd (Engine.onWakeWordDetected_begin p)
                = Some (saveAudioToVault (Engine.settings p))).
    { unfold Engine.onWakeWordDetected_begin. fields. now rewrite M. }
    destruct (Engine.onWakeWordDetected_begin p) as [p1 [o|]];
      [|discriminate B]. cbn [fst].
    destruct (Engine.speak answer ending p1) as [p2 [speech|]];
      [|discriminate].
    intros [= <-]. cbn [fst].
    unfold Engine.onWakeWordDetected_acknowledged.
    now destruct speech.
Qed.

Lemma wake_acknowledgement_restores_settings_and_saves_nothing_witness :
  Engine.settings (acknowledged (Engine.initial savingSettings))
  = Engine.settings (Engine.initial savingSettings)
  /\ (forall base64Audio,
         In (Engine.SaveAudioToVault base64Audio)
            (Engine.effects (acknowledged (Engine.initial savingSettings))) ->
         In (Engine.SaveAudioToVault base64Audio)
            (Engine.effects (Engine.initial savingSettings))).
Proof.
  apply (wake_acknowledgement_restores_settings_and_saves_nothing
           replyAudio Engine.PlayedToEnd).
  - vm_compute. reflexivity.
  - vm_compute. reflexivity.
  - vm_compute. reflexivity.
Defined.

(** X28.  When the call of the model throws while a session with turns is
    ended through [endContinuousDialogWithSummary], the conversation is
    lost: the request was sent, nothing is handed to
    [saveConversationToFile], and the history is cleared and the session
    over all the same. *)
Theorem summary_failure_loses_the_conversation
        (clock : Engine.Clock) (error : string) (saved : outcome unit)
        (now : Z) (p : Engine.Plugin) :
  Engine.isInContinuousDialog p = true ->
  Engine.conversationHistory p <> [] ->
  let q := Engine.endContinuousDialogWithSummary
             clock (Rejected error) saved now p in
  In (Engine.CallLLM
        (Engine.summaryRequest clock (Engine.conversationHistory p)))
     (Engine.effects q)
  /\ (forall fileName content,
         In (Engine.SaveConversationToFile fileName content)
            (Engine.effects q) ->
         In (Engine.SaveConversationToFile fileName content)
            (Engine.effects p))
  /\ Engine.conversationHistory q = []
  /\ Engine.isInContinuousDialog q = false.
Proof.
  intros D H q.
  destruct (summary_exception_persists_nothing
              clock error saved now p D H) as [E C].
  fold q in E, C. rewrite E. repeat split.
  - apply in_or_app. right. right. now left.
  - intros fileName content I. apply in_app_or in I.
    destruct I as [I|I]; [exact I|].
    cbn in I. destruct I as [I|[I|[I|[]]]]; discriminate I.
  - exact C.
  - subst q.
    unfold Engine.endContinuousDialogWithSummary,
      Engine.endContinuousDialogWithSummary_begin.
    rewrite D. cbn [negb].
    destruct (Engine.conversationHistory p) as [|turn history];
      [now elim H|].
    unfold Engine.endContinuousDialogWithSummary_finish.
    match goal with
    | |- context [Engine.leaveDialog ?x] =>
        now destruct (leaveDialog_quiet x) as (_ & _ & Q)
    end.
Qed.

Lemma summary_failure_loses_the_conversation_witness :
  let q := Engine.endContinuousDialogWithSummary
             fixedClock (Rejected "timeout"%string) (Resolved tt) 2000%Z
             oneTurnSession in
  In (Engine.CallLLM
        (Engine.summaryRequest
           fixedClock (Engine.conversationHistory oneTurnSession)))
     (Engine.effects q)
  /\ (forall fileName content,
         In (Engine.SaveConversationToFile fileName content)
            (Engine.effects q) ->
         In (Engine.SaveConversationToFile fileName content)
            (Engine.effects oneTurnSession))
  /\ Engine.conversationHistory q = []
  /\ Engine.isInContinuousDialog q = false.
Proof.
  exact (summary_failure_loses_the_conversation
           fixedClock "timeout" (Resolved tt) 2000%Z oneTurnSession
           eq_refl ltac:(discriminate)).
Defined.

(** X29.  When the end-dialog command ([endContinuousDialog]) ends a
    session opened by the wake word that has turns, the summary is
    requested over the transcript and the wake session is ended at once,
    without waiting for the answer.  When the answer arrives,
    [generateWakeConversationSummary] reads the fields that were reset: the
    note is handed to [saveConversationToFile] under the name [null], with
    the session id [null], zero turns and no transcript. *)
Theorem end_command_summary_of_a_wake_session_is_written_to_null
        (clock : Engine.Clock) (summary : string) (now : Z)
        (fileName : string) (p : Engine.Plugin) :
  Engine.isInContinuousDialog p = true ->
  Engine.isWakeConversation p = true ->
  Engine.wakeSessionFileName p = Some fileName ->
  Engine.conversationHistory p <> [] ->
  truthy summary = true ->
  let q := Engine.step clock Engine.EndDialogCommand p in
  let r := Engine.step clock
             (Engine.SummaryAnswered Engine.WakeSummary (Resolved summary)
                                     now) q in
  Engine.effects q
  = (Engine.effects p
     ++ [Engine.CallLLM
           (Engine.summaryRequest clock (Engine.conversationHistory p));
         Engine.Notice "持续对话模式已结束"])%list
  /\ Engine.conversationHistory q = []
  /\ Engine.effects r
     = (Engine.effects q
        ++ [Engine.SaveConversationToFile
              "null"
              ("## 语音对话总结（唤醒会话）" ++ nl ++ nl ++ "**时间：** "
               ++ Engine.toLocaleString clock now ++ nl
               ++ "**会话ID：** null" ++ nl ++ "**对话轮数：** 0" ++ nl ++ nl
               ++ "### 总结" ++ nl ++ summary ++ nl ++ nl
               ++ "### 详细对话记录" ++ nl ++ nl)])%list.
Proof.
  intros D W F H T q r.
  assert (Q : Engine.effects q
              = (Engine.effects p
                 ++ [Engine.CallLLM
                       (Engine.summaryRequest
                          clock (Engine.conversationHistory p));
                     Engine.Notice "持续对话模式已结束"])%list
              /\ Engine.conversationHistory q = []
              /\ Engine.wakeSessionFileName q = None
              /\ Engine.wakeSessionId q = None).
  { subst q. cbn [Engine.step]. unfold Engine.endContinuousDialog.
    rewrite D. cbn [negb].
    unfold Engine.clearSilenceTimer, Engine.stopBackgroundVoiceDetection,
      Engine.stopPreRecordingBuffer, Engine.clearTimeout.
    destruct (Engine.conversationHistory p) as [|turn history] eqn:E;
      [now elim H|].
    fields. destruct (Engine.silenceTimer p); fields.
    all: destruct (Engine.backgroundVoiceDetection p); fields.
    all: destruct (Engine.voiceDetectionTimer p); fields.
    all: destruct (Engine.isPreRecording p); fields.
    all: rewrite W, F.
    all: unfold Engine.generateSummary_begin, Engine.endWakeSession; fields.
    all: rewrite E, F; fields.
    all: rewrite <- app_assoc; cbn [app]; repeat split; reflexivity. }
  destruct Q as (Q1 & Q2 & Q3 & Q4).
  split; [exact Q1|]. split; [exact Q2|].
  subst r. cbn [Engine.step]. unfold Engine.generateSummary_answered.
  fields. unfold Engine.summaryFileName, Engine.summaryContent.
  rewrite T, Q3. unfold Engine.wakeSummaryNote. rewrite Q2, Q4.
  cbn [Engine.transcript fold_left]. rewrite append_empty. reflexivity.
Qed.

Lemma end_command_summary_of_a_wake_session_is_written_to_null_witness :
  let q := Engine.step fixedClock Engine.EndDialogCommand wakeTurnSession in
  let r := Engine.step fixedClock
             (Engine.SummaryAnswered Engine.WakeSummary
                                     (Resolved "问候"%string) 2000%Z) q in
  Engine.effects q
  = (Engine.effects wakeTurnSession
     ++ [Engine.CallLLM
           (Engine.summaryRequest
              fixedClock (Engine.conversationHistory wakeTurnSession));
         Engine.Notice "持续对话模式已结束"])%list
  /\ Engine.conversationHistory q = []
  /\ Engine.effects r
     = (Engine.effects q
        ++ [Engine.SaveConversationToFile
              "null"
              ("## 语音对话总结（唤醒会话）" ++ nl ++ nl ++ "**时间：** "
               ++ "2025/9/30 09:30:00" ++ nl
               ++ "**会话ID：** null" ++ nl ++ "**对话轮数：** 0" ++ nl ++ nl
               ++ "### 总结" ++ nl ++ "问候" ++ nl ++ nl
               ++ "### 详细对话记录" ++ nl ++ nl)])%list.
Proof.
  exact (end_command_summary_of_a_wake_session_is_written_to_null
           fixedClock "问候" 2000%Z "2025-09-30 09-30-00.md" wakeTurnSession
           eq_refl eq_refl eq_refl ltac:(discriminate) eq_refl).
Defined.
